(** * Batch CSV loaders into PostgreSQL: a shallow embedding

    The repository holds near-identical loader scripts.  Two of them are
    embedded here, function by function:

    - [import_csv_to_postgres.py]  (module [Csv]): drops and recreates its
      table, no duplicate check;
    - [import_per_to_postgres.py]  (module [Per]): never drops, probes the
      table for the first row of every file before importing it.

    [import_org_to_postgres.py] and [import_raw_feed_per_to_postgres.py]
    follow the [Csv] shape (DROP, then CREATE, no probe).  The functions
    of [Csv] are embedded from their bodies; the docstring of
    [clean_value] in that script holds a backslash followed by N outside a
    raw literal, which Python 3 refuses when it reads the file;
    [import_org_to_postgres.py] has the same coercers, loop and commits
    without that docstring.

    The other scripts are embedded as well: [import_org_to_postgres.py]
    (module [Org]) and [import_raw_feed_per_to_postgres.py] (module
    [RawFeed]) with their own schema, indexes and [main], the folder each
    script computes when it is loaded (module [Os] and the [_script]
    definitions), and the orchestrator [import_all_to_postgres.py]
    (module [All]), which runs the three loaders as child processes.

    Python values are modelled as follows: [str] is a byte string
    ([string], the UTF-8 encoding), [int] is [Z], [float] is a binary64
    [spec_float], [None] is [None]/[PyNone], a [dict] is a [gmap], an
    exception is a value of [Exn] returned through [Result].  The file
    system and the PostgreSQL connection are explicit values that the
    functions take and return. *)

From Stdlib Require Import ZArith String Ascii.
From Stdlib Require Import Floats.SpecFloat.
From stdpp Require Import base option list gmap strings sorting pretty.

Open Scope string_scope.
Open Scope list_scope.
Open Scope Z_scope.

(** ** Exceptions and results *)

(** The exception classes the loaders can meet.  All of them derive from
    Python's [Exception]. *)
Inductive Exn : Type :=
| ValueError
| TypeError
| OverflowError
| IndexError
| FileNotFoundError
| IsADirectoryError
| ReadError                  (* UnicodeDecodeError, EOFError, BadGzipFile, csv.Error *)
| UndefinedTable             (* psycopg2.errors.UndefinedTable *)
| DuplicateTable             (* psycopg2.errors.DuplicateTable *)
| UndefinedColumn            (* psycopg2.errors.UndefinedColumn *)
| DuplicateColumn            (* psycopg2.errors.DuplicateColumn *)
| SyntaxError                (* psycopg2.errors.SyntaxError *)
| DataError                  (* psycopg2.errors.DataError and its kin *)
| InFailedSqlTransaction.    (* psycopg2.errors.InFailedSqlTransaction *)

#[global] Instance Exn_eq_dec : EqDecision Exn.
Proof. solve_decision. Defined.

Inductive Result (A : Type) : Type :=
| Ok (a : A)
| Raise (e : Exn).
Arguments Ok {A} a.
Arguments Raise {A} e.

Definition raises {A} (r : Result A) : bool :=
  match r with Ok _ => false | Raise _ => true end.

(** ** Python built-ins used by the coercer *)

Module Py.

Definition is_upper (c : ascii) : bool :=
  let n := N_of_ascii c in ((65 <=? n) && (n <=? 90))%N.

Definition is_digit (c : ascii) : bool :=
  let n := N_of_ascii c in ((48 <=? n) && (n <=? 57))%N.

(** Whitespace as [float()] sees it in the ASCII range: TAB, LF, VT, FF,
    CR, the separators FS, GS, RS, US, and the space. *)
Definition is_space (c : ascii) : bool :=
  let n := N_of_ascii c in
  (((9 <=? n) && (n <=? 13)) || ((28 <=? n) && (n <=? 32)))%N.

Definition ascii_lower (c : ascii) : ascii :=
  if is_upper c then ascii_of_N (N_of_ascii c + 32) else c.

(** [str.lower()].  On the UTF-8 bytes of a string only the letters A-Z
    change.  CPython also lowers letters outside ASCII, but no such letter
    lowers to one of a-z except the Kelvin sign (to k), which occurs in
    none of the words the loaders compare with. *)
Fixpoint lower (s : string) : string :=
  match s with
  | EmptyString => EmptyString
  | String c s' => String (ascii_lower c) (lower s')
  end.

(** [len] of a list, as a Python [int]. *)
Definition len {A} (l : list A) : Z := Z.of_nat (length l).

(** [str.endswith]. *)
Definition endswith (s suffix : string) : bool :=
  bool_decide (String.length suffix <= String.length s)%nat &&
  String.eqb
    (String.substring (String.length s - String.length suffix)
                      (String.length suffix) s)
    suffix.

(** *** [float(str)] *)

Definition prec : Z := 53.
Definition emax : Z := 1024.

Fixpoint lstrip (l : list ascii) : list ascii :=
  match l with
  | c :: l' => if is_space c then lstrip l' else l
  | [] => []
  end.

Definition strip (l : list ascii) : list ascii :=
  rev (lstrip (rev (lstrip l))).

(** PEP 515: an underscore is accepted only between two digits; the
    parser then works on the text without the underscores. *)
Fixpoint drop_underscores (prev : option ascii) (l : list ascii)
  : option (list ascii) :=
  match l with
  | [] => Some []
  | c :: l' =>
      if Ascii.eqb c "_" then
        match prev, l' with
        | Some p, d :: _ =>
            if is_digit p && is_digit d
            then drop_underscores (Some c) l' else None
        | _, _ => None
        end
      else option_map (cons c) (drop_underscores (Some c) l')
  end.

Fixpoint span_digits (l : list ascii) : list ascii * list ascii :=
  match l with
  | c :: l' =>
      if is_digit c
      then let '(ds, rest) := span_digits l' in (c :: ds, rest)
      else ([], l)
  | [] => ([], [])
  end.

Definition digit_value (c : ascii) : Z := Z.of_N (N_of_ascii c) - 48.

Definition digits_value (ds : list ascii) : Z :=
  fold_left (fun acc c => 10 * acc + digit_value c) ds 0.

(** An optional sign; [true] stands for minus. *)
Definition take_sign (l : list ascii) : bool * list ascii :=
  match l with
  | c :: l' =>
      if Ascii.eqb c "-" then (true, l')
      else if Ascii.eqb c "+" then (false, l')
      else (false, l)
  | [] => (false, [])
  end.

(** The exponent part: empty, or [e]/[E], an optional sign and at least
    one digit, up to the end of the text. *)
Definition parse_exponent (l : list ascii) : option Z :=
  match l with
  | [] => Some 0
  | c :: l' =>
      if Ascii.eqb (ascii_lower c) "e" then
        let '(neg, l'') := take_sign l' in
        match span_digits l'' with
        | ((_ :: _) as ds, []) =>
            Some (if neg then - digits_value ds else digits_value ds)
        | _ => None
        end
      else None
  end.

(** The binary64 number nearest to [m * 10 ^ e], ties to even; a value
    too large becomes an infinity, as [float()] does it. *)
Definition of_decimal (neg : bool) (m e : Z) : spec_float :=
  match m with
  | Zpos p =>
      if 0 <=? e then binary_round prec emax neg (p * Z.to_pos (10 ^ e)) 0
      else
        let '(q, e', l) :=
          SFdiv_core_binary prec emax (Zpos p) 0 (10 ^ (- e)) 0 in
        binary_round_aux prec emax neg q e' l
  | _ => S754_zero neg
  end.

(** [float(s)] for a [str]; [None] stands for [ValueError], the only
    exception it raises on a string.  Digits and blanks outside ASCII,
    which CPython also accepts, are not covered: a text holding them is
    rejected here. *)
Definition float (s : string) : option spec_float :=
  match drop_underscores None (list_ascii_of_string s) with
  | None => None
  | Some l =>
      let '(neg, body) := take_sign (strip l) in
      let word := lower (string_of_list_ascii body) in
      if String.eqb word "inf" || String.eqb word "infinity"
      then Some (S754_infinity neg)
      else if String.eqb word "nan" then Some S754_nan
      else
        let '(ip, rest) := span_digits body in
        let '(fp, rest) :=
          match rest with
          | c :: rest' =>
              if Ascii.eqb c "." then span_digits rest' else ([], rest)
          | [] => ([], [])
          end in
        match ip ++ fp with
        | [] => None
        | ds =>
            match parse_exponent rest with
            | Some x => Some (of_decimal neg (digits_value ds) (x - len fp))
            | None => None
            end
        end
  end.

(** [int(x)] for a [float]: truncation towards zero; an infinity raises
    [OverflowError], a NaN raises [ValueError]. *)
Definition int (x : spec_float) : Result Z :=
  match x with
  | S754_zero _ => Ok 0
  | S754_finite neg m e =>
      let a := if 0 <=? e then Z.shiftl (Zpos m) e
               else Z.shiftr (Zpos m) (- e) in
      Ok (if neg then - a else a)
  | S754_infinity _ => Raise OverflowError
  | S754_nan => Raise ValueError
  end.

(** [sorted] on a list of [str]: ascending by code point, which on the
    UTF-8 bytes is the byte-wise lexicographic order. *)
Definition sorted (l : list string) : list string := merge_sort String.le l.

End Py.

(** ** Typed values *)

(** What a coerced field can be: the members of the tuple [process_row]
    returns. *)
Inductive PyValue : Type :=
| PyNone
| PyBool (b : bool)
| PyInt (n : Z)
| PyFloat (x : spec_float)
| PyStr (s : string).

#[global] Instance spec_float_eq_dec : EqDecision spec_float.
Proof. solve_decision. Defined.

#[global] Instance PyValue_eq_dec : EqDecision PyValue.
Proof. solve_decision. Defined.

Definition of_optional_str (v : option string) : PyValue :=
  match v with Some s => PyStr s | None => PyNone end.

Definition of_optional_bool (v : option bool) : PyValue :=
  match v with Some b => PyBool b | None => PyNone end.

Definition of_optional_int (v : option Z) : PyValue :=
  match v with Some n => PyInt n | None => PyNone end.

Definition of_optional_float (v : option spec_float) : PyValue :=
  match v with Some x => PyFloat x | None => PyNone end.

(** A typed row: one value per column, in schema order. *)
Abbreviation TypedRow := (list PyValue).

(** A record as [csv.DictReader] yields it: column name to field.  A field
    is [None] when the line was shorter than the header. *)
Abbreviation RawRecord := (gmap string (option string)).

(** [row.get(col_name, '')]. *)
Definition get (row : RawRecord) (col_name : string) : option string :=
  match row !! col_name with
  | Some field => field
  | None => Some ""
  end.

(** ** Value coercion (the same text in every script) *)

(** [value in (r'\N', '\\N', '')]: both literals denote the two characters
    backslash, N. *)
Definition clean_value (value : option string) : option string :=
  match value with
  | Some v =>
      if String.eqb v "\N" || String.eqb v "\N" || String.eqb v ""
      then None else Some v
  | None => None
  end.

Definition parse_boolean (value : option string) : option bool :=
  match value with
  | None => None
  | Some v =>
      if String.eqb v "" then None
      else if bool_decide (Py.lower v ∈ ["true"; "t"; "1"; "yes"]) then Some true
      else if bool_decide (Py.lower v ∈ ["false"; "f"; "0"; "no"]) then Some false
      else None
  end.

(** [except (ValueError, TypeError)]: every other exception leaves the
    function. *)
Definition parse_integer (value : option string) : Result (option Z) :=
  match value with
  | None => Ok None
  | Some v =>
      if String.eqb v "" then Ok None
      else
        match (match Py.float v with
               | Some x => Py.int x
               | None => Raise ValueError
               end) with
        | Ok n => Ok (Some n)
        | Raise ValueError | Raise TypeError => Ok None
        | Raise e => Raise e
        end
  end.

Definition parse_numeric (value : option string) : option spec_float :=
  match value with
  | None => None
  | Some v => if String.eqb v "" then None else Py.float v
  end.

(** ** Files *)

(** What [csv.DictReader] yields for one file, under the opener the script
    picks for its name: the records of the lines after the header, then
    either the end of the file or an exception raised while reading on. *)
Record CsvFile : Type := mkCsvFile {
  records : list RawRecord;
  failure : option Exn
}.

Inductive Node : Type :=
| RegularFile (content : CsvFile)
| Directory (entries : list string).   (* entry names, in [scandir] order *)

Abbreviation FileSystem := (gmap string Node).

(** [str(folder / name)] for a folder path in normal form. *)
Definition joinpath (folder name : string) : string :=
  (folder ++ "/" ++ name)%string.

(** [open(file_path, 'r', encoding='utf-8')] and
    [gzip.open(file_path, 'rt', encoding='utf-8')]. *)
Definition open_text (fs : FileSystem) (file_path : string) : Result CsvFile :=
  match fs !! file_path with
  | Some (RegularFile content) => Ok content
  | Some (Directory _) => Raise IsADirectoryError
  | None => Raise FileNotFoundError
  end.

Definition open_csv_file (fs : FileSystem) (file_path : string) : Result CsvFile :=
  if Py.endswith file_path ".gz"
  then open_text fs file_path
  else open_text fs file_path.

(** [folder.glob('*' + suffix)]: the entries of the folder whose name ends
    with [suffix]; nothing when the path is not a directory. *)
Definition glob (fs : FileSystem) (folder suffix : string) : list string :=
  match fs !! folder with
  | Some (Directory entries) =>
      map (joinpath folder)
          (filter (fun name => Is_true (Py.endswith name suffix)) entries)
  | _ => []
  end.

Definition get_csv_files (fs : FileSystem) (folder_path : string)
  : Result (list string) :=
  match fs !! folder_path with
  | None => Raise FileNotFoundError
  | Some _ =>
      let csv_files := [] in
      let csv_files := csv_files ++ glob fs folder_path ".csv" in
      let csv_files := csv_files ++ glob fs folder_path ".csv.gz" in
      Ok (Py.sorted csv_files)
  end.

(** ** The PostgreSQL connection *)

Inductive Predicate : Type :=
| IS_NULL (col : string)                    (* col IS NULL *)
| EQUALS (col : string) (value : PyValue).  (* col = %s, with its bound value *)

(** The statements the scripts send.  All of them name the one table
    [TABLE_NAME] of the script. *)
Inductive Statement : Type :=
| DROP_TABLE_IF_EXISTS
| CREATE_TABLE (columns : list (string * string))
| INSERT (columns : list string) (batch : list TypedRow)  (* one [execute_batch] *)
| SELECT_1_WHERE (where_sql : list Predicate)             (* ... LIMIT 1 *)
| CREATE_INDEX_IF_NOT_EXISTS (idx_name col_name : string)
| SELECT_COUNT
| SELECT_SIZE
| COMMIT
| ROLLBACK.

Record Table : Type := mkTable {
  columns : list string;
  rows : list TypedRow
}.

(** One connection with its cursor.  [durable] is the committed table
    ([None]: no such table), [working] the table as the open transaction
    sees it, [aborted] tells that a statement failed in the open
    transaction, [accepts] is the server's final check of a row (a text
    that is no DATE, an integer out of range), [fetched] holds the rows
    the last statement returned, [history] every statement sent, oldest
    first, with the exception it raised if any. *)
Record DB : Type := mkDB {
  durable : option Table;
  working : option Table;
  aborted : bool;
  accepts : TypedRow -> bool;
  fetched : list TypedRow;
  history : list (Statement * option Exn)
}.

Definition column_of (p : Predicate) : string :=
  match p with IS_NULL col => col | EQUALS col _ => col end.

(** The value of column [col] in a stored row. *)
Definition field (t : Table) (row : TypedRow) (col : string) : PyValue :=
  match list_find (fun c => c = col) (columns t) with
  | Some (i, _) => default PyNone (row !! i)
  | None => PyNone
  end.

(** SQL truth of one predicate on a row: [NULL = v] is not true. *)
Definition holds (t : Table) (row : TypedRow) (p : Predicate) : bool :=
  match p with
  | IS_NULL col => bool_decide (field t row col = PyNone)
  | EQUALS col value =>
      bool_decide (field t row col ≠ PyNone) &&
      bool_decide (field t row col = value)
  end.

Definition satisfies (t : Table) (where_sql : list Predicate) (row : TypedRow) : bool :=
  forallb (holds t row) where_sql.

(** What a statement does inside a healthy transaction: the new view of
    the table and the rows returned, or the error of the server.  An empty
    column list or WHERE clause is no SQL; a column may be named once.  The
    columns the server fills by itself ([id], [created_at]) are left out
    of the stored rows. *)
Definition effect (db : DB) (stmt : Statement)
  : Result (option Table * list TypedRow) :=
  match stmt, working db with
  | DROP_TABLE_IF_EXISTS, _ => Ok (None, [])
  | CREATE_TABLE [], _ => Raise SyntaxError
  | CREATE_TABLE _, Some _ => Raise DuplicateTable
  | CREATE_TABLE cols, None =>
      if bool_decide (NoDup (cols.*1))
      then Ok (Some (mkTable (cols.*1) []), [])
      else Raise DuplicateColumn
  | INSERT [] _, _ => Raise SyntaxError
  | SELECT_1_WHERE [], _ => Raise SyntaxError
  | (COMMIT | ROLLBACK), w => Ok (w, [])
  | _, None => Raise UndefinedTable
  | INSERT cols batch, Some t =>
      if negb (bool_decide (NoDup cols)) then Raise DuplicateColumn
      else if negb (bool_decide (cols = columns t)) then Raise UndefinedColumn
      else if forallb (accepts db) batch
      then Ok (Some (mkTable (columns t) (rows t ++ batch)), [])
      else Raise DataError
  | SELECT_1_WHERE where_sql, Some t =>
      if forallb (fun p => bool_decide (column_of p ∈ columns t)) where_sql
      then Ok (Some t, take 1 (map (fun _ => [PyInt 1])
                                   (filter (fun row => Is_true (satisfies t where_sql row))
                                           (rows t))))
      else Raise UndefinedColumn
  | CREATE_INDEX_IF_NOT_EXISTS _ col_name, Some t =>
      if bool_decide (col_name ∈ columns t) then Ok (Some t, [])
      else Raise UndefinedColumn
  | SELECT_COUNT, Some t => Ok (Some t, [[PyInt (Py.len (rows t))]])
  | SELECT_SIZE, Some t => Ok (Some t, [[PyStr "size"]])
  end.

(** [cursor.execute(statement)] and [execute_batch(cursor, insert, batch)].
    In a failed transaction every statement raises; a statement that
    raises leaves the transaction failed. *)
Definition execute (cursor : DB) (stmt : Statement) : Result unit * DB :=
  let result :=
    if aborted cursor then Raise InFailedSqlTransaction else effect cursor stmt in
  match result with
  | Ok (w, returned) =>
      (Ok tt, mkDB (durable cursor) w false (accepts cursor) returned
                   (history cursor ++ [(stmt, None)]))
  | Raise e =>
      (Raise e, mkDB (durable cursor) (working cursor) true (accepts cursor) []
                     (history cursor ++ [(stmt, Some e)]))
  end.

Definition execute_batch (cursor : DB) (insert_columns : list string)
    (batch : list TypedRow) : Result unit * DB :=
  execute cursor (INSERT insert_columns batch).

(** [cursor.fetchone()]. *)
Definition fetchone (cursor : DB) : option TypedRow * DB :=
  match fetched cursor with
  | row :: rest =>
      (Some row, mkDB (durable cursor) (working cursor) (aborted cursor)
                      (accepts cursor) rest (history cursor))
  | [] => (None, cursor)
  end.

(** [connection.commit()]: COMMIT in a failed transaction rolls back. *)
Definition commit (connection : DB) : DB :=
  if aborted connection
  then mkDB (durable connection) (durable connection) false (accepts connection)
            (fetched connection) (history connection ++ [(COMMIT, None)])
  else mkDB (working connection) (working connection) false (accepts connection)
            (fetched connection) (history connection ++ [(COMMIT, None)]).

(** [connection.rollback()]. *)
Definition rollback (connection : DB) : DB :=
  mkDB (durable connection) (durable connection) false (accepts connection)
       (fetched connection) (history connection ++ [(ROLLBACK, None)]).

(** [psycopg2.connect(...)] to the server a former connection left behind,
    and [connection.close()]: work that was not committed is lost. *)
Definition connect (server : DB) : DB :=
  mkDB (durable server) (durable server) false (accepts server) [] (history server).

Definition close (connection : DB) : DB :=
  mkDB (durable connection) (durable connection) false (accepts connection) []
       (history connection).

(** The batches of the [execute_batch] calls in a history, in call order:
    all of them, and those that returned. *)
Definition insert_of (entry : Statement * option Exn) : option (list TypedRow) :=
  match entry with (INSERT _ batch, _) => Some batch | _ => None end.

Definition completed_insert_of (entry : Statement * option Exn)
  : option (list TypedRow) :=
  match entry with (INSERT _ batch, None) => Some batch | _ => None end.

Definition attempted (h : list (Statement * option Exn)) : list (list TypedRow) :=
  omap insert_of h.

Definition completed (h : list (Statement * option Exn)) : list (list TypedRow) :=
  omap completed_insert_of h.

(** The part of the history a call added. *)
Definition since (before after : DB) : list (Statement * option Exn) :=
  drop (length (history before)) (history after).

(** ** The loaders *)

(** The lines the scripts log about the fate of a file. *)
Inductive LogRecord : Type :=
| Skipping (csv_file : string)                    (* Already imported, skipping. *)
| Imported (csv_file : string) (rows_imported : Z)   (* +n rows *)
| Failed (csv_file : string) (e : Exn).           (* Failed to process ... *)

(** [mapM] over the columns of a schema: the loop of [process_row], which
    stops at the first exception. *)
Fixpoint for_columns (f : string -> string -> Result PyValue)
    (COLUMN_DEFINITIONS : list (string * string)) (processed : list PyValue)
  : Result TypedRow :=
  match COLUMN_DEFINITIONS with
  | [] => Ok processed
  | (col_name, col_type) :: more =>
      match f col_name col_type with
      | Ok v => for_columns f more (processed ++ [v])
      | Raise e => Raise e
      end
  end.

(** [[col_name for col_name, _ in COLUMN_DEFINITIONS]]. *)
Definition column_names (COLUMN_DEFINITIONS : list (string * string)) : list string :=
  COLUMN_DEFINITIONS.*1.

(** The text the scripts share, over the [process_row] and the schema of
    the script at hand. *)
Module Loader.
Section Script.

Variable COLUMN_DEFINITIONS : list (string * string).
Variable process_row : RawRecord -> Result TypedRow.

(** The local variables of [import_csv_data] next to the cursor. *)
Record Frame : Type := mkFrame {
  total_rows : Z;
  batch : list TypedRow;
  db : DB
}.

(** One turn of [for row in reader]: both failures end in [continue].
    When [execute_batch] raises, [batch] already holds the new row. *)
Definition import_row (batch_size : Z) (st : Frame) (row : RawRecord) : Frame :=
  match process_row row with
  | Raise _ => st
  | Ok processed_row =>
      let batch := batch st ++ [processed_row] in
      if Py.len batch >=? batch_size then
        match execute_batch (db st) (column_names COLUMN_DEFINITIONS) batch with
        | (Ok _, cursor) => mkFrame (total_rows st + Py.len batch) [] cursor
        | (Raise _, cursor) => mkFrame (total_rows st) batch cursor
        end
      else mkFrame (total_rows st) batch (db st)
  end.

Definition import_rows (batch_size : Z) (st : Frame) (reader : list RawRecord)
  : Frame :=
  fold_left (import_row batch_size) reader st.

(** [if batch:] after the loop; an exception here leaves the function. *)
Definition insert_remaining_rows (st : Frame) : Result Z * DB :=
  match batch st with
  | [] => (Ok (total_rows st), db st)
  | batch =>
      match execute_batch (db st) (column_names COLUMN_DEFINITIONS) batch with
      | (Ok _, cursor) => (Ok (total_rows st + Py.len batch), cursor)
      | (Raise e, cursor) => (Raise e, cursor)
      end
  end.

Definition import_csv_data (fs : FileSystem) (cursor : DB)
    (csv_file_path : string) (batch_size : Z) : Result Z * DB :=
  match open_csv_file fs csv_file_path with
  | Raise e => (Raise e, cursor)
  | Ok csvfile =>
      let st := import_rows batch_size (mkFrame 0 [] cursor) (records csvfile) in
      match failure csvfile with
      | Some e => (Raise e, db st)
      | None => insert_remaining_rows st
      end
  end.

End Script.

(** The local variables of [import_multiple_files] next to the cursor,
    and what it logged. *)
Record Run : Type := mkRun {
  run_total : Z;
  run_log : list LogRecord;
  run_cursor : DB
}.

End Loader.

(** ** [import_csv_to_postgres.py] *)

Module Csv.

Definition TABLE_NAME : string := "releases_org_export".

Definition COLUMN_DEFINITIONS : list (string * string) :=
[
  ("ABOUT_US", "TEXT");
  ("CATEGORY_CRUNCHBASE", "TEXT");
  ("CATEGORY_G2", "TEXT");
  ("COMPANY_ENTITY_TYPE", "TEXT");
  ("COMPANY_LEGAL_TYPE", "TEXT");
  ("COMPANY_NAME", "TEXT");
  ("COMPANY_NAME_LANGUAGE", "TEXT");
  ("EMPLOYEE_COUNT_MAX", "INTEGER");
  ("EMPLOYEE_COUNT_MIN", "INTEGER");
  ("EMPLOYEE_COUNT_RANGE", "TEXT");
  ("EMPLOYEE_PROFILES_ON_LINKEDIN", "INTEGER");
  ("FOUNDED", "INTEGER");
  ("HEADQUARTERS_CITY", "TEXT");
  ("HEADQUARTERS_COUNTRY_CODE", "TEXT");
  ("HEADQUARTERS_COUNTRY_NAME", "TEXT");
  ("HEADQUARTERS_COUNTRY_REGION", "TEXT");
  ("HEADQUARTERS_CONTINENT", "TEXT");
  ("HEADQUARTERS_POSTCODE", "TEXT");
  ("HEADQUARTERS_STATE_CODE", "TEXT");
  ("HEADQUARTERS_STATE_NAME", "TEXT");
  ("HEADQUARTERS_STREET", "TEXT");
  ("INDUSTRY_LINKEDIN", "TEXT");
  ("INDUSTRY_SIC_CODE", "TEXT");
  ("INDUSTRY_SIC_DESCRIPTION", "TEXT");
  ("INDUSTRY_NAICS_CODE", "TEXT");
  ("INDUSTRY_NAICS_DESCRIPTION", "TEXT");
  ("INDUSTRY_NAICS_2022_CODE", "TEXT");
  ("INDUSTRY_NAICS_2022_DESCRIPTION", "TEXT");
  ("PREDICTED_INDUSTRY_NAICS_2022_CODE", "TEXT");
  ("PREDICTED_INDUSTRY_NAICS_2022_DESCRIPTION", "TEXT");
  ("INDUSTRY_UK_STANDARD_2007_CODE", "TEXT");
  ("INDUSTRY_UK_STANDARD_2007_DESCRIPTION", "TEXT");
  ("IS_LINKEDIN_URL_CLAIMED", "BOOLEAN");
  ("LINKEDIN_FOLLOWERS", "INTEGER");
  ("LINKEDIN_URL", "TEXT");
  ("LINKEDIN_URL_ID", "NUMERIC");
  ("LOCATION_CITY", "TEXT");
  ("LOCATION_COUNT", "INTEGER");
  ("LOCATION_COUNTRY_CODE", "TEXT");
  ("LOCATION_COUNTRY_NAME", "TEXT");
  ("LOCATION_COUNTRY_REGION", "TEXT");
  ("LOCATION_CONTINENT", "TEXT");
  ("LOCATION_IS_PRIMARY", "BOOLEAN");
  ("LOCATION_POSTCODE", "TEXT");
  ("LOCATION_STATE_CODE", "TEXT");
  ("LOCATION_STATE_NAME", "TEXT");
  ("LOCATION_STREET", "TEXT");
  ("PHONE", "TEXT");
  ("RBID", "TEXT");
  ("REVENUE_MAX", "NUMERIC");
  ("REVENUE_MIN", "NUMERIC");
  ("REVENUE_RANGE", "TEXT");
  ("SPECIALTIES", "TEXT");
  ("UPDATED_AT", "DATE");
  ("DOMAIN", "TEXT");
  ("DOMAIN_TLD", "TEXT");
  ("WEBSITE", "TEXT");
  ("IS_WEBSITE_WORKING", "BOOLEAN");
  ("IS_WEBSITE_FOR_SALE", "BOOLEAN")
].

Definition indexes : list (string * string) :=
  [ ("idx_company_name", "COMPANY_NAME");
    ("idx_domain", "DOMAIN");
    ("idx_linkedin_url_id", "LINKEDIN_URL_ID");
    ("idx_rbid", "RBID");
    ("idx_country_code", "HEADQUARTERS_COUNTRY_CODE");
    ("idx_updated_at", "UPDATED_AT") ].

(** The functions below take the schema as their first argument; the
    script's own are their instances at [COLUMN_DEFINITIONS]. *)

(** The body of the loop of [process_row] for one column: the field is
    cleaned, then parsed by the declared type. *)
Definition coerce (col_type : string) (raw : option string) : Result PyValue :=
  let value := clean_value raw in
  if String.eqb col_type "BOOLEAN" then Ok (of_optional_bool (parse_boolean value))
  else if String.eqb col_type "INTEGER" then
    match parse_integer value with
    | Ok n => Ok (of_optional_int n)
    | Raise e => Raise e
    end
  else if String.eqb col_type "NUMERIC" then
    Ok (of_optional_float (parse_numeric value))
  else if String.eqb col_type "DATE" then Ok (of_optional_str value)
  else Ok (of_optional_str value).

Definition process_row (schema : list (string * string)) (row : RawRecord)
  : Result TypedRow :=
  for_columns (fun col_name col_type => coerce col_type (get row col_name))
              schema [].

Definition create_table (schema : list (string * string)) (cursor : DB)
  : Result unit * DB :=
  match execute cursor DROP_TABLE_IF_EXISTS with
  | (Raise e, cursor) => (Raise e, cursor)
  | (Ok _, cursor) => execute cursor (CREATE_TABLE schema)
  end.

Definition import_csv_data (schema : list (string * string)) :=
  Loader.import_csv_data schema (process_row schema).

(** One turn of the loop of [import_multiple_csv_files]. *)
Definition import_file (schema : list (string * string)) (fs : FileSystem)
    (batch_size : Z) (run : Loader.Run) (csv_file : string) : Loader.Run :=
  match import_csv_data schema fs (Loader.run_cursor run) csv_file batch_size with
  | (Ok rows_imported, cursor) =>
      Loader.mkRun (Loader.run_total run + rows_imported)
                   (Loader.run_log run ++ [Imported csv_file rows_imported])
                   (commit cursor)
  | (Raise e, cursor) =>
      Loader.mkRun (Loader.run_total run)
                   (Loader.run_log run ++ [Failed csv_file e])
                   cursor
  end.

Definition import_multiple_csv_files (schema : list (string * string))
    (fs : FileSystem) (cursor : DB) (csv_files : list string) (batch_size : Z)
  : Loader.Run :=
  fold_left (import_file schema fs batch_size) csv_files
            (Loader.mkRun 0 [] cursor).

(** Every failure is logged and the loop goes on. *)
Definition create_indexes (indexes : list (string * string)) (cursor : DB) : DB :=
  fold_left
    (fun cursor '(idx_name, col_name) =>
       snd (execute cursor (CREATE_INDEX_IF_NOT_EXISTS idx_name col_name)))
    indexes cursor.

(** The statistics at the end of [main]. *)
Definition final_statistics (cursor : DB) : Result unit * DB :=
  match execute cursor SELECT_COUNT with
  | (Raise e, cursor) => (Raise e, cursor)
  | (Ok _, cursor) =>
      match fetchone cursor with
      | (None, cursor) => (Raise TypeError, cursor)
      | (Some _, cursor) =>
          match execute cursor SELECT_SIZE with
          | (Raise e, cursor) => (Raise e, cursor)
          | (Ok _, cursor) =>
              match fetchone cursor with
              | (None, cursor) => (Raise TypeError, cursor)
              | (Some _, cursor) => (Ok tt, cursor)
              end
          end
      end
  end.

(** [main]: the exit status of the process, what the import logged, and
    the server it leaves.  Every [except] clause rolls back and exits
    with 1; [finally] closes the connection. *)
Definition main (schema : list (string * string)) (indexes : list (string * string))
    (fs : FileSystem) (CSV_FILE_PATH : option string) (CSV_FOLDER_PATH : string)
    (server : DB) : Z * list LogRecord * DB :=
  let connection := connect server in
  match create_table schema connection with
  | (Raise _, connection) => (1, [], close (rollback connection))
  | (Ok _, connection) =>
      let connection := commit connection in
      let '(imported, connection) :=
        match CSV_FILE_PATH with
        | Some (String _ _ as path) =>
            match import_csv_data schema fs connection path 1000 with
            | (Ok _, connection) => (inl (Ok []), commit connection)
            | (Raise e, connection) => (inl (Raise e), connection)
            end
        | _ =>
            match get_csv_files fs CSV_FOLDER_PATH with
            | Raise e => (inl (Raise e), connection)
            | Ok [] => (inr 1, connection)           (* sys.exit(1) *)
            | Ok csv_files =>
                let run := import_multiple_csv_files schema fs connection
                                                     csv_files 1000 in
                (inl (Ok (Loader.run_log run)), Loader.run_cursor run)
            end
        end in
      match imported with
      | inr status => (status, [], close connection)
      | inl (Raise _) => (1, [], close (rollback connection))
      | inl (Ok log) =>
          let connection := commit (create_indexes indexes connection) in
          match final_statistics connection with
          | (Raise _, connection) => (1, log, close (rollback connection))
          | (Ok _, connection) => (0, log, close connection)
          end
      end
  end.

End Csv.

(** ** [import_per_to_postgres.py] *)

Module Per.

Definition TABLE_NAME : string := "releases_per_export".

Definition COLUMN_DEFINITIONS : list (string * string) :=
[
  ("LINKEDIN_URL", "TEXT");
  ("ABOUT_ME", "TEXT");
  ("CELLPHONE", "TEXT");
  ("CITY", "TEXT");
  ("COUNTRY_CODE", "TEXT");
  ("COUNTRY_NAME", "TEXT");
  ("COUNTRY_REGION", "TEXT");
  ("CONTINENT", "TEXT");
  ("DIRECT_PHONE", "TEXT");
  ("EDUCATION", "TEXT");
  ("FIRST_NAME", "TEXT");
  ("FULL_NAME", "TEXT");
  ("INTERESTS", "TEXT");
  ("JOB_COUNT", "INTEGER");
  ("JOB_DESCRIPTION", "TEXT");
  ("JOB_END_DATE", "TEXT");
  ("JOB_IS_CURRENT", "BOOLEAN");
  ("JOB_LEVEL", "TEXT");
  ("JOB_LOCATION_CITY", "TEXT");
  ("JOB_LOCATION_COUNTRY", "TEXT");
  ("JOB_LOCATION_COUNTRY_CODE", "TEXT");
  ("JOB_LOCATION_COUNTRY_REGION", "TEXT");
  ("JOB_LOCATION_CONTINENT", "TEXT");
  ("JOB_LOCATION_STATE", "TEXT");
  ("JOB_LOCATION_STATE_CODE", "TEXT");
  ("JOB_START_DATE", "TEXT");
  ("JOB_ORDER_IN_PROFILE", "INTEGER");
  ("JOB_ORG_LINKEDIN_URL", "TEXT");
  ("JOB_TITLE", "TEXT");
  ("JOB_FUNCTION", "TEXT");
  ("LANGUAGES", "TEXT");
  ("LAST_NAME", "TEXT");
  ("LINKEDIN_CONNECTIONS_COUNT", "INTEGER");
  ("LINKEDIN_HEADLINE", "TEXT");
  ("LINKEDIN_INDUSTRY", "TEXT");
  ("MIDDLE_NAME", "TEXT");
  ("NICKNAME_NAME", "TEXT");
  ("RBID", "TEXT");
  ("RBID_ORG", "TEXT");
  ("RBID_PAO", "TEXT");
  ("SKILLS", "TEXT");
  ("CERTIFICATIONS", "TEXT");
  ("PATENTS", "TEXT");
  ("PUBLICATIONS", "TEXT");
  ("WEBSITES", "TEXT");
  ("STATE_CODE", "TEXT");
  ("STATE_NAME", "TEXT");
  ("SUFFIX_NAME", "TEXT");
  ("TITLE_NAME", "TEXT");
  ("EMAIL_DOMAIN", "TEXT");
  ("UPDATED_AT", "TIMESTAMP");
  ("RN", "INTEGER");
  ("EMAIL_STATUS", "TEXT");
  ("EMAIL_ADDRESS", "TEXT");
  ("EMAIL_LAST_VERIFIED_AT", "TIMESTAMP");
  ("PERSONA", "TEXT")
].

Definition indexes : list (string * string) :=
  [ ("idx_per_rbid", "RBID");
    ("idx_per_rbid_org", "RBID_ORG");
    ("idx_per_rbid_pao", "RBID_PAO");
    ("idx_per_full_name", "FULL_NAME");
    ("idx_per_email", "EMAIL_ADDRESS");
    ("idx_per_linkedin_url", "LINKEDIN_URL") ].

(** The body of the loop of [process_row] for one column.  This script
    has no NUMERIC branch. *)
Definition coerce (col_type : string) (raw : option string) : Result PyValue :=
  let value := clean_value raw in
  if String.eqb col_type "BOOLEAN" then Ok (of_optional_bool (parse_boolean value))
  else if String.eqb col_type "INTEGER" then
    match parse_integer value with
    | Ok n => Ok (of_optional_int n)
    | Raise e => Raise e
    end
  else if bool_decide (col_type ∈ ["TIMESTAMP"; "DATE"]) then
    Ok (of_optional_str value)
  else Ok (of_optional_str value).

Definition process_row (schema : list (string * string)) (row : RawRecord)
  : Result TypedRow :=
  for_columns (fun col_name col_type => coerce col_type (get row col_name))
              schema [].

(** The DROP statement is commented out in this script. *)
Definition create_table (schema : list (string * string)) (cursor : DB)
  : Result unit * DB :=
  execute cursor (CREATE_TABLE schema).

(** [for i, value in enumerate(processed_row)]: one piece per value,
    with the column at the same index. *)
Fixpoint where_clause_pieces (columns : list string) (i : nat)
    (processed_row : TypedRow) : Result (list Predicate) :=
  match processed_row with
  | [] => Ok []
  | value :: more =>
      match columns !! i with
      | None => Raise IndexError
      | Some col =>
          let piece := match value with
                       | PyNone => IS_NULL col
                       | _ => EQUALS col value
                       end in
          match where_clause_pieces columns (S i) more with
          | Ok pieces => Ok (piece :: pieces)
          | Raise e => Raise e
          end
      end
  end.

(** Every exception inside the [try] ends in [return False]; so does a
    reader that yields nothing. *)
Definition is_csv_file_imported (schema : list (string * string))
    (fs : FileSystem) (cursor : DB) (csv_file_path : string) : bool * DB :=
  let columns := column_names schema in
  match open_csv_file fs csv_file_path with
  | Raise _ => (false, cursor)
  | Ok csvfile =>
      match records csvfile with
      | row :: _ =>
          match process_row schema row with
          | Raise _ => (false, cursor)
          | Ok processed_row =>
              match where_clause_pieces columns 0 processed_row with
              | Raise _ => (false, cursor)
              | Ok where_sql =>
                  match execute cursor (SELECT_1_WHERE where_sql) with
                  | (Raise _, cursor) => (false, cursor)
                  | (Ok _, cursor) =>
                      match fetchone cursor with
                      | (Some _, cursor) => (true, cursor)
                      | (None, cursor) => (false, cursor)
                      end
                  end
              end
          end
      | [] =>
          match failure csvfile with
          | Some _ => (false, cursor)     (* the reader raised *)
          | None => (false, cursor)       (* the file is empty *)
          end
      end
  end.

Definition import_csv_data (schema : list (string * string)) :=
  Loader.import_csv_data schema (process_row schema).

(** One turn of the loop of [import_multiple_files]. *)
Definition import_file (schema : list (string * string)) (fs : FileSystem)
    (batch_size : Z) (run : Loader.Run) (csv_file : string) : Loader.Run :=
  match is_csv_file_imported schema fs (Loader.run_cursor run) csv_file with
  | (true, cursor) =>
      Loader.mkRun (Loader.run_total run)
                   (Loader.run_log run ++ [Skipping csv_file])
                   cursor
  | (false, cursor) =>
      match import_csv_data schema fs cursor csv_file batch_size with
      | (Ok rows_imported, cursor) =>
          Loader.mkRun (Loader.run_total run + rows_imported)
                       (Loader.run_log run ++ [Imported csv_file rows_imported])
                       (commit cursor)
      | (Raise e, cursor) =>
          Loader.mkRun (Loader.run_total run)
                       (Loader.run_log run ++ [Failed csv_file e])
                       cursor
      end
  end.

Definition import_multiple_files (schema : list (string * string))
    (fs : FileSystem) (cursor : DB) (csv_files : list string) (batch_size : Z)
  : Loader.Run :=
  fold_left (import_file schema fs batch_size) csv_files
            (Loader.mkRun 0 [] cursor).

Definition create_indexes := Csv.create_indexes.

Definition final_statistics := Csv.final_statistics.

(** [main]: the exit status of the process, what the import logged, and
    the server it leaves. *)
Definition main (schema : list (string * string)) (indexes : list (string * string))
    (fs : FileSystem) (CSV_FOLDER_PATH : string) (server : DB)
  : Z * list LogRecord * DB :=
  let connection := connect server in
  match create_table schema connection with
  | (Raise _, connection) => (1, [], close (rollback connection))
  | (Ok _, connection) =>
      let connection := commit connection in
      match get_csv_files fs CSV_FOLDER_PATH with
      | Raise _ => (1, [], close (rollback connection))
      | Ok [] => (1, [], close connection)             (* sys.exit(1) *)
      | Ok csv_files =>
          let run := import_multiple_files schema fs connection csv_files 1000 in
          let log := Loader.run_log run in
          let connection :=
            commit (create_indexes indexes (Loader.run_cursor run)) in
          match final_statistics connection with
          | (Raise _, connection) => (1, log, close (rollback connection))
          | (Ok _, connection) => (0, log, close connection)
          end
      end
  end.

End Per.

(** ** [import_org_to_postgres.py] *)

(** This script is [import_csv_to_postgres.py] without its single-file
    mode: the same schema, entry by entry, the same coercers and loops;
    its own indexes. *)
Module Org.

Definition TABLE_NAME : string := "releases_org_export".

Definition COLUMN_DEFINITIONS : list (string * string) := Csv.COLUMN_DEFINITIONS.

Definition indexes : list (string * string) :=
  [ ("idx_org_company_name", "COMPANY_NAME");
    ("idx_org_domain", "DOMAIN");
    ("idx_org_rbid", "RBID");
    ("idx_org_country_code", "HEADQUARTERS_COUNTRY_CODE") ].

Definition coerce := Csv.coerce.

Definition process_row := Csv.process_row.

Definition create_table := Csv.create_table.

Definition import_csv_data := Csv.import_csv_data.

Definition import_multiple_files := Csv.import_multiple_csv_files.

Definition create_indexes := Csv.create_indexes.

Definition final_statistics := Csv.final_statistics.

Definition main (schema : list (string * string)) (indexes : list (string * string))
    (fs : FileSystem) (CSV_FOLDER_PATH : string) (server : DB)
  : Z * list LogRecord * DB :=
  let connection := connect server in
  match create_table schema connection with
  | (Raise _, connection) => (1, [], close (rollback connection))
  | (Ok _, connection) =>
      let connection := commit connection in
      match get_csv_files fs CSV_FOLDER_PATH with
      | Raise _ => (1, [], close (rollback connection))
      | Ok [] => (1, [], close connection)             (* sys.exit(1) *)
      | Ok csv_files =>
          let run := import_multiple_files schema fs connection csv_files 1000 in
          let log := Loader.run_log run in
          let connection :=
            commit (create_indexes indexes (Loader.run_cursor run)) in
          match final_statistics connection with
          | (Raise _, connection) => (1, log, close (rollback connection))
          | (Ok _, connection) => (0, log, close connection)
          end
      end
  end.

End Org.

(** ** [import_raw_feed_per_to_postgres.py] *)

Module RawFeed.

Definition TABLE_NAME : string := "releases_raw_feed_per_export".

Definition COLUMN_DEFINITIONS : list (string * string) :=
[
  ("RBID", "TEXT");
  ("RBID_ORG", "TEXT");
  ("RBID_PAO", "TEXT");
  ("RBUUID", "TEXT");
  ("CREATED_AT", "DATE");
  ("UPDATED_AT", "DATE");
  ("FULL_NAME", "TEXT");
  ("TITLE_NAME", "TEXT");
  ("FIRST_NAME", "TEXT");
  ("MIDDLE_NAME", "TEXT");
  ("LAST_NAME", "TEXT");
  ("SUFFIX_NAME", "TEXT");
  ("NICKNAME_NAME", "TEXT");
  ("LINKEDIN_CONNECTIONS_COUNT", "INTEGER");
  ("ABOUT_ME", "TEXT");
  ("EDUCATION", "TEXT");
  ("LINKEDIN_HEADLINE", "TEXT");
  ("LINKEDIN_URL", "TEXT");
  ("LINKEDIN_URL_SLUG", "TEXT");
  ("LINKEDIN_INDUSTRY", "TEXT");
  ("CITY", "TEXT");
  ("STATE_NAME", "TEXT");
  ("STATE_CODE", "TEXT");
  ("COUNTRY_NAME", "TEXT");
  ("COUNTRY_CODE", "TEXT");
  ("COUNTRY_REGION", "TEXT");
  ("CONTINENT", "TEXT");
  ("RBUUID_ORG", "TEXT");
  ("JOB_IS_CURRENT", "BOOLEAN");
  ("JOB_COUNT", "INTEGER");
  ("JOB_TITLE", "TEXT");
  ("JOB_LEVEL", "TEXT");
  ("JOB_FUNCTION", "TEXT");
  ("JOB_DESCRIPTION", "TEXT");
  ("JOB_START_DATE", "TEXT");
  ("JOB_END_DATE", "TEXT");
  ("JOB_LOCATION_CITY", "TEXT");
  ("JOB_LOCATION_STATE", "TEXT");
  ("JOB_LOCATION_STATE_CODE", "TEXT");
  ("JOB_LOCATION_COUNTRY", "TEXT");
  ("JOB_LOCATION_COUNTRY_CODE", "TEXT");
  ("JOB_LOCATION_COUNTRY_REGION", "TEXT");
  ("JOB_LOCATION_CONTINENT", "TEXT");
  ("JOB_ORDER_IN_PROFILE", "INTEGER");
  ("JOB_ORG_LINKEDIN_URL", "TEXT");
  ("JOB_ORG_NAME", "TEXT");
  ("IS_MEMORIALIZED_PERSON", "BOOLEAN");
  ("LINKEDIN_NUM_ID", "TEXT")
].

Definition indexes : list (string * string) :=
  [ ("idx_raw_rbid", "RBID");
    ("idx_raw_rbid_org", "RBID_ORG");
    ("idx_raw_rbid_pao", "RBID_PAO");
    ("idx_raw_rbuuid", "RBUUID");
    ("idx_raw_linkedin_url", "LINKEDIN_URL");
    ("idx_raw_linkedin_num_id", "LINKEDIN_NUM_ID") ].

(** The body of the loop of [process_row] for one column; no NUMERIC
    branch. *)
Definition coerce (col_type : string) (raw : option string) : Result PyValue :=
  let value := clean_value raw in
  if String.eqb col_type "BOOLEAN" then Ok (of_optional_bool (parse_boolean value))
  else if String.eqb col_type "INTEGER" then
    match parse_integer value with
    | Ok n => Ok (of_optional_int n)
    | Raise e => Raise e
    end
  else if bool_decide (col_type ∈ ["DATE"; "TIMESTAMP"]) then
    Ok (of_optional_str value)
  else Ok (of_optional_str value).

Definition process_row (schema : list (string * string)) (row : RawRecord)
  : Result TypedRow :=
  for_columns (fun col_name col_type => coerce col_type (get row col_name))
              schema [].

(** DROP, then CREATE; the column the server stamps is named
    [import_timestamp] here. *)
Definition create_table (schema : list (string * string)) (cursor : DB)
  : Result unit * DB :=
  match execute cursor DROP_TABLE_IF_EXISTS with
  | (Raise e, cursor) => (Raise e, cursor)
  | (Ok _, cursor) => execute cursor (CREATE_TABLE schema)
  end.

Definition import_csv_data (schema : list (string * string)) :=
  Loader.import_csv_data schema (process_row schema).

(** One turn of the loop of [import_multiple_files]. *)
Definition import_file (schema : list (string * string)) (fs : FileSystem)
    (batch_size : Z) (run : Loader.Run) (csv_file : string) : Loader.Run :=
  match import_csv_data schema fs (Loader.run_cursor run) csv_file batch_size with
  | (Ok rows_imported, cursor) =>
      Loader.mkRun (Loader.run_total run + rows_imported)
                   (Loader.run_log run ++ [Imported csv_file rows_imported])
                   (commit cursor)
  | (Raise e, cursor) =>
      Loader.mkRun (Loader.run_total run)
                   (Loader.run_log run ++ [Failed csv_file e])
                   cursor
  end.

Definition import_multiple_files (schema : list (string * string))
    (fs : FileSystem) (cursor : DB) (csv_files : list string) (batch_size : Z)
  : Loader.Run :=
  fold_left (import_file schema fs batch_size) csv_files
            (Loader.mkRun 0 [] cursor).

Definition create_indexes := Csv.create_indexes.

Definition final_statistics := Csv.final_statistics.

Definition main (schema : list (string * string)) (indexes : list (string * string))
    (fs : FileSystem) (CSV_FOLDER_PATH : string) (server : DB)
  : Z * list LogRecord * DB :=
  let connection := connect server in
  match create_table schema connection with
  | (Raise _, connection) => (1, [], close (rollback connection))
  | (Ok _, connection) =>
      let connection := commit connection in
      match get_csv_files fs CSV_FOLDER_PATH with
      | Raise _ => (1, [], close (rollback connection))
      | Ok [] => (1, [], close connection)             (* sys.exit(1) *)
      | Ok csv_files =>
          let run := import_multiple_files schema fs connection csv_files 1000 in
          let log := Loader.run_log run in
          let connection :=
            commit (create_indexes indexes (Loader.run_cursor run)) in
          match final_statistics connection with
          | (Raise _, connection) => (1, log, close (rollback connection))
          | (Ok _, connection) => (0, log, close connection)
          end
      end
  end.

End RawFeed.

(** ** The folder each script reads *)

(** [os.getenv] over the environment as [dotenv.load_dotenv()] leaves it,
    and [os.path.join] of POSIX for two arguments; joining onto [None]
    raises TypeError. *)
Module Os.

Definition getenv (environ : gmap string string) (key : string)
    (default : option string) : option string :=
  match environ !! key with
  | Some value => Some value
  | None => default
  end.

Definition join (a : option string) (b : string) : Result string :=
  match a with
  | None => Raise TypeError
  | Some path =>
      if String.prefix "/" b then Ok b
      else if String.eqb path "" || Py.endswith path "/" then Ok (path ++ b)%string
      else Ok (path ++ "/" ++ b)%string
  end.

End Os.

(** The module-level constant [CSV_FOLDER_PATH] of each script, and the
    constant [CSV_FILE_PATH] of [import_csv_to_postgres.py]. *)
Definition Org_CSV_FOLDER_PATH (environ : gmap string string) : Result string :=
  Os.join (Os.getenv environ "CSV_FOLDER_PATH" None) "20250922/org/csv".

Definition Per_CSV_FOLDER_PATH (environ : gmap string string) : Result string :=
  Os.join (Os.getenv environ "CSV_FOLDER_PATH" None) "20250922/per/csv".

Definition RawFeed_CSV_FOLDER_PATH (environ : gmap string string) : option string :=
  Os.getenv environ "CSV_FOLDER_PATH" (Some "20250922/raw_feed_per").

Definition Csv_CSV_FILE_PATH (environ : gmap string string) : option string :=
  Os.getenv environ "CSV_FILE_PATH" None.

(** A script run as a program: the module is loaded, then [main] runs.
    An exception while the module is loaded ends the process with status
    1, before any connection is made. *)
Definition Org_script (environ : gmap string string) (fs : FileSystem)
    (server : DB) : Z * list LogRecord * DB :=
  match Org_CSV_FOLDER_PATH environ with
  | Raise _ => (1, [], server)
  | Ok CSV_FOLDER_PATH =>
      Org.main Org.COLUMN_DEFINITIONS Org.indexes fs CSV_FOLDER_PATH server
  end.

Definition Per_script (environ : gmap string string) (fs : FileSystem)
    (server : DB) : Z * list LogRecord * DB :=
  match Per_CSV_FOLDER_PATH environ with
  | Raise _ => (1, [], server)
  | Ok CSV_FOLDER_PATH =>
      Per.main Per.COLUMN_DEFINITIONS Per.indexes fs CSV_FOLDER_PATH server
  end.

Definition RawFeed_script (environ : gmap string string) (fs : FileSystem)
    (server : DB) : Z * list LogRecord * DB :=
  match RawFeed_CSV_FOLDER_PATH environ with
  | None => (1, [], server)
  | Some CSV_FOLDER_PATH =>
      RawFeed.main RawFeed.COLUMN_DEFINITIONS RawFeed.indexes fs
                   CSV_FOLDER_PATH server
  end.

(** ** [import_all_to_postgres.py] *)

Module All.

(** [timedelta(seconds=k)] for an [int]: the value is normalised to whole
    days and the seconds of the day; more than 999999999 days either way
    raise OverflowError. *)
Record timedelta : Type := mkTimedelta {
  days : Z;
  seconds : Z
}.

Definition timedelta_of_seconds (k : Z) : Result timedelta :=
  let d := k / 86400 in
  let s := k mod 86400 in
  if 999999999 <? Z.abs d then Raise OverflowError else Ok (mkTimedelta d s).

Definition divmod (a b : Z) : Z * Z := (a / b, a mod b).

(** [str] of an [int], as an f-string renders it. *)
Definition str (n : Z) : string := pretty n.

Definition format_duration (seconds : spec_float) : Result string :=
  match Py.int seconds with
  | Raise e => Raise e
  | Ok k =>
      match timedelta_of_seconds k with
      | Raise e => Raise e
      | Ok duration =>
          let '(hours, remainder) := divmod (All.seconds duration) 3600 in
          let '(minutes, seconds) := divmod remainder 60 in
          if days duration >? 0 then
            Ok (str (days duration) ++ "d " ++ str hours ++ "h " ++
                str minutes ++ "m " ++ str seconds ++ "s")%string
          else if hours >? 0 then
            Ok (str hours ++ "h " ++ str minutes ++ "m " ++ str seconds ++ "s")%string
          else if minutes >? 0 then
            Ok (str minutes ++ "m " ++ str seconds ++ "s")%string
          else Ok (str seconds ++ "s")%string
      end
  end.

(** How [subprocess.run([sys.executable, script_name], check=True)] ends:
    the child exits with a status, or the call itself raises. *)
Inductive Completed : Type :=
| Exited (returncode : Z)
| NotStarted.

#[global] Instance Completed_eq_dec : EqDecision Completed.
Proof. solve_decision. Defined.

(** [duration] is the time the clock measured around the call.  A status
    other than 0 is CalledProcessError; an exception raised while that
    handler logs leaves the function. *)
Definition run_import_script (result : Completed) (duration : spec_float)
  : Result (bool * spec_float) :=
  match result with
  | Exited 0 =>
      match format_duration duration with
      | Ok _ => Ok (true, duration)
      | Raise _ => Ok (false, duration)       (* except Exception *)
      end
  | Exited _ =>
      match format_duration duration with
      | Ok _ => Ok (false, duration)
      | Raise e => Raise e
      end
  | NotStarted => Ok (false, duration)        (* except Exception *)
  end.

Record Job : Type := mkJob {
  script : string;
  name : string;
  table : string;
  folder : string
}.

Definition import_jobs : list Job :=
  [ mkJob "import_org_to_postgres.py" "ORGANIZATION (ORG)"
          "releases_org_export" "20250922/org/csv";
    mkJob "import_per_to_postgres.py" "PERSON (PER)"
          "releases_per_export" "20250922/per/csv";
    mkJob "import_raw_feed_per_to_postgres.py" "RAW FEED PERSON"
          "releases_raw_feed_per_export" "20250922/raw_feed_per" ].

(** An entry of [results]. *)
Record JobResult : Type := mkJobResult {
  result_name : string;
  result_table : string;
  success : bool;
  duration : spec_float
}.

(** What the script meets: the lines [input] will read, how each child
    ends, and the times the clock measures. *)
Record World : Type := mkWorld {
  stdin : list string;
  child : string -> Completed;
  elapsed : string -> spec_float;
  total_elapsed : spec_float
}.

(** The answer is [response.lower() != 'y']. *)
Definition declined (response : string) : bool :=
  negb (String.eqb (Py.lower response) "y").

(** The loop over [import_jobs]: the results so far, the lines left, and
    the exception that ended the loop if one did.  [input] at the end of
    the input raises EOFError. *)
Fixpoint run_jobs (w : World) (jobs : list Job) (stdin : list string)
    (results : list JobResult) : list JobResult * list string * option Exn :=
  match jobs with
  | [] => (results, stdin, None)
  | job :: more =>
      match run_import_script (child w (script job)) (elapsed w (script job)) with
      | Raise e => (results, stdin, Some e)
      | Ok (success, duration) =>
          let results :=
            results ++ [mkJobResult (name job) (table job) success duration] in
          if success then run_jobs w more stdin results
          else
            match stdin with
            | [] => (results, stdin, Some ReadError)
            | response :: stdin =>
                if declined response then (results, stdin, None)    (* break *)
                else run_jobs w more stdin results
            end
      end
  end.

(** The lines of the results table: every duration is formatted. *)
Fixpoint results_table (results : list JobResult) : Result (list string) :=
  match results with
  | [] => Ok []
  | result :: more =>
      match format_duration (duration result) with
      | Raise e => Raise e
      | Ok duration_str =>
          match results_table more with
          | Raise e => Raise e
          | Ok lines => Ok (duration_str :: lines)
          end
      end
  end.

(** The summary after the loop, and the exit status it picks. *)
Definition summary (w : World) (results : list JobResult) : Result Z :=
  match format_duration (total_elapsed w) with
  | Raise e => Raise e
  | Ok _ =>
      match results_table results with
      | Raise e => Raise e
      | Ok _ =>
          let success_count :=
            Py.len (filter (fun r => Is_true (success r)) results) in
          let failed_count := Py.len results - success_count in
          Ok (if failed_count =? 0 then 0 else 1)
      end
  end.

(** [main] under the handlers at the end of the script: the exit status,
    the results gathered and the lines of input left.  Every exception
    ends in status 1. *)
Definition main (w : World) : Z * list JobResult * list string :=
  match stdin w with
  | [] => (1, [], [])                                   (* EOFError *)
  | response :: stdin =>
      if declined response then (0, [], stdin)          (* sys.exit(0) *)
      else
        match run_jobs w import_jobs stdin [] with
        | (results, stdin, Some _) => (1, results, stdin)
        | (results, stdin, None) =>
            match summary w results with
            | Ok status => (status, results, stdin)
            | Raise _ => (1, results, stdin)
            end
        end
  end.

End All.

(** * Vocabulary of the specification *)

(** [x] is the letter [c] in either case; [c] is taken from a
    lower-case word. *)
Definition is_lower (c : ascii) : bool :=
  let n := N_of_ascii c in ((97 <=? n) && (n <=? 122))%N.

Definition either_case (x c : ascii) : bool :=
  Ascii.eqb x c || (is_lower c && (N_of_ascii x + 32 =? N_of_ascii c)%N).

(** [s] spells the word [w], letter by letter, in any mix of cases. *)
Fixpoint spells (s w : string) : bool :=
  match s, w with
  | EmptyString, EmptyString => true
  | String x s', String c w' => either_case x c && spells s' w'
  | _, _ => false
  end.

(** The table of the specification for Boolean fields. *)
Definition boolean_table (s : string) : PyValue :=
  if existsb (spells s) ["true"; "t"; "1"; "yes"] then PyBool true
  else if existsb (spells s) ["false"; "f"; "0"; "no"] then PyBool false
  else PyNone.

Fixpoint no_upper (w : string) : bool :=
  match w with
  | EmptyString => true
  | String c w' => negb (Py.is_upper c) && no_upper w'
  end.

(** The rows of a table that may not exist. *)
Definition table_rows (w : option Table) : list TypedRow :=
  match w with Some t => rows t | None => [] end.

(** The records of a reader that [process_row] accepts, coerced. *)
Definition processed (process_row : RawRecord -> Result TypedRow)
    (reader : list RawRecord) : list TypedRow :=
  omap (fun row => match process_row row with
                   | Ok r => Some r
                   | Raise _ => None
                   end) reader.

(** A list cut into pieces of [n] elements, the last one shorter when the
    length is no multiple of [n]. *)
Fixpoint chunks_fuel {A} (fuel n : nat) (l : list A) : list (list A) :=
  match fuel, l with
  | S fuel', _ :: _ => take n l :: chunks_fuel fuel' n (drop n l)
  | _, _ => []
  end.

Definition chunks {A} (n : nat) (l : list A) : list (list A) :=
  chunks_fuel (length l) n l.

(** The piece of the WHERE clause for one column and its coerced value. *)
Definition piece (col : string) (value : PyValue) : Predicate :=
  match value with
  | PyNone => IS_NULL col
  | _ => EQUALS col value
  end.

(** The probe for a coerced row: one piece per column, joined by AND. *)
Definition probe (columns : list string) (processed_row : TypedRow)
  : list Predicate :=
  zip_with piece columns processed_row.

(** The probe runs on the cursor and returns a row. *)
Definition probe_finds (cursor : DB) (where_sql : list Predicate) : Prop :=
  aborted cursor = false /\
  exists t, working cursor = Some t /\
    where_sql <> [] /\
    (forall p, p ∈ where_sql -> column_of p ∈ columns t) /\
    exists row, row ∈ rows t /\ satisfies t where_sql row = true.

(** From one attempt to insert to the next: [chain b h b'] tells that the
    batch, [b] before the calls of [h], is part of every call until one
    returns, starts empty again after that one, and is [b'] or less in the
    end. *)
Fixpoint chain (b : list TypedRow) (h : list (Statement * option Exn))
    (b' : list TypedRow) : Prop :=
  match h with
  | [] => b `prefix_of` b'
  | (INSERT _ x, None) :: h' => b `prefix_of` x /\ chain [] h' b'
  | (INSERT _ x, Some _) :: h' => b `prefix_of` x /\ chain x h' b'
  | _ :: _ => False
  end.

(** Sum of the sizes of batches. *)
Definition sizes (batches : list (list TypedRow)) : Z :=
  fold_right (fun b acc => Py.len b + acc) 0 batches.

(** A failed attempt to insert is followed, if by anything, by an attempt
    that holds its rows again. *)
Definition retried (h : list (Statement * option Exn)) : Prop :=
  forall i cols b e entry,
    h !! i = Some (INSERT cols b, Some e) ->
    h !! S i = Some entry ->
    exists cols' b' outcome,
      entry = (INSERT cols' b', outcome) /\ b `prefix_of` b'.

(** What the loop of [import_csv_data] did between the frames [st] and
    [st'], over the records [reader], [delta] being the statements sent. *)
Record import_trace (schema : list (string * string))
    (process_row : RawRecord -> Result TypedRow) (reader : list RawRecord)
    (st st' : Loader.Frame) (delta : list (Statement * option Exn)) : Prop := {
  trace_history : history (Loader.db st') = history (Loader.db st) ++ delta;
  trace_durable : durable (Loader.db st') = durable (Loader.db st);
  trace_accepts : accepts (Loader.db st') = accepts (Loader.db st);
  trace_total :
    Loader.total_rows st' = Loader.total_rows st + sizes (completed delta);
  trace_columns :
    columns <$> working (Loader.db st') = columns <$> working (Loader.db st);
  trace_rows :
    table_rows (working (Loader.db st')) =
      table_rows (working (Loader.db st)) ++ concat (completed delta);
  trace_batch :
    concat (completed delta) ++ Loader.batch st' =
      Loader.batch st ++ processed process_row reader;
  trace_chain : chain (Loader.batch st) delta (Loader.batch st');
  trace_table :
    completed delta <> [] ->
    exists t, working (Loader.db st) = Some t /\
              columns t = column_names schema /\
              NoDup (column_names schema) /\ column_names schema <> [];
  trace_quiet :
    aborted (Loader.db st') = true -> Loader.batch st' = [] ->
    delta = [] /\ Loader.batch st = [] /\ Loader.db st' = Loader.db st
}.

(** A cursor on which every insert of rows of [pending] returns: the
    transaction is healthy, the table is the one of the schema, the server
    accepts the rows. *)
Definition takes (schema : list (string * string)) (cursor : DB)
    (pending : list TypedRow) : Prop :=
  aborted cursor = false /\
  (exists t, working cursor = Some t /\ columns t = column_names schema) /\
  NoDup (column_names schema) /\ column_names schema <> [] /\
  forallb (accepts cursor) pending = true.

(** The entry of the history for an [execute_batch] that returned. *)
Definition inserted (schema : list (string * string)) (b : list TypedRow)
  : Statement * option Exn :=
  (INSERT (column_names schema) b, None).

(** A folder with the three files of the enumeration example. *)
Definition example_folder : FileSystem :=
  {[ "data" := Directory ["b.csv"; "a.csv.gz"; "c.csv"] ]}.

(** A record of the person export with three of its fields filled; the
    other columns are missing and come out as NULL. *)
Definition person (linkedin_url full_name rn : string) : RawRecord :=
  {[ "LINKEDIN_URL" := Some linkedin_url;
     "FULL_NAME" := Some full_name;
     "RN" := Some rn ]}.

(** A connection to a server without the table, one with the empty table
    of a schema, and one whose server rejects the rows of Bob. *)
Definition no_table : DB := mkDB None None false (fun _ => true) [] [].

Definition empty_table (schema : list (string * string)) : DB :=
  let t := Some (mkTable (column_names schema) []) in
  mkDB t t false (fun _ => true) [] [].

Definition rejects_bob (schema : list (string * string)) : DB :=
  let t := Some (mkTable (column_names schema) []) in
  mkDB t t false
       (fun row => negb (bool_decide (PyStr "Bob" ∈ row))) [] [].

Definition three_people : FileSystem :=
  {[ "per/people.csv" :=
       RegularFile (mkCsvFile [person "u/ann" "Ann" "1"; person "u/bob" "Bob" "2";
                               person "u/cy" "Cy" "3"] None) ]}.

Definition five_people : FileSystem :=
  {[ "per/five.csv" :=
       RegularFile (mkCsvFile [person "u/ann" "Ann" "1"; person "u/bob" "Bob" "2";
                               person "u/cy" "Cy" "3"; person "u/dee" "Dee" "4";
                               person "u/eve" "Eve" "5"] None) ]}.

(** The coerced row of Ann, and a connection whose table holds it. *)
Definition ann_row : TypedRow :=
  Eval vm_compute in
    match Per.process_row Per.COLUMN_DEFINITIONS (person "u/ann" "Ann" "1") with
    | Ok r => r
    | Raise _ => []
    end.

Definition holds_ann : DB :=
  let t := Some (mkTable (column_names Per.COLUMN_DEFINITIONS) [ann_row]) in
  mkDB t t false (fun _ => true) [] [].

(** A file that holds its header line only. *)
Definition header_only : FileSystem :=
  {[ "per/empty.csv" := RegularFile (mkCsvFile [] None) ]}.

(** A file whose first record has a field that [int(float(...))] cannot
    truncate, and the coerced row of its second record. *)
Definition overflowing : FileSystem :=
  {[ "per/inf.csv" :=
       RegularFile (mkCsvFile [person "u/bob" "Bob" "inf"; person "u/cy" "Cy" "3"]
                              None) ]}.

Definition cy_row : TypedRow :=
  Eval vm_compute in
    match Per.process_row Per.COLUMN_DEFINITIONS (person "u/cy" "Cy" "3") with
    | Ok r => r
    | Raise _ => []
    end.

(** Two files: the first one breaks while it is read, after its third
    record; the second one is sound. *)
Definition broken_then_sound : FileSystem :=
  {[ "per/a.csv" :=
       RegularFile (mkCsvFile [person "u/ann" "Ann" "1"; person "u/bob" "Bob" "2";
                               person "u/cy" "Cy" "3"] (Some ReadError));
     "per/b.csv" :=
       RegularFile (mkCsvFile [person "u/dee" "Dee" "4"] None) ]}.

(** The folder of a first run, and the folder of a second run with a
    file the first run has not seen. *)
Definition first_delivery : FileSystem :=
  {[ "per" := Directory ["people.csv"];
     "per/people.csv" :=
       RegularFile (mkCsvFile [person "u/ann" "Ann" "1"; person "u/bob" "Bob" "2"]
                              None) ]}.

Definition second_delivery : FileSystem :=
  {[ "per" := Directory ["more.csv"];
     "per/more.csv" :=
       RegularFile (mkCsvFile [person "u/cy" "Cy" "3"] None) ]}.

(** Closes the fields of an [import_trace] for one turn of the loop;
    [Heq] tells what [processed] is for the record of that turn. *)
Ltac close_trace Heq :=
  first
    [ done
    | by cbn; rewrite ?app_nil_r
    | by rewrite Heq; cbn; rewrite ?app_nil_r
    | by cbn; lia
    | by cbn; apply prefix_app_r
    | by cbn; split; [apply prefix_app_r|]
    | by cbn; intros _ [_ [=]]%app_nil
    | idtac ].

(** ** Vocabulary of the further properties *)


(** The fields of a record under the columns of a schema are coerced by
    [coerce] into the values [r], one by one. *)
Definition coerced_by (coerce : string -> option string -> Result PyValue)
    (schema : list (string * string)) (row : RawRecord) (r : TypedRow) : Prop :=
  Forall2 (fun column v => coerce column.2 (get row column.1) = Ok v) schema r.


(** The text of a whole number by its sign and its digits. *)
Definition integer_text (neg : bool) (ds : list ascii) : string :=
  string_of_list_ascii ((if neg then ["-"%char] else []) ++ ds).

(** The number such a text denotes. *)
Definition integer_value (neg : bool) (ds : list ascii) : Z :=
  if neg then - Py.digits_value ds else Py.digits_value ds.

(** The file a line of the log is about, and the rows a log reports as
    imported. *)
Definition file_of (record : LogRecord) : string :=
  match record with
  | Skipping csv_file => csv_file
  | Imported csv_file _ => csv_file
  | Failed csv_file _ => csv_file
  end.

Definition logged_rows (log : list LogRecord) : Z :=
  fold_right (fun record acc =>
                match record with
                | Imported _ rows_imported => rows_imported + acc
                | _ => acc
                end) 0 log.

(** The rows a file gives: its records that [process_row] accepts,
    coerced, in file order; none when the file does not open. *)
Definition file_rows (process_row : RawRecord -> Result TypedRow)
    (fs : FileSystem) (csv_file : string) : list TypedRow :=
  match open_csv_file fs csv_file with
  | Ok csvfile => processed process_row (records csvfile)
  | Raise _ => []
  end.

(** A file that opens and is read to its end. *)
Definition sound (fs : FileSystem) (csv_file : string) : Prop :=
  exists csvfile, open_csv_file fs csv_file = Ok csvfile /\ failure csvfile = None.

(** What the loops do with the outcome of [import_csv_data] for one file:
    count, log and commit, or log the failure and go on. *)
Definition after_import (run : Loader.Run) (csv_file : string)
    (outcome : Result Z * DB) : Loader.Run :=
  match outcome with
  | (Ok rows_imported, cursor) =>
      Loader.mkRun (Loader.run_total run + rows_imported)
                   (Loader.run_log run ++ [Imported csv_file rows_imported])
                   (commit cursor)
  | (Raise e, cursor) =>
      Loader.mkRun (Loader.run_total run)
                   (Loader.run_log run ++ [Failed csv_file e])
                   cursor
  end.

(** What holds of a run over [files] that started on the connection
    [before]: the log has a line per file, the total is what the log
    reports, the committed table has kept its columns and the rows it had,
    the open transaction only adds rows, and the rows counted are
    committed. *)
Record run_invariant (before : DB) (files : list string) (run : Loader.Run)
  : Prop := {
  inv_files : map file_of (Loader.run_log run) = files;
  inv_total : Loader.run_total run = logged_rows (Loader.run_log run);
  inv_columns :
    columns <$> durable (Loader.run_cursor run) = columns <$> durable before;
  inv_kept :
    table_rows (durable before)
      `prefix_of` table_rows (durable (Loader.run_cursor run));
  inv_pending :
    table_rows (durable (Loader.run_cursor run))
      `prefix_of` table_rows (working (Loader.run_cursor run));
  inv_working :
    columns <$> working (Loader.run_cursor run) =
    columns <$> durable (Loader.run_cursor run);
  inv_counted :
    Loader.run_total run + Py.len (table_rows (durable before))
      <= Py.len (table_rows (durable (Loader.run_cursor run)))
}.

(** The text the [main] functions share, over the [create_table] and the
    import loop of the script at hand. *)
Definition main_with
    (create_table : list (string * string) -> DB -> Result unit * DB)
    (import_multiple_files :
       list (string * string) -> FileSystem -> DB -> list string -> Z -> Loader.Run)
    (schema : list (string * string)) (indexes : list (string * string))
    (fs : FileSystem) (CSV_FOLDER_PATH : string) (server : DB)
  : Z * list LogRecord * DB :=
  let connection := connect server in
  match create_table schema connection with
  | (Raise _, connection) => (1, [], close (rollback connection))
  | (Ok _, connection) =>
      let connection := commit connection in
      match get_csv_files fs CSV_FOLDER_PATH with
      | Raise _ => (1, [], close (rollback connection))
      | Ok [] => (1, [], close connection)
      | Ok csv_files =>
          let run := import_multiple_files schema fs connection csv_files 1000 in
          let log := Loader.run_log run in
          let connection :=
            commit (Csv.create_indexes indexes (Loader.run_cursor run)) in
          match Csv.final_statistics connection with
          | (Raise _, connection) => (1, log, close (rollback connection))
          | (Ok _, connection) => (0, log, close connection)
          end
      end
  end.

(** The folder exists and [get_csv_files] finds a file in it. *)
Definition lists_files (fs : FileSystem) (folder_path : string) : bool :=
  match get_csv_files fs folder_path with
  | Ok (_ :: _) => true
  | _ => false
  end.

(** The entry of the history for an index statement that returned. *)
Definition indexed (index : string * string) : Statement * option Exn :=
  (CREATE_INDEX_IF_NOT_EXISTS index.1 index.2, None).

(** The four scripts that load a table, each with its schema and its
    indexes. *)
Definition loaders : list (list (string * string) * list (string * string)) :=
  [ (Csv.COLUMN_DEFINITIONS, Csv.indexes);
    (Org.COLUMN_DEFINITIONS, Org.indexes);
    (Per.COLUMN_DEFINITIONS, Per.indexes);
    (RawFeed.COLUMN_DEFINITIONS, RawFeed.indexes) ].

(** The line of the log for a file that was imported whole. *)
Definition imported_whole (process_row : RawRecord -> Result TypedRow)
    (fs : FileSystem) (csv_file : string) : LogRecord :=
  Imported csv_file (Py.len (file_rows process_row fs csv_file)).

(** The rows of several files, file after file. *)
Definition files_rows (process_row : RawRecord -> Result TypedRow)
    (fs : FileSystem) (csv_files : list string) : list TypedRow :=
  concat (map (file_rows process_row fs) csv_files).

(** A record of the organisation export with three of its fields
    filled, and a folder of two such files beside a file of another
    kind. *)
Definition company (company_name domain founded : string) : RawRecord :=
  {[ "COMPANY_NAME" := Some company_name;
     "DOMAIN" := Some domain;
     "FOUNDED" := Some founded ]}.

Definition org_delivery : FileSystem :=
  {[ "org" := Directory ["b.csv"; "notes.txt"; "a.csv.gz"];
     "org/a.csv.gz" :=
       RegularFile (mkCsvFile [company "Acme" "acme.example" "1999"] None);
     "org/b.csv" :=
       RegularFile (mkCsvFile [company "Bolt" "bolt.example" "2004.0";
                               company "Cask" "cask.example" "\N"] None) ]}.


(** The server rejects one of the rows. *)
Definition rejects (cursor : DB) (typed_rows : list TypedRow) : Prop :=
  exists r, r ∈ typed_rows /\ accepts cursor r = false.

(** The batch cannot be inserted any more: it holds a row the server
    rejects, or the transaction has failed while rows are waiting. *)
Definition stuck (st : Loader.Frame) : Prop :=
  rejects (Loader.db st) (Loader.batch st) \/
  (aborted (Loader.db st) = true /\ Loader.batch st <> []).


(** The coerced first record of a file, when the file opens, has a
    record and [process_row] accepts it. *)
Definition first_row (process_row : RawRecord -> Result TypedRow)
    (fs : FileSystem) (csv_file : string) : option TypedRow :=
  match open_csv_file fs csv_file with
  | Ok csvfile =>
      match records csvfile with
      | row :: _ =>
          match process_row row with
          | Ok r => Some r
          | Raise _ => None
          end
      | [] => None
      end
  | Raise _ => None
  end.

(** A connection in a healthy transaction on the table of a schema, all
    of whose rows have a value for every column. *)
Definition on_table (schema : list (string * string)) (cursor : DB) (t : Table)
  : Prop :=
  aborted cursor = false /\ working cursor = Some t /\
  columns t = column_names schema /\
  NoDup (column_names schema) /\ column_names schema <> [] /\
  Forall (fun stored => length stored = length (column_names schema)) (rows t).

(** No file of the list starts with a record that is stored already or
    that an earlier file of the list holds. *)
Fixpoint starts_fresh (process_row : RawRecord -> Result TypedRow)
    (fs : FileSystem) (stored : list TypedRow) (csv_files : list string) : bool :=
  match csv_files with
  | [] => true
  | csv_file :: more =>
      match first_row process_row fs csv_file with
      | Some r => negb (bool_decide (r ∈ stored))
      | None => true
      end
      && starts_fresh process_row fs
           (stored ++ file_rows process_row fs csv_file) more
  end.

(** A folder of the person export with two files; the second one holds
    a record of the first one again, after its first record. *)
Definition per_delivery : FileSystem :=
  {[ "per" := Directory ["one.csv"; "two.csv"];
     "per/one.csv" :=
       RegularFile (mkCsvFile [person "u/ann" "Ann" "1"; person "u/bob" "Bob" "2"]
                              None);
     "per/two.csv" :=
       RegularFile (mkCsvFile [person "u/cy" "Cy" "3"; person "u/ann" "Ann" "1"]
                              None) ]}.

(** The clock readings of a world are such that [format_duration]
    formats them. *)
Definition ordinary (w : All.World) : Prop :=
  raises (All.format_duration (All.total_elapsed w)) = false /\
  forall script_name, raises (All.format_duration (All.elapsed w script_name)) = false.

(** The entry of [results] for a job, by whether its script exited
    with 0. *)
Definition result_of (w : All.World) (job : All.Job) : All.JobResult :=
  All.mkJobResult (All.name job) (All.table job)
    (bool_decide (All.child w (All.script job) = All.Exited 0))
    (All.elapsed w (All.script job)).

(** A world in which the person loader exits with 1 and the operator
    then answers n. *)
Definition per_fails : All.World :=
  All.mkWorld ["Y"; "n"; "left"]
    (fun script_name =>
       if String.eqb script_name "import_per_to_postgres.py"
       then All.Exited 1 else All.Exited 0)
    (fun _ => S754_zero false) (S754_zero false).

(** The text of a duration by its fields: the units in front that are
    zero are left out. *)
Definition duration_text (days hours minutes seconds : Z) : string :=
  if days >? 0 then
    (All.str days ++ "d " ++ All.str hours ++ "h " ++
     All.str minutes ++ "m " ++ All.str seconds ++ "s")%string
  else if hours >? 0 then
    (All.str hours ++ "h " ++ All.str minutes ++ "m " ++ All.str seconds ++ "s")%string
  else if minutes >? 0 then
    (All.str minutes ++ "m " ++ All.str seconds ++ "s")%string
  else (All.str seconds ++ "s")%string.

(** The float [float(text)] gives, for a text it accepts. *)
Definition float_of (text : string) : spec_float :=
  default S754_nan (Py.float text).

(** * Properties *)

(** ** Value coercion *)

Section Coercion.

Lemma N_of_ascii_lt (c : ascii) : (N_of_ascii c < 256)%N.
Proof. apply N_ascii_bounded. Qed.

Lemma either_case_lower (x c : ascii) :
  Py.is_upper c = false ->
  either_case x c = Ascii.eqb (Py.ascii_lower x) c.
Proof.
  intros Hc. unfold either_case, Py.ascii_lower, is_lower, Py.is_upper in *.
  pose proof (N_of_ascii_lt x) as Hx.
  destruct ((65 <=? N_of_ascii x)%N && (N_of_ascii x <=? 90)%N) eqn:Hup.
  - apply andb_true_iff in Hup as [H1 H2].
    apply N.leb_le in H1, H2.
    destruct (Ascii.eqb_spec x c) as [->|Hne].
    + rewrite andb_true_intro in Hc; [discriminate|].
      split; by apply N.leb_le.
    + cbn [orb].
      destruct (Ascii.eqb_spec (ascii_of_N (N_of_ascii x + 32)) c) as [<-|Hne'].
      * rewrite N_ascii_embedding by lia.
        rewrite N.eqb_refl, andb_true_r.
        apply andb_true_intro; split; apply N.leb_le; lia.
      * destruct (N.eqb_spec (N_of_ascii x + 32) (N_of_ascii c)) as [Heq|];
          [|by rewrite andb_false_r].
        exfalso. apply Hne'. rewrite Heq. apply ascii_N_embedding.
  - destruct (Ascii.eqb_spec x c) as [->|Hne]; [done|].
    cbn [orb].
    destruct (N.eqb_spec (N_of_ascii x + 32) (N_of_ascii c)) as [Heq|];
      [|by rewrite andb_false_r].
    rewrite andb_true_r.
    apply andb_false_iff in Hup.
    apply andb_false_iff.
    destruct Hup as [H|H]; apply N.leb_gt in H; [left|right]; apply N.leb_gt; lia.
Qed.

Lemma spells_lower (w s : string) :
  no_upper w = true -> spells s w = String.eqb (Py.lower s) w.
Proof.
  revert s. induction w as [|c w IH]; intros [|x s] Hw; try reflexivity.
  cbn in Hw. apply andb_true_iff in Hw as [Hc Hw].
  apply negb_true_iff in Hc.
  cbn [spells Py.lower String.eqb].
  rewrite either_case_lower, IH by done.
  by destruct (Ascii.eqb (Py.ascii_lower x) c).
Qed.

Lemma lower_in_words (s : string) (words : list string) :
  forallb no_upper words = true ->
  bool_decide (Py.lower s ∈ words) = existsb (spells s) words.
Proof.
  induction words as [|w words IH]; intros Hw.
  - apply bool_decide_eq_false. by intros ?%elem_of_nil.
  - cbn in Hw. apply andb_true_iff in Hw as [Hw Hws].
    cbn [existsb]. rewrite spells_lower, <- IH by done.
    destruct (String.eqb_spec (Py.lower s) w) as [->|Hne].
    + apply bool_decide_eq_true. left.
    + cbn [orb]. apply bool_decide_ext. rewrite elem_of_cons. intuition congruence.
Qed.

Lemma parse_boolean_table (s : string) :
  of_optional_bool (parse_boolean (clean_value (Some s))) = boolean_table s.
Proof.
  unfold clean_value, parse_boolean, boolean_table.
  destruct (String.eqb_spec s "\N") as [->|_]; [reflexivity|].
  cbn [orb].
  destruct (String.eqb s "") eqn:Hempty.
  - apply String.eqb_eq in Hempty as ->. reflexivity.
  - rewrite Hempty, !lower_in_words by reflexivity.
    by repeat case_match.
Qed.

(** What [parse_integer] does, by the value [float] gives. *)
Lemma parse_integer_cases (v : string) :
  v ≠ "" ->
  parse_integer (Some v) =
    match Py.float v with
    | None | Some S754_nan => Ok None
    | Some (S754_infinity _) => Raise OverflowError
    | Some x => match Py.int x with Ok n => Ok (Some n) | Raise e => Raise e end
    end.
Proof.
  intros Hv. unfold parse_integer.
  destruct (String.eqb_spec v "") as [|_]; [done|].
  by destruct (Py.float v) as [[]|].
Qed.

(** The part of the sentinel rule that the code keeps: an empty field
    and backslash-N are NULL under every declared type, in both scripts. *)
Lemma null_sentinels (col_type : string) (raw : option string) :
  raw = Some "" \/ raw = Some "\N" ->
  clean_value raw = None /\
  Csv.coerce col_type raw = Ok PyNone /\
  Per.coerce col_type raw = Ok PyNone.
Proof.
  intros Hraw.
  assert (clean_value raw = None) as Hclean
    by (destruct Hraw as [-> | ->]; reflexivity).
  split; [done|].
  unfold Csv.coerce, Per.coerce. rewrite Hclean. cbn.
  split; by repeat case_match.
Qed.

End Coercion.

(** C8. For every input text, coercion of a BOOLEAN field returns (it
    never raises) and follows the table: true, t, 1, yes in any case give
    True; false, f, 0, no in any case give False; every other text gives
    NULL.  Both scripts, and a missing field too. *)
Theorem boolean_coercion_total (s : string) :
  Csv.coerce "BOOLEAN" (Some s) = Ok (boolean_table s) /\
  Per.coerce "BOOLEAN" (Some s) = Ok (boolean_table s) /\
  Csv.coerce "BOOLEAN" None = Ok PyNone /\
  Per.coerce "BOOLEAN" None = Ok PyNone.
Proof.
  unfold Csv.coerce, Per.coerce. cbn [String.eqb Ascii.eqb Bool.eqb].
  rewrite parse_boolean_table. done.
Qed.

(** C1 (failing input). The field made of two backslashes and N is not
    recognised by [clean_value]: under TEXT, DATE and TIMESTAMP it comes
    out as that text, not as NULL. *)
Theorem escaped_sentinel_not_null :
  clean_value (Some "\\N") = Some "\\N" /\
  Csv.coerce "TEXT" (Some "\\N") = Ok (PyStr "\\N") /\
  Per.coerce "TEXT" (Some "\\N") = Ok (PyStr "\\N") /\
  Csv.coerce "DATE" (Some "\\N") = Ok (PyStr "\\N") /\
  Per.coerce "TIMESTAMP" (Some "\\N") = Ok (PyStr "\\N").
Proof. repeat split; reflexivity. Qed.

(** C2 (failing input). The text inf parses as a float, and its
    truncation raises OverflowError, which [parse_integer] does not
    catch: coercion of an INTEGER field raises. *)
Theorem integer_coercion_raises_on_inf :
  Py.float "inf" = Some (S754_infinity false) /\
  parse_integer (Some "inf") = Raise OverflowError /\
  Csv.coerce "INTEGER" (Some "inf") = Raise OverflowError /\
  Per.coerce "INTEGER" (Some "inf") = Raise OverflowError.
Proof. repeat split; vm_compute; reflexivity. Qed.

(** The examples of the specification: 42.0 and 7.0 truncate, abc is NULL. *)
Example integer_coercion_examples :
  Csv.coerce "INTEGER" (Some "42.0") = Ok (PyInt 42) /\
  Per.coerce "INTEGER" (Some "7.0") = Ok (PyInt 7) /\
  Csv.coerce "INTEGER" (Some "abc") = Ok PyNone.
Proof. repeat split; vm_compute; reflexivity. Qed.

(** ** Source enumeration *)

Section Enumeration.

Lemma string_compare_app (p a b : string) :
  String.compare (p ++ a) (p ++ b) = String.compare a b.
Proof.
  induction p as [|c p IH]; [reflexivity|].
  simpl. unfold Ascii.compare. by rewrite N.compare_refl.
Qed.

Lemma string_le_app (p a b : string) :
  String.le (p ++ a) (p ++ b) <-> String.le a b.
Proof. unfold String.le, String.leb. by rewrite string_compare_app. Qed.

Lemma joinpath_le (folder a b : string) :
  String.le (joinpath folder a) (joinpath folder b) <-> String.le a b.
Proof. unfold joinpath. by rewrite !string_le_app. Qed.

Lemma sorted_is_sorted (l : list string) : Sorted String.le (Py.sorted l).
Proof. apply (Sorted_merge_sort String.le). Qed.

Lemma sorted_is_permutation (l : list string) : Py.sorted l ≡ₚ l.
Proof. apply (merge_sort_Permutation String.le). Qed.

(** A sorted arrangement of a list is the one [sorted] returns. *)
Lemma sorted_unique (l l' : list string) :
  Sorted String.le l' -> l' ≡ₚ l -> Py.sorted l = l'.
Proof.
  intros Hs Hp. apply (Sorted_unique String.le); [apply sorted_is_sorted|done|].
  by rewrite sorted_is_permutation.
Qed.

(** What [glob] matches: the entries with the suffix, under the folder. *)
Lemma elem_of_glob (fs : FileSystem) (folder suffix : string)
    (entries : list string) (path : string) :
  fs !! folder = Some (Directory entries) ->
  path ∈ glob fs folder suffix <->
  exists name, name ∈ entries /\ Py.endswith name suffix = true /\
               path = joinpath folder name.
Proof.
  intros Hdir. unfold glob. rewrite Hdir, list_elem_of_fmap.
  split.
  - intros (name & -> & [Hsuf Hin]%list_elem_of_filter).
    exists name. by apply Is_true_true in Hsuf.
  - intros (name & Hin & Hsuf & ->). exists name. split; [done|].
    apply list_elem_of_filter. split; [by apply Is_true_true|done].
Qed.

End Enumeration.

(** C9. [get_csv_files] raises FileNotFoundError exactly when the folder
    does not exist; otherwise it returns the entries ending in .csv
    together with those ending in .csv.gz, sorted by path.  A folder with
    b.csv, a.csv.gz and c.csv gives a.csv.gz, b.csv, c.csv. *)
Theorem get_csv_files_sorted_union (fs : FileSystem) (folder_path : string) :
  (get_csv_files fs folder_path = Raise FileNotFoundError <->
   fs !! folder_path = None) /\
  (forall node, fs !! folder_path = Some node ->
     exists csv_files,
       get_csv_files fs folder_path = Ok csv_files /\
       csv_files ≡ₚ glob fs folder_path ".csv" ++ glob fs folder_path ".csv.gz" /\
       Sorted String.le csv_files) /\
  (fs !! folder_path = Some (Directory ["b.csv"; "a.csv.gz"; "c.csv"]) ->
     get_csv_files fs folder_path =
       Ok [joinpath folder_path "a.csv.gz"; joinpath folder_path "b.csv";
           joinpath folder_path "c.csv"]).
Proof.
  unfold get_csv_files. split; [|split].
  - destruct (fs !! folder_path); split; congruence.
  - intros node ->. eexists. split; [reflexivity|]. cbn [app].
    split; [apply sorted_is_permutation | apply sorted_is_sorted].
  - intros Hdir. rewrite Hdir. f_equal. apply sorted_unique.
    + repeat constructor; apply joinpath_le; reflexivity.
    + unfold glob. rewrite Hdir.
      assert (filter (fun name => Is_true (Py.endswith name ".csv"))
                     ["b.csv"; "a.csv.gz"; "c.csv"] = ["b.csv"; "c.csv"]) as ->
        by reflexivity.
      assert (filter (fun name => Is_true (Py.endswith name ".csv.gz"))
                     ["b.csv"; "a.csv.gz"; "c.csv"] = ["a.csv.gz"]) as ->
        by reflexivity.
      cbn [app map]. apply (Permutation_cons_append [_; _]).
Qed.

Lemma get_csv_files_sorted_union_witness :
  get_csv_files example_folder "data" =
    Ok ["data/a.csv.gz"; "data/b.csv"; "data/c.csv"].
Proof.
  apply (proj2 (proj2 (get_csv_files_sorted_union example_folder "data"))).
  reflexivity.
Defined.

(** ** The connection *)

Section Connection.

Lemma execute_ok (c : DB) (stmt : Statement) (u : unit) (c' : DB) :
  execute c stmt = (Ok u, c') ->
  aborted c = false /\
  exists w returned,
    effect c stmt = Ok (w, returned) /\
    c' = mkDB (durable c) w false (accepts c) returned
              (history c ++ [(stmt, None)]).
Proof.
  unfold execute. destruct (aborted c); [discriminate|].
  destruct (effect c stmt) as [[w returned]|e]; [|discriminate].
  intros [= _ <-]. eauto.
Qed.

Lemma execute_raise (c : DB) (stmt : Statement) (e : Exn) (c' : DB) :
  execute c stmt = (Raise e, c') ->
  c' = mkDB (durable c) (working c) true (accepts c) []
            (history c ++ [(stmt, Some e)]).
Proof.
  unfold execute.
  destruct (aborted c); [by intros [= <- <-]|].
  destruct (effect c stmt) as [[w returned]|e']; [discriminate|].
  by intros [= <- <-].
Qed.

Lemma execute_aborted (c : DB) (stmt : Statement) :
  aborted c = true -> (execute c stmt).1 = Raise InFailedSqlTransaction.
Proof. unfold execute. by intros ->. Qed.

Lemma effect_insert_ok (c : DB) (cols : list string) (b : list TypedRow)
    (w : option Table) (returned : list TypedRow) :
  effect c (INSERT cols b) = Ok (w, returned) ->
  exists t, working c = Some t /\ cols = columns t /\ NoDup cols /\
            cols <> [] /\ forallb (accepts c) b = true /\
            w = Some (mkTable (columns t) (rows t ++ b)) /\ returned = [].
Proof.
  unfold effect. destruct cols as [|col cols]; [discriminate|].
  destruct (working c) as [t|]; [|discriminate].
  repeat case_bool_decide; cbn [negb]; try discriminate.
  destruct (forallb (accepts c) b) eqn:Hacc; [|discriminate].
  intros [= <- <-]. exists t. by repeat split.
Qed.

Lemma effect_insert_healthy (c : DB) (t : Table) (b : list TypedRow) :
  working c = Some t -> NoDup (columns t) -> columns t <> [] ->
  forallb (accepts c) b = true ->
  effect c (INSERT (columns t) b) =
    Ok (Some (mkTable (columns t) (rows t ++ b)), []).
Proof.
  intros Hw Hnd Hne Hacc. unfold effect. rewrite Hw.
  destruct (columns t) as [|col cols] eqn:Hcols; [done|].
  rewrite !bool_decide_eq_true_2 by done. cbn [negb]. by rewrite Hacc.
Qed.

(** An [execute_batch] that returns: the transaction was and stays
    healthy, the table is the script's own and gains the batch. *)
Lemma execute_batch_ok (c : DB) (cols : list string) (b : list TypedRow)
    (u : unit) (c' : DB) :
  execute_batch c cols b = (Ok u, c') ->
  aborted c = false /\
  exists t, working c = Some t /\ cols = columns t /\ NoDup cols /\
            cols <> [] /\ forallb (accepts c) b = true /\
            c' = mkDB (durable c) (Some (mkTable (columns t) (rows t ++ b)))
                      false (accepts c) [] (history c ++ [(INSERT cols b, None)]).
Proof.
  intros (Hab & w & returned & Heff & ->)%execute_ok.
  apply effect_insert_ok in Heff as (t & ? & ? & ? & ? & ? & -> & ->).
  split; [done|]. exists t. by repeat split.
Qed.

Lemma execute_batch_raise (c : DB) (cols : list string) (b : list TypedRow)
    (e : Exn) (c' : DB) :
  execute_batch c cols b = (Raise e, c') ->
  c' = mkDB (durable c) (working c) true (accepts c) []
            (history c ++ [(INSERT cols b, Some e)]).
Proof. apply execute_raise. Qed.

Lemma execute_batch_healthy (c : DB) (t : Table) (b : list TypedRow) :
  aborted c = false -> working c = Some t -> NoDup (columns t) ->
  columns t <> [] -> forallb (accepts c) b = true ->
  execute_batch c (columns t) b =
    (Ok tt, mkDB (durable c) (Some (mkTable (columns t) (rows t ++ b)))
                 false (accepts c) [] (history c ++ [(INSERT (columns t) b, None)])).
Proof.
  intros Hab Hw Hnd Hne Hacc. unfold execute_batch, execute.
  by rewrite Hab, (effect_insert_healthy c t b).
Qed.

Lemma since_app (before after : DB) (delta : list (Statement * option Exn)) :
  history after = history before ++ delta -> since before after = delta.
Proof. unfold since. intros ->. by rewrite drop_app_length. Qed.

Lemma completed_app (h1 h2 : list (Statement * option Exn)) :
  completed (h1 ++ h2) = completed h1 ++ completed h2.
Proof. apply omap_app. Qed.

Lemma attempted_app (h1 h2 : list (Statement * option Exn)) :
  attempted (h1 ++ h2) = attempted h1 ++ attempted h2.
Proof. apply omap_app. Qed.

Lemma sizes_app (l1 l2 : list (list TypedRow)) :
  sizes (l1 ++ l2) = sizes l1 + sizes l2.
Proof.
  induction l1 as [|b l1 IH]; [done|].
  change (Py.len b + sizes (l1 ++ l2) = Py.len b + sizes l1 + sizes l2).
  rewrite IH. lia.
Qed.

Lemma len_app {A} (l1 l2 : list A) : Py.len (l1 ++ l2) = Py.len l1 + Py.len l2.
Proof. unfold Py.len. rewrite length_app. lia. Qed.

Lemma sizes_concat (l : list (list TypedRow)) : sizes l = Py.len (concat l).
Proof.
  induction l as [|b l IH]; [done|].
  change (Py.len b + sizes l = Py.len (b ++ concat l)).
  by rewrite len_app, IH.
Qed.

End Connection.

(** ** The loop of [import_csv_data] *)

Section Loop.

Variable schema : list (string * string).
Variable process_row : RawRecord -> Result TypedRow.

Local Abbreviation import_row := (Loader.import_row schema process_row).
Local Abbreviation import_rows := (Loader.import_rows schema process_row).
Local Abbreviation trace := (import_trace schema process_row).

Lemma chain_weaken (b b0 : list TypedRow) (h : list (Statement * option Exn))
    (b' : list TypedRow) :
  b `prefix_of` b0 -> chain b0 h b' -> chain b h b'.
Proof.
  intros Hb. destruct h as [|[[] [e|]] h]; cbn; try done;
    by (intros; etrans) || (intros []; split; [by etrans|done]).
Qed.

Lemma chain_app (b b1 b2 : list TypedRow) (h1 h2 : list (Statement * option Exn)) :
  chain b h1 b1 -> chain b1 h2 b2 -> chain b (h1 ++ h2) b2.
Proof.
  revert b. induction h1 as [|[stmt o] h1 IH]; intros b H1 H2.
  - by apply (chain_weaken b b1).
  - destruct stmt; try done. destruct o; destruct H1 as [Hp H1];
      (split; [done|]); by apply IH.
Qed.

Lemma chain_retried (b b' : list TypedRow) (h : list (Statement * option Exn)) :
  chain b h b' -> retried h.
Proof.
  revert b. induction h as [|[stmt o] h IH]; intros b Hc i cols x e entry Hi Hn.
  - done.
  - destruct i as [|i].
    + cbn in Hi. injection Hi as -> ->. cbn in Hc. destruct Hc as [_ Hc].
      destruct h as [|[stmt' o'] h]; [done|]. cbn in Hn. injection Hn as <-.
      destruct stmt' as [| |cols' b''| | | | | |]; try done.
      exists cols', b'', o'.
      split; [done|]. by destruct o'; destruct Hc.
    + cbn in Hi, Hn. destruct stmt; try done.
      destruct o; destruct Hc as [_ Hc]; by eapply IH.
Qed.

Lemma processed_cons_ok (row : RawRecord) (reader : list RawRecord) (p : TypedRow) :
  process_row row = Ok p ->
  processed process_row (row :: reader) = p :: processed process_row reader.
Proof. intros H. unfold processed. cbn. by rewrite H. Qed.

Lemma processed_cons_raise (row : RawRecord) (reader : list RawRecord) (e : Exn) :
  process_row row = Raise e ->
  processed process_row (row :: reader) = processed process_row reader.
Proof. intros H. unfold processed. cbn. by rewrite H. Qed.

(** The four ways one turn of the loop can go. *)
Lemma import_row_cases (batch_size : Z) (st : Loader.Frame) (row : RawRecord) :
  (exists e, process_row row = Raise e /\ import_row batch_size st row = st) \/
  (exists p, process_row row = Ok p /\
     Py.len (Loader.batch st ++ [p]) < batch_size /\
     import_row batch_size st row =
       Loader.mkFrame (Loader.total_rows st) (Loader.batch st ++ [p]) (Loader.db st)) \/
  (exists p u c, process_row row = Ok p /\
     batch_size <= Py.len (Loader.batch st ++ [p]) /\
     execute_batch (Loader.db st) (column_names schema) (Loader.batch st ++ [p])
       = (Ok u, c) /\
     import_row batch_size st row =
       Loader.mkFrame (Loader.total_rows st + Py.len (Loader.batch st ++ [p])) [] c) \/
  (exists p e c, process_row row = Ok p /\
     batch_size <= Py.len (Loader.batch st ++ [p]) /\
     execute_batch (Loader.db st) (column_names schema) (Loader.batch st ++ [p])
       = (Raise e, c) /\
     import_row batch_size st row =
       Loader.mkFrame (Loader.total_rows st) (Loader.batch st ++ [p]) c).
Proof.
  unfold Loader.import_row.
  destruct (process_row row) as [p|e]; [|left; eauto].
  right. destruct (Z.geb_spec (Py.len (Loader.batch st ++ [p])) batch_size) as [Hge|Hlt].
  - right.
    destruct (execute_batch _ _ _) as [[u|e] c] eqn:Hex;
      [left|right]; eauto 10 with lia.
  - left. eauto.
Qed.

Lemma trace_row (batch_size : Z) (st : Loader.Frame) (row : RawRecord) :
  exists delta, trace [row] st (import_row batch_size st row) delta.
Proof.
  destruct (import_row_cases batch_size st row)
    as [(e & Hp & ->) | [(p & Hp & _ & ->) | [(p & u & c & Hp & _ & Hex & ->)
                                            | (p & e & c & Hp & _ & Hex & ->)]]].
  - exists [].
    split; rewrite ?app_nil_r; close_trace (processed_cons_raise row [] e Hp).
  - exists [].
    split; rewrite ?app_nil_r; close_trace (processed_cons_ok row [] p Hp).
  - apply execute_batch_ok in Hex as (Hab & t & Hw & Hcols & Hnd & Hne & Hacc & ->).
    exists [(INSERT (column_names schema) (Loader.batch st ++ [p]), None)].
    split; cbn [Loader.db Loader.batch Loader.total_rows history durable
                accepts working aborted]; rewrite ?Hw;
      close_trace (processed_cons_ok row [] p Hp).
    intros _. by exists t.
  - apply execute_batch_raise in Hex as ->.
    exists [(INSERT (column_names schema) (Loader.batch st ++ [p]), Some e)].
    split; cbn [Loader.db Loader.batch Loader.total_rows history durable
                accepts working aborted];
      close_trace (processed_cons_ok row [] p Hp).
Qed.

Lemma trace_app (r1 r2 : list RawRecord) (st st1 st2 : Loader.Frame)
    (d1 d2 : list (Statement * option Exn)) :
  trace r1 st st1 d1 -> trace r2 st1 st2 d2 -> trace (r1 ++ r2) st st2 (d1 ++ d2).
Proof.
  intros [Hh1 Hd1 Ha1 Ht1 Hc1 Hr1 Hb1 Hch1 Htb1 Hq1]
         [Hh2 Hd2 Ha2 Ht2 Hc2 Hr2 Hb2 Hch2 Htb2 Hq2].
  split.
  - by rewrite Hh2, Hh1, app_assoc.
  - congruence.
  - congruence.
  - rewrite completed_app, sizes_app. lia.
  - congruence.
  - by rewrite Hr2, Hr1, completed_app, concat_app, app_assoc.
  - unfold processed in *. rewrite completed_app, concat_app, omap_app.
    by rewrite <- app_assoc, Hb2, !app_assoc, Hb1.
  - by eapply chain_app.
  - rewrite completed_app. intros Hne.
    destruct (completed d1) as [|x l] eqn:Hcd1; [|by apply Htb1].
    destruct Htb2 as (t1 & Hw1 & Hcols & Hrest); [done|].
    rewrite Hw1 in Hc1.
    destruct (working (Loader.db st)) as [t|]; [|done].
    exists t. split; [done|]. injection Hc1 as Hc1. by rewrite <- Hc1.
  - intros Hab Hb.
    destruct (Hq2 Hab Hb) as (-> & Hbatch1 & Hdb).
    rewrite Hdb in Hab.
    destruct (Hq1 Hab Hbatch1) as (-> & Hbatch0 & Hdb0).
    split; [done|]. split; [done|]. congruence.
Qed.

Lemma trace_rows_of (batch_size : Z) (reader : list RawRecord) (st : Loader.Frame) :
  exists delta, trace reader st (import_rows batch_size st reader) delta.
Proof.
  revert st. induction reader as [|row reader IH]; intros st.
  - exists []. split; cbn; rewrite ?app_nil_r; first [done | lia].
  - destruct (trace_row batch_size st row) as [d1 H1].
    destruct (IH (import_row batch_size st row)) as [d2 H2].
    exists (d1 ++ d2). by apply (trace_app [row] reader _ _ _ _ _ H1 H2).
Qed.


Lemma trace_remaining (st : Loader.Frame) :
  exists delta st',
    Loader.db st' = (Loader.insert_remaining_rows schema st).2 /\
    trace [] st st' delta /\
    match (Loader.insert_remaining_rows schema st).1 with
    | Ok n => n = Loader.total_rows st' /\ Loader.batch st' = []
    | Raise _ => Loader.batch st' <> []
    end.
Proof.
  unfold Loader.insert_remaining_rows.
  destruct (Loader.batch st) as [|r b] eqn:Hb.
  - exists [], st. split; [done|]. split; [|done].
    split; cbn; rewrite ?app_nil_r, ?Hb; first [done | lia].
  - destruct (execute_batch _ _ _) as [[u|e] c] eqn:Hex.
    + apply execute_batch_ok in Hex as (Hab & t & Hw & Hcols & Hnd & Hne & Hacc & ->).
      eexists [(INSERT (column_names schema) (r :: b), None)],
              (Loader.mkFrame (Loader.total_rows st + Py.len (r :: b)) [] _).
      split; [reflexivity|]. split; [|done].
      split; cbn [Loader.db Loader.batch Loader.total_rows history durable
                  accepts working aborted]; rewrite ?Hw, ?Hb; cbn;
        rewrite ?app_nil_r; first [done | lia | idtac].
      intros _. by exists t.
    + apply execute_batch_raise in Hex as ->.
      eexists [(INSERT (column_names schema) (r :: b), Some e)],
              (Loader.mkFrame (Loader.total_rows st) (r :: b) _).
      split; [reflexivity|]. split; [|done].
      split; cbn [Loader.db Loader.batch Loader.total_rows history durable
                  accepts working aborted]; rewrite ?Hb; cbn;
        rewrite ?app_nil_r; first [done | lia].
Qed.

(** The whole of [import_csv_data]: either the file does not open and
    nothing is sent, or the loop and the last insert leave a trace. *)
Lemma import_csv_data_trace (fs : FileSystem) (cursor : DB)
    (csv_file_path : string) (batch_size : Z) :
  let result := Loader.import_csv_data schema process_row fs cursor
                                       csv_file_path batch_size in
  (exists e, open_csv_file fs csv_file_path = Raise e /\
             result = (Raise e, cursor)) \/
  (exists csvfile delta st',
     open_csv_file fs csv_file_path = Ok csvfile /\
     Loader.db st' = result.2 /\
     trace (records csvfile) (Loader.mkFrame 0 [] cursor) st' delta /\
     match result.1 with
     | Ok n => failure csvfile = None /\ n = Loader.total_rows st' /\
               Loader.batch st' = []
     | Raise _ => True
     end).
Proof.
  cbv zeta. unfold Loader.import_csv_data.
  destruct (open_csv_file fs csv_file_path) as [csvfile|e]; [right|left; eauto].
  destruct (trace_rows_of batch_size (records csvfile) (Loader.mkFrame 0 [] cursor))
    as [d1 H1].
  set (st := Loader.import_rows _ _ _ _ _) in *.
  destruct (failure csvfile) as [e|] eqn:Hfail.
  - exists csvfile, d1, st. done.
  - destruct (trace_remaining st) as (d2 & st' & Hdb & H2 & Hres).
    exists csvfile, (d1 ++ d2), st'. split; [done|]. split; [done|].
    split.
    + rewrite <- (app_nil_r (records csvfile)). by eapply trace_app.
    + destruct (Loader.insert_remaining_rows schema st).1; [|done].
      by destruct Hres.
Qed.

End Loop.

(** C10. In [import_csv_data] the row count is, after any number of
    records and in the value returned, the sum of the sizes of the
    [execute_batch] calls that returned.  When a call in the loop raises,
    the count stays, the batch keeps its rows, and the next call, if there
    is one, is made with these rows again. *)
Theorem row_count_is_completed_inserts
    (schema : list (string * string))
    (process_row : RawRecord -> Result TypedRow)
    (fs : FileSystem) (cursor : DB) (csv_file_path : string) (batch_size : Z) :
  (forall reader,
     let st := Loader.import_rows schema process_row batch_size
                                  (Loader.mkFrame 0 [] cursor) reader in
     Loader.total_rows st = sizes (completed (since cursor (Loader.db st)))) /\
  (forall n after,
     Loader.import_csv_data schema process_row fs cursor csv_file_path batch_size
       = (Ok n, after) ->
     n = sizes (completed (since cursor after))) /\
  (forall st row p e c,
     process_row row = Ok p ->
     batch_size <= Py.len (Loader.batch st ++ [p]) ->
     execute_batch (Loader.db st) (column_names schema) (Loader.batch st ++ [p])
       = (Raise e, c) ->
     Loader.import_row schema process_row batch_size st row =
       Loader.mkFrame (Loader.total_rows st) (Loader.batch st ++ [p]) c) /\
  retried (since cursor
             (Loader.import_csv_data schema process_row fs cursor
                                     csv_file_path batch_size).2).
Proof.
  split; [|split; [|split]].
  - intros reader st.
    destruct (trace_rows_of schema process_row batch_size reader
                            (Loader.mkFrame 0 [] cursor)) as [delta Ht].
    fold st in Ht. rewrite (since_app _ _ delta) by apply Ht.
    rewrite (trace_total _ _ _ _ _ _ Ht). cbn. lia.
  - intros n after Hrun.
    destruct (import_csv_data_trace schema process_row fs cursor
                                    csv_file_path batch_size)
      as [(e & _ & He) | (csvfile & delta & st' & _ & Hdb & Ht & Hres)];
      rewrite Hrun in *; [done|].
    cbn in Hdb, Hres. destruct Hres as (_ & -> & _).
    rewrite (since_app _ _ delta) by (rewrite <- Hdb; apply Ht).
    rewrite (trace_total _ _ _ _ _ _ Ht). cbn. lia.
  - intros st row p e c Hp Hlen Hex. unfold Loader.import_row.
    rewrite Hp. cbv zeta. rewrite Hex.
    by destruct (Z.geb_spec (Py.len (Loader.batch st ++ [p])) batch_size); [|lia].
  - destruct (import_csv_data_trace schema process_row fs cursor
                                    csv_file_path batch_size)
      as [(e & _ & ->) | (csvfile & delta & st' & _ & Hdb & Ht & _)].
    + cbn. unfold since. rewrite drop_all. by intros i ?????.
    + rewrite (since_app _ _ delta) by (rewrite <- Hdb; apply Ht).
      eapply chain_retried, Ht.
Qed.

Lemma row_count_is_completed_inserts_witness :
  let run := Per.import_csv_data Per.COLUMN_DEFINITIONS three_people
               (rejects_bob Per.COLUMN_DEFINITIONS) "per/people.csv" 1 in
  raises run.1 = true /\
  map length (attempted (history run.2)) = [1; 1; 2; 2]%nat /\
  map length (completed (history run.2)) = [1]%nat /\
  retried (since (rejects_bob Per.COLUMN_DEFINITIONS) run.2).
Proof.
  cbv zeta. split; [by vm_compute|]. split; [by vm_compute|]. split; [by vm_compute|].
  apply (row_count_is_completed_inserts Per.COLUMN_DEFINITIONS
           (Per.process_row Per.COLUMN_DEFINITIONS) three_people
           (rejects_bob Per.COLUMN_DEFINITIONS) "per/people.csv" 1).
Defined.

(** ** Batching *)

Section Chunks.

Context {A : Type}.
Implicit Types l : list A.

Lemma chunks_fuel_enough (n f1 f2 : nat) l :
  (0 < n)%nat -> (length l <= f1)%nat -> (length l <= f2)%nat ->
  chunks_fuel f1 n l = chunks_fuel f2 n l.
Proof.
  intros Hn. revert f2 l. induction f1 as [|f1 IH]; intros f2 l H1 H2.
  - destruct l; [|cbn in H1; lia]. by destruct f2.
  - destruct l as [|x l]; [by destruct f2|].
    destruct f2 as [|f2]; [cbn in H2; lia|].
    cbn [chunks_fuel]. f_equal.
    apply IH; rewrite length_drop; cbn in *; lia.
Qed.

Lemma chunks_nil (n : nat) : chunks n (@nil A) = [].
Proof. reflexivity. Qed.

(** A full first piece comes off. *)
Lemma chunks_app_full (n : nat) l1 l2 :
  (0 < n)%nat -> length l1 = n -> chunks n (l1 ++ l2) = l1 :: chunks n l2.
Proof.
  intros Hn Hl. unfold chunks.
  destruct l1 as [|x l1]; [cbn in Hl; lia|].
  rewrite length_app. cbn [length Nat.add app chunks_fuel].
  change (x :: l1 ++ l2) with ((x :: l1) ++ l2).
  rewrite take_app_length', drop_app_length' by done.
  f_equal. apply chunks_fuel_enough; [done|cbn; lia|done].
Qed.

(** A list no longer than a piece is one piece. *)
Lemma chunks_short (n : nat) l :
  l <> [] -> (length l <= n)%nat -> chunks n l = [l].
Proof.
  intros Hne Hl. unfold chunks. destruct l as [|x l]; [done|].
  cbn [length chunks_fuel] in *. rewrite take_ge, drop_ge by (cbn; lia).
  by destruct (length l).
Qed.

End Chunks.

Section Batching.

Lemma app_cons_middle {A} (x : A) (l1 l2 : list A) :
  l1 ++ x :: l2 = (l1 ++ [x]) ++ l2.
Proof. by rewrite <- app_assoc. Qed.

Variable schema : list (string * string).
Variable process_row : RawRecord -> Result TypedRow.

Lemma takes_app (cursor : DB) (l1 l2 : list TypedRow) :
  takes schema cursor (l1 ++ l2) ->
  forallb (accepts cursor) l1 = true /\ forallb (accepts cursor) l2 = true.
Proof. intros (_ & _ & _ & _ & H). by rewrite forallb_app, andb_true_iff in H. Qed.

Lemma takes_execute_batch (cursor : DB) (b rest : list TypedRow) :
  takes schema cursor (b ++ rest) ->
  exists c, execute_batch cursor (column_names schema) b = (Ok tt, c) /\
            history c = history cursor ++ [inserted schema b] /\
            takes schema c rest.
Proof.
  intros Htakes. pose proof Htakes as (Hab & (t & Hw & Hcols) & Hnd & Hne & _).
  destruct (takes_app _ _ _ Htakes) as [Hb Hrest].
  unfold inserted. rewrite <- Hcols in Hnd, Hne |- *.
  eexists. split; [by apply execute_batch_healthy|]. split; [done|].
  unfold takes. rewrite <- Hcols. cbn. eauto 10.
Qed.

(** On a cursor that takes every row, the loop and the last insert send
    the pieces of the rows, the batch in hand first. *)
Lemma import_rows_chunks (batch_size : Z) (reader : list RawRecord)
    (st : Loader.Frame) :
  0 < batch_size ->
  Py.len (Loader.batch st) < batch_size ->
  takes schema (Loader.db st) (Loader.batch st ++ processed process_row reader) ->
  (Loader.insert_remaining_rows schema
     (Loader.import_rows schema process_row batch_size st reader)).1
    = Ok (Loader.total_rows st +
          Py.len (Loader.batch st ++ processed process_row reader)) /\
  history
    (Loader.insert_remaining_rows schema
       (Loader.import_rows schema process_row batch_size st reader)).2 =
    history (Loader.db st) ++
    map (inserted schema)
        (chunks (Z.to_nat batch_size)
                (Loader.batch st ++ processed process_row reader)).
Proof.
  intros Hpos. revert st. induction reader as [|row reader IH]; intros st Hlen Htakes.
  - cbn [Loader.import_rows fold_left processed omap] in *.
    rewrite app_nil_r in *. unfold Loader.insert_remaining_rows.
    destruct (Loader.batch st) as [|r b] eqn:Hb.
    + cbn [fst snd]. split; [f_equal; change (Py.len (@nil TypedRow)) with 0; lia|].
      by rewrite chunks_nil, app_nil_r.
    + rewrite <- (app_nil_r (r :: b)) in Htakes.
      apply takes_execute_batch in Htakes as (c & -> & Hh & _).
      cbn [fst snd]. split; [done|].
      rewrite Hh, chunks_short; [done|done|]. unfold Py.len in Hlen. lia.
  - change (Loader.import_rows schema process_row batch_size st (row :: reader))
      with (Loader.import_rows schema process_row batch_size
              (Loader.import_row schema process_row batch_size st row) reader).
    destruct (import_row_cases schema process_row batch_size st row)
      as [(e & Hp & ->) | [(p & Hp & Hlt & ->) | [(p & u & c & Hp & Hge & Hex & ->)
                                                | (p & e & c & Hp & Hge & Hex & _)]]].
    + rewrite (processed_cons_raise _ _ _ e Hp) in *. by apply IH.
    + rewrite (processed_cons_ok _ _ _ p Hp), (app_cons_middle p _ (processed process_row reader)) in Htakes |- *.
      by apply (IH (Loader.mkFrame (Loader.total_rows st)
                                   (Loader.batch st ++ [p]) (Loader.db st))).
    + rewrite (processed_cons_ok _ _ _ p Hp), (app_cons_middle p _ (processed process_row reader)) in Htakes |- *.
      apply takes_execute_batch in Htakes as (c' & Hex' & Hh & Htakes).
      rewrite Hex in Hex'. injection Hex' as _ <-.
      destruct (IH (Loader.mkFrame (Loader.total_rows st +
                                    Py.len (Loader.batch st ++ [p])) [] c))
        as [Hres Hhist]; [unfold Py.len; cbn; lia|done|].
      cbn [Loader.total_rows Loader.batch Loader.db app] in Hres, Hhist.
      split.
      * rewrite Hres. f_equal. rewrite (len_app (_ ++ _)). lia.
      * rewrite Hhist, Hh, <- app_assoc. f_equal.
        rewrite chunks_app_full; [done|lia|].
        unfold Py.len in Hge, Hlen. rewrite length_app in *.
        cbn [length] in *. lia.
    + rewrite (processed_cons_ok _ _ _ p Hp), (app_cons_middle p _ (processed process_row reader)) in Htakes.
      apply takes_execute_batch in Htakes as (c' & Hex' & _).
      rewrite Hex in Hex'. discriminate.
Qed.

End Batching.

(** C7. On a cursor that takes the rows, [import_csv_data] with a batch
    size of at least one sends the coerced rows of the file in pieces of
    exactly [batch_size] rows, each as one [execute_batch] call as soon as
    the batch holds that many, then the shorter rest at the end of the
    file, and returns the number of rows.  With a batch size of 2 and 5
    rows the calls have the sizes 2, 2, 1 and 5 is returned. *)
Theorem batches_are_chunks
    (schema : list (string * string))
    (process_row : RawRecord -> Result TypedRow)
    (fs : FileSystem) (cursor : DB) (csv_file_path : string) (batch_size : Z)
    (csvfile : CsvFile) :
  0 < batch_size ->
  open_csv_file fs csv_file_path = Ok csvfile ->
  failure csvfile = None ->
  takes schema cursor (processed process_row (records csvfile)) ->
  let typed_rows := processed process_row (records csvfile) in
  let run := Loader.import_csv_data schema process_row fs cursor
                                    csv_file_path batch_size in
  run.1 = Ok (Py.len typed_rows) /\
  since cursor run.2 =
    map (inserted schema) (chunks (Z.to_nat batch_size) typed_rows) /\
  (batch_size = 2 -> length typed_rows = 5%nat ->
   run.1 = Ok 5 /\
   map length (attempted (since cursor run.2)) = [2; 2; 1]%nat /\
   map length (completed (since cursor run.2)) = [2; 2; 1]%nat).
Proof.
  intros Hpos Hopen Hfail Htakes typed_rows run.
  destruct (import_rows_chunks schema process_row batch_size (records csvfile)
              (Loader.mkFrame 0 [] cursor)) as [Hres Hhist]; [done|unfold Py.len; cbn; lia|done|].
  cbn [Loader.total_rows Loader.batch Loader.db app] in Hres, Hhist.
  assert (run = Loader.insert_remaining_rows schema
                  (Loader.import_rows schema process_row batch_size
                     (Loader.mkFrame 0 [] cursor) (records csvfile))) as Hrun.
  { unfold run, Loader.import_csv_data. by rewrite Hopen, Hfail. }
  rewrite Hrun, Hres. fold typed_rows.
  rewrite (since_app _ _ _ Hhist). fold typed_rows.
  split; [f_equal; lia|]. split; [done|].
  intros -> Hfive. unfold Py.len. rewrite Hfive. split; [done|].
  destruct typed_rows as [|r1 [|r2 [|r3 [|r4 [|r5 [|]]]]]]; try done.
Qed.

Lemma batches_are_chunks_witness :
  let run := Per.import_csv_data Per.COLUMN_DEFINITIONS five_people
               (empty_table Per.COLUMN_DEFINITIONS) "per/five.csv" 2 in
  run.1 = Ok 5 /\
  map length (attempted (since (empty_table Per.COLUMN_DEFINITIONS) run.2))
    = [2; 2; 1]%nat.
Proof.
  cbv zeta.
  assert (0 < 2) as Hpos by lia.
  assert (takes Per.COLUMN_DEFINITIONS (empty_table Per.COLUMN_DEFINITIONS)
            (processed (Per.process_row Per.COLUMN_DEFINITIONS)
               (records (mkCsvFile [person "u/ann" "Ann" "1"; person "u/bob" "Bob" "2";
                               person "u/cy" "Cy" "3"; person "u/dee" "Dee" "4";
                               person "u/eve" "Eve" "5"] None)))) as Htakes.
  { split; [reflexivity|]. split; [eexists; split; reflexivity|].
    split; [apply (bool_decide_unpack _); by vm_compute|].
    split; [discriminate|]. by vm_compute. }
  destruct (batches_are_chunks Per.COLUMN_DEFINITIONS
              (Per.process_row Per.COLUMN_DEFINITIONS) five_people
              (empty_table Per.COLUMN_DEFINITIONS) "per/five.csv" 2 _
              Hpos eq_refl eq_refl Htakes) as (_ & _ & Hfive).
  destruct (Hfive eq_refl) as (Hres & Hsent & _); [by vm_compute|].
  split; [exact Hres|exact Hsent].
Defined.

(** ** The duplicate guard *)

Section Guard.

Lemma for_columns_length (f : string -> string -> Result PyValue)
    (schema : list (string * string)) (acc r : list PyValue) :
  for_columns f schema acc = Ok r ->
  length r = (length acc + length schema)%nat.
Proof.
  revert acc. induction schema as [|[col_name col_type] schema IH]; intros acc.
  - intros [= ->]. cbn. lia.
  - cbn [for_columns]. destruct (f col_name col_type); [|done].
    intros ->%IH. rewrite length_app. cbn. lia.
Qed.

Lemma process_row_length (schema : list (string * string)) (row : RawRecord)
    (r : TypedRow) :
  Per.process_row schema row = Ok r -> length r = length (column_names schema).
Proof.
  intros ->%for_columns_length. unfold column_names. by rewrite length_fmap.
Qed.

(** The loop over [enumerate(processed_row)] builds the probe. *)
Lemma where_clause_pieces_probe (columns : list string) (i : nat) (r : TypedRow) :
  (i + length r <= length columns)%nat ->
  Per.where_clause_pieces columns i r = Ok (probe (drop i columns) r).
Proof.
  revert i. induction r as [|value r IH]; intros i Hlen.
  - unfold probe. by destruct (drop i columns).
  - cbn [Per.where_clause_pieces length] in *.
    destruct (columns !! i) as [col|] eqn:Hi;
      [|apply lookup_ge_None in Hi; lia].
    rewrite IH by lia. rewrite (drop_S _ _ _ Hi). unfold probe, piece. cbn.
    by destruct value.
Qed.

Lemma where_clause_of_processed (schema : list (string * string))
    (row : RawRecord) (r : TypedRow) :
  Per.process_row schema row = Ok r ->
  Per.where_clause_pieces (column_names schema) 0 r =
    Ok (probe (column_names schema) r).
Proof.
  intros Hr%process_row_length.
  rewrite where_clause_pieces_probe by lia. by rewrite drop_0.
Qed.

(** The SELECT of the guard returns a row exactly when the probe finds
    one; in every other case it raises or returns nothing. *)
Lemma select_finds (cursor : DB) (where_sql : list Predicate) :
  (exists u c row c', execute cursor (SELECT_1_WHERE where_sql) = (Ok u, c) /\
                      fetchone c = (Some row, c')) <->
  probe_finds cursor where_sql.
Proof.
  unfold probe_finds, execute, effect.
  destruct (aborted cursor).
  { split; [by intros (? & ? & ? & ? & ? & _)|by intros [? _]]. }
  destruct where_sql as [|p where_sql].
  { split; [by intros (? & ? & ? & ? & ? & _)|by intros (_ & ? & _ & ? & _)]. }
  destruct (working cursor) as [t|].
  2: { split; [by intros (? & ? & ? & ? & ? & _)|by intros (_ & ? & ? & _)]. }
  set (w := p :: where_sql).
  destruct (forallb (fun p => bool_decide (column_of p ∈ columns t)) w) eqn:Hcols.
  - rewrite forallb_forall in Hcols.
    destruct (filter (fun row => Is_true (satisfies t w row)) (rows t))
      as [|found others] eqn:Hfilter.
    + split.
      * intros (u & c & row & c' & [= _ <-] & Hfetch). by cbn in Hfetch.
      * intros (_ & t' & [= <-] & _ & _ & row & Hin & Hsat).
        assert (row ∈ filter (fun row => Is_true (satisfies t w row)) (rows t)) as Hf
          by (apply list_elem_of_filter; split; [by apply Is_true_true|done]).
        rewrite Hfilter in Hf. by apply elem_of_nil in Hf.
    + split.
      * intros _. split; [done|]. exists t. split; [done|]. split; [done|].
        split.
        { intros q Hq. apply list_elem_of_In, Hcols in Hq.
          by apply bool_decide_eq_true in Hq. }
        assert (found ∈ filter (fun row => Is_true (satisfies t w row)) (rows t))
          as [Hsat Hin]%list_elem_of_filter by (rewrite Hfilter; left).
        exists found. split; [done|]. by apply Is_true_true.
      * intros _. do 4 eexists. split; [reflexivity|].
        reflexivity.
  - split; [by intros (? & ? & ? & ? & ? & _)|].
    intros (_ & t' & [= <-] & _ & Hall & _).
    apply not_true_iff_false in Hcols. destruct Hcols.
    apply forallb_forall. intros q Hq%list_elem_of_In.
    by apply bool_decide_eq_true, Hall.
Qed.

(** When the guard answers True. *)
Lemma guard_answer (schema : list (string * string)) (fs : FileSystem)
    (cursor : DB) (csv_file_path : string) :
  (Per.is_csv_file_imported schema fs cursor csv_file_path).1 = true <->
  exists csvfile row rest processed_row,
    open_csv_file fs csv_file_path = Ok csvfile /\
    records csvfile = row :: rest /\
    Per.process_row schema row = Ok processed_row /\
    probe_finds cursor (probe (column_names schema) processed_row).
Proof.
  unfold Per.is_csv_file_imported.
  destruct (open_csv_file fs csv_file_path) as [csvfile|e] eqn:Hopen.
  2: { split; [done|]. by intros (? & ? & ? & ? & ? & _). }
  destruct (records csvfile) as [|row rest] eqn:Hrecords.
  { split; [by destruct (failure csvfile)|].
    intros (? & ? & ? & ? & [= <-] & ? & _). congruence. }
  destruct (Per.process_row schema row) as [r|e] eqn:Hrow.
  2: { split; [done|].
       intros (? & ? & ? & ? & [= <-] & ? & ? & _). congruence. }
  rewrite (where_clause_of_processed schema row r Hrow).
  pose proof (select_finds cursor (probe (column_names schema) r)) as Hselect.
  destruct (execute cursor _) as [[u|e] c] eqn:Hex.
  - destruct (fetchone c) as [[found|] c'] eqn:Hfetch.
    + split; [|done]. intros _. exists csvfile, row, rest, r.
      repeat (split; [done|]). apply Hselect. eauto 10.
    + split; [done|].
      intros (? & ? & ? & ? & [= <-] & Hr & Hp & Hfinds).
      rewrite Hrecords in Hr. injection Hr as <- <-.
      rewrite Hrow in Hp. injection Hp as <-.
      apply Hselect in Hfinds as (? & ? & ? & ? & [= _ <-] & Hf). congruence.
  - split; [done|].
    intros (? & ? & ? & ? & [= <-] & Hr & Hp & Hfinds).
    rewrite Hrecords in Hr. injection Hr as <- <-.
    rewrite Hrow in Hp. injection Hp as <-.
    by apply Hselect in Hfinds as (? & ? & ? & ? & ? & _).
Qed.

End Guard.

(** C5. [is_csv_file_imported] answers True exactly when the file opens,
    has a first record, that record coerces under the schema, and the
    probe built from the coerced row (column = value for a value, column
    IS NULL for NULL, joined by AND) runs and finds a row.  Only the
    first record counts.  It answers False for a file without records,
    for a file that does not open, and when the probe raises; it never
    raises itself. *)
Theorem is_csv_file_imported_spec
    (schema : list (string * string)) (fs : FileSystem) (cursor : DB)
    (csv_file_path : string) :
  let answer := (Per.is_csv_file_imported schema fs cursor csv_file_path).1 in
  (answer = true <->
   exists csvfile row rest processed_row,
     open_csv_file fs csv_file_path = Ok csvfile /\
     records csvfile = row :: rest /\
     Per.process_row schema row = Ok processed_row /\
     probe_finds cursor (probe (column_names schema) processed_row)) /\
  (forall csvfile,
     open_csv_file fs csv_file_path = Ok csvfile -> records csvfile = [] ->
     answer = false) /\
  (forall e, open_csv_file fs csv_file_path = Raise e -> answer = false) /\
  (forall csvfile row rest processed_row,
     open_csv_file fs csv_file_path = Ok csvfile ->
     records csvfile = row :: rest ->
     Per.process_row schema row = Ok processed_row ->
     raises (execute cursor
               (SELECT_1_WHERE (probe (column_names schema) processed_row))).1
       = true ->
     answer = false).
Proof.
  cbv zeta.
  pose proof (guard_answer schema fs cursor csv_file_path) as Htrue.
  split; [exact Htrue|]. split; [|split].
  - intros csvfile Hopen Hrecords. apply not_true_is_false.
    intros (? & ? & ? & ? & Hopen' & Hrecords' & _)%Htrue.
    rewrite Hopen in Hopen'. injection Hopen' as <-. congruence.
  - intros e Hopen. apply not_true_is_false.
    intros (? & ? & ? & ? & Hopen' & _)%Htrue. congruence.
  - intros csvfile row rest r Hopen Hrecords Hrow Hraises.
    apply not_true_is_false.
    intros (? & ? & ? & ? & Hopen' & Hrecords' & Hrow' & Hfinds)%Htrue.
    rewrite Hopen in Hopen'. injection Hopen' as <-.
    rewrite Hrecords in Hrecords'. injection Hrecords' as <- <-.
    rewrite Hrow in Hrow'. injection Hrow' as <-.
    apply select_finds in Hfinds as (u & c & found & c' & Hex & _).
    by rewrite Hex in Hraises.
Qed.

Lemma is_csv_file_imported_spec_witness :
  (Per.is_csv_file_imported Per.COLUMN_DEFINITIONS three_people holds_ann
                            "per/people.csv").1 = true.
Proof.
  apply (proj1 (is_csv_file_imported_spec Per.COLUMN_DEFINITIONS three_people
                  holds_ann "per/people.csv")).
  eexists _, (person "u/ann" "Ann" "1"), _, ann_row.
  split; [reflexivity|]. split; [reflexivity|]. split; [by vm_compute|].
  split; [reflexivity|]. eexists. split; [reflexivity|].
  split; [discriminate|]. split.
  - apply Forall_forall. apply (bool_decide_unpack _). by vm_compute.
  - exists ann_row. split; [left|by vm_compute].
Defined.

(** ** Importing a file again *)

Section Again.

Lemma column_of_piece (col : string) (value : PyValue) :
  column_of (piece col value) = col.
Proof. by destruct value. Qed.

Lemma list_find_NoDup (cols : list string) (i : nat) (col : string) :
  NoDup cols -> cols !! i = Some col ->
  list_find (fun c => c = col) cols = Some (i, col).
Proof.
  intros Hnd Hi. apply list_find_Some. split; [done|]. split; [done|].
  intros j y Hj Hlt ->.
  pose proof (NoDup_lookup _ _ _ _ Hnd Hi Hj). lia.
Qed.

Lemma holds_piece (t : Table) (r : TypedRow) (i : nat) (col : string)
    (value : PyValue) :
  NoDup (columns t) -> columns t !! i = Some col -> r !! i = Some value ->
  holds t r (piece col value) = true.
Proof.
  intros Hnd Hc Hv.
  assert (field t r col = value) as Hfield.
  { unfold field. by rewrite (list_find_NoDup _ i col), Hv. }
  destruct value; cbn; rewrite Hfield;
    by rewrite ?bool_decide_eq_true_2.
Qed.

(** The probe of a row is satisfied by that row, stored in a table with
    the columns of the probe. *)
Lemma probe_matches_own_row (t : Table) (r : TypedRow) :
  NoDup (columns t) -> satisfies t (probe (columns t) r) r = true.
Proof.
  intros Hnd. unfold satisfies, probe. apply forallb_forall.
  intros p Hp%list_elem_of_In.
  apply list_elem_of_lookup in Hp as [i Hi].
  apply lookup_zip_with_Some in Hi as (col & value & -> & Hc & Hv).
  by eapply holds_piece.
Qed.

Lemma probe_columns (cols : list string) (r : TypedRow) (p : Predicate) :
  p ∈ probe cols r -> column_of p ∈ cols.
Proof.
  intros [i Hi]%list_elem_of_lookup.
  apply lookup_zip_with_Some in Hi as (col & value & -> & Hc & Hv).
  rewrite column_of_piece. by eapply list_elem_of_lookup_2.
Qed.

Lemma probe_nonempty (cols : list string) (r : TypedRow) :
  cols <> [] -> length r = length cols -> probe cols r <> [].
Proof. by destruct cols, r. Qed.

(** A stored row of the schema is found by its own probe. *)
Lemma stored_row_found (schema : list (string * string)) (cursor : DB)
    (t : Table) (row : RawRecord) (r : TypedRow) :
  aborted cursor = false -> working cursor = Some t ->
  columns t = column_names schema -> NoDup (column_names schema) ->
  column_names schema <> [] ->
  Per.process_row schema row = Ok r -> r ∈ rows t ->
  probe_finds cursor (probe (column_names schema) r).
Proof.
  intros Hab Hw Hcols Hnd Hne Hr%process_row_length Hin. split; [done|].
  exists t. split; [done|]. rewrite <- Hcols in *.
  split; [by apply probe_nonempty|].
  split; [apply probe_columns|].
  exists r. split; [done|]. by apply probe_matches_own_row.
Qed.

Lemma effect_select (c : DB) (where_sql : list Predicate) (w : option Table)
    (returned : list TypedRow) :
  effect c (SELECT_1_WHERE where_sql) = Ok (w, returned) -> w = working c.
Proof.
  unfold effect. destruct where_sql; [done|].
  destruct (working c); [|done]. case_match; [|done]. by intros [= <- _].
Qed.

(** The guard sends at most its SELECT: it leaves the table as it is,
    committed or not, and inserts nothing. *)
Lemma guard_cursor (schema : list (string * string)) (fs : FileSystem)
    (cursor : DB) (csv_file_path : string) :
  let c := (Per.is_csv_file_imported schema fs cursor csv_file_path).2 in
  durable c = durable cursor /\ working c = working cursor /\
  accepts c = accepts cursor /\ attempted (since cursor c) = [].
Proof.
  assert (attempted (since cursor cursor) = []) as Hsame
    by (unfold since; by rewrite drop_all).
  cbv zeta. unfold Per.is_csv_file_imported.
  destruct (open_csv_file fs csv_file_path) as [csvfile|]; [|done].
  destruct (records csvfile) as [|row rest]; [by destruct (failure csvfile)|].
  destruct (Per.process_row schema row) as [r|]; [|done].
  destruct (Per.where_clause_pieces _ _ _) as [where_sql|]; [|done].
  destruct (execute cursor _) as [[u|e] c] eqn:Hex.
  - apply execute_ok in Hex as (_ & w & returned & ->%effect_select & ->).
    unfold fetchone. cbn [fetched].
    destruct returned; cbn;
      by rewrite (since_app cursor _ [(SELECT_1_WHERE where_sql, None)]).
  - apply execute_raise in Hex as ->. cbn.
    by rewrite (since_app cursor _ [(SELECT_1_WHERE where_sql, Some e)]).
Qed.

(** A file with a first record that coerces, once imported, is in the
    table: the transaction is healthy and the first row is stored. *)
Lemma imported_first_row (schema : list (string * string)) (fs : FileSystem)
    (cursor : DB) (csv_file_path : string) (batch_size n : Z) (after : DB)
    (csvfile : CsvFile) (row : RawRecord) (rest : list RawRecord) (r : TypedRow) :
  Per.import_csv_data schema fs cursor csv_file_path batch_size = (Ok n, after) ->
  open_csv_file fs csv_file_path = Ok csvfile ->
  records csvfile = row :: rest ->
  Per.process_row schema row = Ok r ->
  aborted after = false /\
  exists t, working after = Some t /\ columns t = column_names schema /\
            NoDup (column_names schema) /\ column_names schema <> [] /\
            r ∈ rows t.
Proof.
  intros Hrun Hopen Hrecords Hr.
  destruct (import_csv_data_trace schema (Per.process_row schema) fs cursor
                                  csv_file_path batch_size)
    as [(e & _ & He) | (csvfile' & delta & st' & Hopen' & Hdb & Ht & Hres)];
    unfold Per.import_csv_data in Hrun; rewrite Hrun in *; [done|].
  rewrite Hopen in Hopen'. injection Hopen' as <-.
  cbn [fst snd] in Hdb, Hres. destruct Hres as (_ & _ & Hbatch).
  pose proof (trace_batch _ _ _ _ _ _ Ht) as Hb.
  rewrite Hbatch, app_nil_r, Hrecords, (processed_cons_ok _ _ _ r Hr) in Hb.
  cbn [Loader.batch app] in Hb.
  assert (completed delta <> []) as Hne by (intros Hc; by rewrite Hc in Hb).
  destruct (trace_table _ _ _ _ _ _ Ht Hne) as (t0 & Hw0 & Hcols & Hnd & Hnonempty).
  pose proof (trace_columns _ _ _ _ _ _ Ht) as Hc.
  pose proof (trace_rows _ _ _ _ _ _ Ht) as Hrows.
  rewrite Hdb in Hc, Hrows. cbn [Loader.db] in Hc, Hrows, Hw0.
  rewrite Hw0 in Hc, Hrows.
  split.
  - destruct (aborted after) eqn:Hab; [|done].
    rewrite <- Hdb in Hab.
    by destruct (trace_quiet _ _ _ _ _ _ Ht Hab Hbatch) as (-> & _).
  - destruct (working after) as [t|]; [|done].
    injection Hc as Hc. exists t. split; [done|]. split; [congruence|].
    split; [done|]. split; [done|].
    cbn in Hrows. rewrite Hrows, Hb. apply elem_of_app. right. left.
Qed.

End Again.

(** C6 (amended). A file whose first record coerces and whose first
    import by [import_multiple_files] completes is skipped by a second
    import: the guard is asked, the file is logged as skipped, nothing is
    added to the row count, no insert is sent and the table stays as it
    is.  A file without records is not skipped: it is read again, and
    again adds no row and sends no insert. *)
Theorem second_import_is_skipped
    (schema : list (string * string)) (fs : FileSystem) (cursor : DB)
    (csv_file : string) (batch_size : Z) (csvfile : CsvFile) :
  open_csv_file fs csv_file = Ok csvfile ->
  let run1 := Per.import_multiple_files schema fs cursor [csv_file] batch_size in
  let run2 := Per.import_multiple_files schema fs (Loader.run_cursor run1)
                                        [csv_file] batch_size in
  (forall row rest processed_row n,
     records csvfile = row :: rest ->
     Per.process_row schema row = Ok processed_row ->
     Loader.run_log run1 = [Imported csv_file n] ->
     (Per.is_csv_file_imported schema fs (Loader.run_cursor run1) csv_file).1
       = true /\
     Loader.run_log run2 = [Skipping csv_file] /\
     Loader.run_total run2 = 0 /\
     attempted (since (Loader.run_cursor run1) (Loader.run_cursor run2)) = [] /\
     working (Loader.run_cursor run2) = working (Loader.run_cursor run1) /\
     durable (Loader.run_cursor run2) = durable (Loader.run_cursor run1)) /\
  (records csvfile = [] -> failure csvfile = None ->
     Loader.run_log run1 = [Imported csv_file 0] /\
     Loader.run_log run2 = [Imported csv_file 0] /\
     Loader.run_total run2 = 0 /\
     attempted (since cursor (Loader.run_cursor run2)) = []).
Proof.
  intros Hopen run1 run2. split.
  - intros row rest r n Hrecords Hr Hlog.
    assert (exists c m, Loader.run_cursor run1 = commit c /\
              Per.import_csv_data schema fs
                (Per.is_csv_file_imported schema fs cursor csv_file).2
                csv_file batch_size = (Ok m, c)) as (c & m & Hc & Hrun).
    { revert Hlog. unfold run1, Per.import_multiple_files. cbn [fold_left].
      unfold Per.import_file. cbn [Loader.run_cursor Loader.run_log Loader.run_total].
      destruct (Per.is_csv_file_imported _ _ _ _) as [[] c1]; [done|].
      cbn [snd].
      destruct (Per.import_csv_data _ _ _ _ _) as [[m|e] c]; [|done].
      intros _. by exists c, m. }
    destruct (imported_first_row _ _ _ _ _ _ _ _ _ _ _ Hrun Hopen Hrecords Hr)
      as (Hab & t & Hw & Hcols & Hnd & Hne & Hin).
    assert ((Per.is_csv_file_imported schema fs (Loader.run_cursor run1)
                                      csv_file).1 = true) as Hguard.
    { apply guard_answer.
      exists csvfile, row, rest, r. repeat (split; [done|]).
      rewrite Hc. unfold commit. rewrite Hab.
      by apply (stored_row_found schema _ t row). }
    split; [done|].
    pose proof (guard_cursor schema fs (Loader.run_cursor run1) csv_file)
      as (Hd & Hwork & _ & Hatt).
    unfold run2, Per.import_multiple_files. cbn [fold_left].
    unfold Per.import_file. cbn [Loader.run_cursor Loader.run_log Loader.run_total].
    destruct (Per.is_csv_file_imported schema fs (Loader.run_cursor run1) csv_file)
      as [answer c3]. cbn [fst snd] in *. subst answer. done.
  - intros Hrecords Hfail.
    assert (run1 = Loader.mkRun 0 [Imported csv_file 0] (commit cursor)) as ->.
    { unfold run1, Per.import_multiple_files, Per.import_file,
        Per.is_csv_file_imported, Per.import_csv_data, Loader.import_csv_data.
      cbn [fold_left]. by rewrite Hopen, Hrecords, Hfail. }
    assert (run2 = Loader.mkRun 0 [Imported csv_file 0] (commit (commit cursor)))
      as ->.
    { unfold run2, Per.import_multiple_files, Per.import_file,
        Per.is_csv_file_imported, Per.import_csv_data, Loader.import_csv_data.
      cbn [fold_left Loader.run_cursor]. by rewrite Hopen, Hrecords, Hfail. }
    cbn [Loader.run_log Loader.run_total Loader.run_cursor].
    repeat (split; [done|]).
    rewrite (since_app cursor _ [(COMMIT, None); (COMMIT, None)]); [done|].
    unfold commit. destruct (aborted cursor); cbn; by rewrite <- app_assoc.
Qed.

Lemma second_import_is_skipped_witness :
  let run1 := Per.import_multiple_files Per.COLUMN_DEFINITIONS three_people
                (empty_table Per.COLUMN_DEFINITIONS) ["per/people.csv"] 2 in
  let run2 := Per.import_multiple_files Per.COLUMN_DEFINITIONS three_people
                (Loader.run_cursor run1) ["per/people.csv"] 2 in
  Loader.run_log run1 = [Imported "per/people.csv" 3] /\
  Loader.run_log run2 = [Skipping "per/people.csv"] /\
  Loader.run_total run2 = 0.
Proof.
  cbv zeta. split; [by vm_compute|].
  refine (let H := proj1 (second_import_is_skipped Per.COLUMN_DEFINITIONS
                            three_people (empty_table Per.COLUMN_DEFINITIONS)
                            "per/people.csv" 2 _ eq_refl)
                     (person "u/ann" "Ann" "1") _ ann_row 3 eq_refl _ _ in
          conj (proj1 (proj2 H)) (proj1 (proj2 (proj2 H))));
    by vm_compute.
Defined.

(** C6 (counterexample). A file that holds only its header is imported
    twice by the person loader: the second import is logged as an import
    of no rows, not as skipped. *)
Lemma header_only_file_is_not_skipped :
  let run1 := Per.import_multiple_files Per.COLUMN_DEFINITIONS header_only
                (empty_table Per.COLUMN_DEFINITIONS) ["per/empty.csv"] 1000 in
  let run2 := Per.import_multiple_files Per.COLUMN_DEFINITIONS header_only
                (Loader.run_cursor run1) ["per/empty.csv"] 1000 in
  Loader.run_log run1 = [Imported "per/empty.csv" 0] /\
  (Per.is_csv_file_imported Per.COLUMN_DEFINITIONS header_only
     (Loader.run_cursor run1) "per/empty.csv").1 = false /\
  Loader.run_log run2 = [Imported "per/empty.csv" 0] /\
  Loader.run_log run2 <> [Skipping "per/empty.csv"].
Proof. cbv zeta. by vm_compute. Qed.

(** The same import repeated on a file whose first record does not coerce
    (its RN field reads inf, which [parse_integer] lets raise): the
    guard answers False both times and the second record is stored twice. *)
Example first_record_raising_is_imported_twice :
  let run1 := Per.import_multiple_files Per.COLUMN_DEFINITIONS overflowing
                (empty_table Per.COLUMN_DEFINITIONS) ["per/inf.csv"] 1000 in
  let run2 := Per.import_multiple_files Per.COLUMN_DEFINITIONS overflowing
                (Loader.run_cursor run1) ["per/inf.csv"] 1000 in
  Loader.run_log run1 = [Imported "per/inf.csv" 1] /\
  Loader.run_log run2 = [Imported "per/inf.csv" 1] /\
  Per.process_row Per.COLUMN_DEFINITIONS (person "u/cy" "Cy" "3") = Ok cy_row /\
  table_rows (durable (Loader.run_cursor run2)) = [cy_row; cy_row].
Proof. cbv zeta. by vm_compute. Qed.

(** ** Commits *)

Section Commits.

Variable schema : list (string * string).
Variable process_row : RawRecord -> Result TypedRow.

(** [import_csv_data] sends no commit: the committed table is the same
    after it, the batches that were inserted are in the open transaction. *)
Lemma import_csv_data_pending (fs : FileSystem) (cursor : DB)
    (csv_file_path : string) (batch_size : Z) :
  let after := (Loader.import_csv_data schema process_row fs cursor
                                       csv_file_path batch_size).2 in
  durable after = durable cursor /\
  table_rows (working after) =
    table_rows (working cursor) ++ concat (completed (since cursor after)).
Proof.
  cbv zeta.
  destruct (import_csv_data_trace schema process_row fs cursor
                                  csv_file_path batch_size)
    as [(e & _ & ->) | (csvfile & delta & st' & _ & <- & Ht & _)].
  - cbn. unfold since. by rewrite drop_all, app_nil_r.
  - rewrite (since_app _ _ delta) by apply Ht.
    split; [apply Ht|apply Ht].
Qed.

(** An import that returns on a healthy transaction leaves it healthy. *)
Lemma import_csv_data_healthy (fs : FileSystem) (cursor : DB)
    (csv_file_path : string) (batch_size n : Z) (after : DB) :
  Loader.import_csv_data schema process_row fs cursor csv_file_path batch_size
    = (Ok n, after) ->
  aborted cursor = false -> aborted after = false.
Proof.
  intros Hrun Hab.
  destruct (import_csv_data_trace schema process_row fs cursor
                                  csv_file_path batch_size)
    as [(e & _ & He) | (csvfile & delta & st' & _ & Hdb & Ht & Hres)];
    rewrite Hrun in *; [done|].
  cbn [fst snd] in *. destruct Hres as (_ & _ & Hbatch).
  destruct (aborted after) eqn:Hafter; [|done].
  rewrite <- Hdb in Hafter.
  destruct (trace_quiet _ _ _ _ _ _ Ht Hafter Hbatch) as (_ & _ & Heq).
  cbn in Heq. congruence.
Qed.

End Commits.

(** C3 (amended). [import_csv_data] never commits: whether it returns or
    raises, the committed table is the one from before the file and every
    batch it inserted is only pending in the open transaction.  The run
    commits once after a file whose import returned; after a file whose
    import raised it neither commits nor rolls back.  So the rows such a
    file had inserted are not durable when it fails, and the commit of the
    next file that is imported makes them durable together with its own. *)
Theorem file_is_the_commit_boundary
    (schema : list (string * string)) (fs : FileSystem) (batch_size : Z)
    (run : Loader.Run) (csv_file : string) :
  let cursor := Loader.run_cursor run in
  (forall process_row,
     let after := (Loader.import_csv_data schema process_row fs cursor
                                          csv_file batch_size).2 in
     durable after = durable cursor /\
     table_rows (working after) =
       table_rows (working cursor) ++ concat (completed (since cursor after))) /\
  (let imported := Csv.import_csv_data schema fs cursor csv_file batch_size in
   Loader.run_cursor (Csv.import_file schema fs batch_size run csv_file) =
     if raises imported.1 then imported.2 else commit imported.2) /\
  (let probed := Per.is_csv_file_imported schema fs cursor csv_file in
   let imported := Per.import_csv_data schema fs probed.2 csv_file batch_size in
   durable probed.2 = durable cursor /\
   Loader.run_cursor (Per.import_file schema fs batch_size run csv_file) =
     if probed.1 then probed.2
     else if raises imported.1 then imported.2 else commit imported.2) /\
  (forall c, durable (commit c) = if aborted c then durable c else working c) /\
  (forall next n,
     let run1 := Csv.import_file schema fs batch_size run csv_file in
     let cursor1 := Loader.run_cursor run1 in
     let run2 := Csv.import_file schema fs batch_size run1 next in
     raises (Csv.import_csv_data schema fs cursor csv_file batch_size).1 = true ->
     aborted cursor1 = false ->
     (Csv.import_csv_data schema fs cursor1 next batch_size).1 = Ok n ->
     durable cursor1 = durable cursor /\
     table_rows (durable (Loader.run_cursor run2)) =
       table_rows (working cursor)
       ++ concat (completed (since cursor cursor1))
       ++ concat (completed
                    (since cursor1
                       (Csv.import_csv_data schema fs cursor1 next batch_size).2))).
Proof.
  cbv zeta. split; [|split; [|split; [|split]]].
  - intros process_row. apply import_csv_data_pending.
  - unfold Csv.import_file.
    by destruct (Csv.import_csv_data _ _ _ _ _) as [[n|e] after].
  - split; [apply guard_cursor|]. unfold Per.import_file.
    destruct (Per.is_csv_file_imported _ _ _ _) as [[] probed]; [done|].
    by destruct (Per.import_csv_data _ _ _ _ _) as [[n|e] after].
  - intros c. unfold commit. by destruct (aborted c).
  - intros next n Hraised.
    pose proof (import_csv_data_pending schema (Csv.process_row schema) fs
                  (Loader.run_cursor run) csv_file batch_size) as [Hd1 Hw1].
    cbv zeta in Hd1, Hw1. fold (Csv.import_csv_data schema) in Hd1, Hw1.
    assert (Loader.run_cursor (Csv.import_file schema fs batch_size run csv_file)
            = (Csv.import_csv_data schema fs (Loader.run_cursor run) csv_file
                                   batch_size).2) as Hc1.
    { unfold Csv.import_file.
      by destruct (Csv.import_csv_data _ _ _ _ _) as [[m|e] after]. }
    rewrite Hc1.
    set (cursor1 := (Csv.import_csv_data schema fs (Loader.run_cursor run)
                                         csv_file batch_size).2) in *.
    intros Hab Hnext. split; [done|].
    pose proof (import_csv_data_pending schema (Csv.process_row schema) fs
                  cursor1 next batch_size) as [_ Hw2].
    cbv zeta in Hw2. fold (Csv.import_csv_data schema) in Hw2.
    unfold Csv.import_file at 1. rewrite Hc1. fold cursor1.
    destruct (Csv.import_csv_data schema fs cursor1 next batch_size)
      as [[m|e] after] eqn:Hrun; [|done].
    cbn [Loader.run_cursor fst snd] in *.
    unfold commit.
    rewrite (import_csv_data_healthy schema (Csv.process_row schema) fs cursor1
               next batch_size m after Hrun Hab).
    cbn [durable]. by rewrite Hw2, Hw1, app_assoc.
Qed.

Lemma file_is_the_commit_boundary_witness :
  let run := Loader.mkRun 0 [] (empty_table Csv.COLUMN_DEFINITIONS) in
  let run1 := Csv.import_file Csv.COLUMN_DEFINITIONS broken_then_sound 2
                              run "per/a.csv" in
  let run2 := Csv.import_file Csv.COLUMN_DEFINITIONS broken_then_sound 2
                              run1 "per/b.csv" in
  durable (Loader.run_cursor run1) = durable (Loader.run_cursor run) /\
  length (table_rows (durable (Loader.run_cursor run2))) = 3%nat.
Proof.
  cbv zeta.
  destruct (proj2 (proj2 (proj2 (proj2
              (file_is_the_commit_boundary Csv.COLUMN_DEFINITIONS
                 broken_then_sound 2
                 (Loader.mkRun 0 [] (empty_table Csv.COLUMN_DEFINITIONS))
                 "per/a.csv")))) "per/b.csv" 1) as [Hdurable Hrows];
    [by vm_compute..|].
  split; [exact Hdurable|]. rewrite Hrows. by vm_compute.
Defined.

(** C3 (counterexample). The first file breaks after its third record,
    when its first two rows have been inserted as one batch; the second
    file is imported and committed.  The committed table then holds the
    two rows of the file that failed. *)
Lemma partial_file_becomes_durable :
  let run := Per.import_multiple_files Per.COLUMN_DEFINITIONS broken_then_sound
               (empty_table Per.COLUMN_DEFINITIONS)
               ["per/a.csv"; "per/b.csv"] 2 in
  Loader.run_log run = [Failed "per/a.csv" ReadError; Imported "per/b.csv" 1] /\
  table_rows (durable (Loader.run_cursor run)) =
    processed (Per.process_row Per.COLUMN_DEFINITIONS)
      [person "u/ann" "Ann" "1"; person "u/bob" "Bob" "2"; person "u/dee" "Dee" "4"] /\
  ann_row ∈ table_rows (durable (Loader.run_cursor run)).
Proof.
  cbv zeta. split; [by vm_compute|]. split; [by vm_compute|].
  apply (bool_decide_unpack _). by vm_compute.
Qed.

(** ** Table provisioning *)

Section Provisioning.

(** Over an existing table the CREATE TABLE of the person loader raises;
    the table is left as it is. *)
Lemma per_create_table_existing (schema : list (string * string)) (cursor : DB)
    (t : Table) :
  schema <> [] -> aborted cursor = false -> working cursor = Some t ->
  Per.create_table schema cursor =
    (Raise DuplicateTable,
     mkDB (durable cursor) (working cursor) true (accepts cursor) []
          (history cursor ++ [(CREATE_TABLE schema, Some DuplicateTable)])).
Proof.
  intros Hne Hab Hw. unfold Per.create_table, execute, effect.
  rewrite Hab, Hw. by destruct schema.
Qed.

(** A run of the person loader on a server that has the table stops at
    CREATE TABLE with exit status 1, whatever the folder holds: nothing
    is dropped and nothing is imported. *)
Lemma per_main_existing (schema indexes : list (string * string))
    (fs : FileSystem) (folder : string) (server : DB) (t : Table) :
  schema <> [] -> durable server = Some t ->
  exists server',
    Per.main schema indexes fs folder server = (1, [], server') /\
    durable server' = Some t /\
    attempted (since server server') = [].
Proof.
  intros Hne Hd. unfold Per.main.
  rewrite (per_create_table_existing schema (connect server) t) by done.
  eexists. split; [reflexivity|]. cbn. split; [done|].
  erewrite since_app; [|cbn; rewrite <- app_assoc; reflexivity]. done.
Qed.

End Provisioning.

(** C4 (failing input). The person loader is run on a server without the
    table, then again with a folder that holds a new file.  The first run
    ends with status 0 and the two rows of its file.  In the second run
    CREATE TABLE raises DuplicateTable: the run ends with status 1, it
    imports nothing, and the table holds the rows of the first run only.
    The loader that drops first ends its second run with status 0 and
    the row of the second run only. *)
Theorem second_run_fails_at_create_table :
  let first := Per.main Per.COLUMN_DEFINITIONS Per.indexes first_delivery
                        "per" no_table in
  let second := Per.main Per.COLUMN_DEFINITIONS Per.indexes second_delivery
                         "per" first.2 in
  let dropping := Csv.main Csv.COLUMN_DEFINITIONS Csv.indexes second_delivery
                    None "per"
                    (Csv.main Csv.COLUMN_DEFINITIONS Csv.indexes first_delivery
                              None "per" no_table).2 in
  first.1 = (0, [Imported "per/people.csv" 2]) /\
  table_rows (durable first.2) =
    processed (Per.process_row Per.COLUMN_DEFINITIONS)
      [person "u/ann" "Ann" "1"; person "u/bob" "Bob" "2"] /\
  (Per.create_table Per.COLUMN_DEFINITIONS (connect first.2)).1
    = Raise DuplicateTable /\
  second.1 = (1, []) /\
  durable second.2 = durable first.2 /\
  dropping.1 = (0, [Imported "per/more.csv" 1]) /\
  table_rows (durable dropping.2) =
    processed (Csv.process_row Csv.COLUMN_DEFINITIONS) [person "u/cy" "Cy" "3"].
Proof.
  cbv zeta.
  split; [vm_compute; reflexivity|]. split; [vm_compute; reflexivity|].
  split; [vm_compute; reflexivity|]. split; [vm_compute; reflexivity|].
  split; [vm_compute; reflexivity|]. split; [vm_compute; reflexivity|].
  vm_compute; reflexivity.
Qed.

(** * Further properties *)

(** ** Rows and their fields *)

Section Rows.

Variable coerce : string -> option string -> Result PyValue.
Variable row : RawRecord.

Local Abbreviation step := (fun col_name col_type => coerce col_type (get row col_name)).

Lemma for_columns_ok (schema : list (string * string)) (acc r : TypedRow) :
  for_columns step schema acc = Ok r <->
  exists vs, r = acc ++ vs /\ coerced_by coerce schema row vs.
Proof.
  revert acc. induction schema as [|[col ty] schema IH]; intros acc; cbn.
  - split.
    + intros [= <-]. exists []. split; [by rewrite app_nil_r|constructor].
    + intros (vs & -> & Hvs). inversion Hvs. by rewrite app_nil_r.
  - destruct (coerce ty (get row col)) as [v|e] eqn:Hv.
    + rewrite IH. split.
      * intros (vs & -> & Hvs). exists (v :: vs).
        split; [by rewrite <- app_assoc|]. by constructor.
      * intros (vs & -> & Hvs). inversion Hvs as [|? w ? vs' Hw Hvs']; subst.
        cbn in Hw. rewrite Hv in Hw. injection Hw as <-.
        exists vs'. split; [by rewrite <- app_assoc|done].
    + split; [done|]. intros (vs & _ & Hvs).
      inversion Hvs as [|? w ? vs' Hw Hvs']; subst. cbn in Hw. congruence.
Qed.



End Rows.

Section CoerceRaises.






End CoerceRaises.

(** X1. [process_row] binds by position: it returns a row exactly when
    every column's field is coerced, and the row then holds the coerced
    values in the order of the schema, one per column.  All three
    variants of the function. *)
Theorem process_row_by_position (schema : list (string * string))
    (row : RawRecord) (r : TypedRow) :
  (Csv.process_row schema row = Ok r <-> coerced_by Csv.coerce schema row r) /\
  (Per.process_row schema row = Ok r <-> coerced_by Per.coerce schema row r) /\
  (RawFeed.process_row schema row = Ok r <->
     coerced_by RawFeed.coerce schema row r).
Proof.
  unfold Csv.process_row, Per.process_row, RawFeed.process_row.
  repeat split.
  all: try (intros H; apply for_columns_ok in H as (vs & -> & Hvs); exact Hvs).
  all: intros H; apply for_columns_ok; by exists r.
Qed.


(** X3. A field that is absent comes out as NULL under every declared
    type: a column the file does not have, a line shorter than the
    header, the empty field and backslash-N. *)
Theorem absent_field_is_null (row : RawRecord) (col_name col_type : string) :
  row !! col_name = None \/ row !! col_name = Some None \/
  row !! col_name = Some (Some "") \/ row !! col_name = Some (Some "\N") ->
  Csv.coerce col_type (get row col_name) = Ok PyNone /\
  Per.coerce col_type (get row col_name) = Ok PyNone /\
  RawFeed.coerce col_type (get row col_name) = Ok PyNone.
Proof.
  intros Hrow.
  assert (clean_value (get row col_name) = None) as Hclean.
  { unfold get. by destruct Hrow as [-> | [-> | [-> | ->]]]. }
  unfold Csv.coerce, Per.coerce, RawFeed.coerce. rewrite Hclean. cbn.
  repeat split; by repeat case_match.
Qed.

Lemma absent_field_is_null_witness :
  Csv.coerce "INTEGER" (get (person "u/ann" "Ann" "\N") "RN") = Ok PyNone /\
  Per.coerce "BOOLEAN" (get (person "u/ann" "Ann" "1") "HAS_EMAIL") = Ok PyNone.
Proof.
  split.
  - apply (absent_field_is_null (person "u/ann" "Ann" "\N") "RN" "INTEGER").
    right; right; right. reflexivity.
  - apply (absent_field_is_null (person "u/ann" "Ann" "1") "HAS_EMAIL" "BOOLEAN").
    left. reflexivity.
Defined.

(** ** The listing of a folder *)

Section Listing.

Lemma append_cons (c : ascii) (a b : string) :
  (String c a ++ b)%string = String c (a ++ b)%string.
Proof. reflexivity. Qed.

Lemma append_nil (b : string) : (EmptyString ++ b)%string = b.
Proof. reflexivity. Qed.

Lemma substring_all (s : string) : String.substring 0 (String.length s) s = s.
Proof. induction s as [|c s IH]; [done|]. cbn. by rewrite IH. Qed.

Lemma substring_split (s : string) (n : nat) :
  (n <= String.length s)%nat ->
  s = (String.substring 0 n s ++ String.substring n (String.length s - n) s)%string.
Proof.
  revert n. induction s as [|c s IH]; intros n Hn.
  - cbn in Hn. assert (n = 0%nat) as -> by lia. done.
  - destruct n as [|n].
    + simpl. by rewrite substring_all.
    + change (String c s =
              String c (String.substring 0 n s ++
                        String.substring n (String.length s - n) s)%string).
      f_equal. apply IH. cbn in Hn. lia.
Qed.

Lemma endswith_suffix (s suffix : string) :
  Py.endswith s suffix = true -> exists p, s = (p ++ suffix)%string.
Proof.
  unfold Py.endswith. intros [Hlen Heq]%andb_true_iff.
  apply bool_decide_eq_true in Hlen. apply String.eqb_eq in Heq.
  remember (String.length s - String.length suffix)%nat as k eqn:Hk.
  exists (String.substring 0 k s). rewrite <- Heq.
  replace (String.length suffix) with (String.length s - k)%nat by lia.
  apply substring_split. lia.
Qed.

Lemma length_append (a b : string) :
  String.length (a ++ b) = (String.length a + String.length b)%nat.
Proof.
  induction a as [|c a IH]; [done|].
  change (S (String.length (a ++ b)) = S (String.length a + String.length b)).
  by rewrite IH.
Qed.

(** No name ends both in .csv and in .csv.gz. *)
Lemma suffixes_disjoint (name : string) :
  Py.endswith name ".csv" = true -> Py.endswith name ".csv.gz" = true -> False.
Proof.
  intros [p ->]%endswith_suffix [q Hq]%endswith_suffix.
  assert (String.length p = String.length q + 3)%nat as Hlen.
  { apply (f_equal String.length) in Hq. rewrite !length_append in Hq.
    cbn in Hq. lia. }
  revert p Hq Hlen. induction q as [|c q IH]; intros p Hq Hlen.
  - destruct p as [|c1 [|c2 [|c3 [|c4 p]]]]; cbn in Hlen; try lia.
    rewrite !append_cons, !append_nil in Hq. congruence.
  - destruct p as [|c' p]; [cbn in Hlen; lia|].
    rewrite !append_cons in Hq. injection Hq as _ Hq.
    apply (IH p Hq). cbn in Hlen. lia.
Qed.

Lemma joinpath_inj (folder : string) : Inj (=) (=) (joinpath folder).
Proof.
  intros a b. unfold joinpath. induction folder as [|c folder IH]; intros H.
  - by injection H.
  - injection H as H. by apply IH.
Qed.

Lemma glob_NoDup (fs : FileSystem) (folder suffix : string) (entries : list string) :
  fs !! folder = Some (Directory entries) -> NoDup entries ->
  NoDup (glob fs folder suffix).
Proof.
  intros Hdir Hnd. unfold glob. rewrite Hdir.
  pose proof (joinpath_inj folder) as Hinj.
  apply (NoDup_fmap_2 (joinpath folder)). by apply NoDup_filter.
Qed.

Lemma glob_Permutation (fs fs' : FileSystem) (folder suffix : string)
    (entries entries' : list string) :
  fs !! folder = Some (Directory entries) ->
  fs' !! folder = Some (Directory entries') ->
  entries ≡ₚ entries' ->
  glob fs folder suffix ≡ₚ glob fs' folder suffix.
Proof.
  intros H1 H2 Hp. unfold glob. rewrite H1, H2. by rewrite Hp.
Qed.

End Listing.

(** X4. In a folder whose entries are distinct, [get_csv_files] lists
    every entry that ends in .csv or in .csv.gz, under the folder, once:
    the two patterns never match the same name, so no file is imported
    twice in a run. *)
Theorem get_csv_files_lists_each_file_once (fs : FileSystem)
    (folder_path : string) (entries : list string) :
  fs !! folder_path = Some (Directory entries) -> NoDup entries ->
  exists csv_files,
    get_csv_files fs folder_path = Ok csv_files /\
    NoDup csv_files /\
    forall path,
      path ∈ csv_files <->
      exists name, name ∈ entries /\ path = joinpath folder_path name /\
                   (Py.endswith name ".csv" = true \/
                    Py.endswith name ".csv.gz" = true).
Proof.
  intros Hdir Hnd. unfold get_csv_files. rewrite Hdir. cbn [app].
  eexists. split; [reflexivity|]. split.
  - rewrite sorted_is_permutation. apply NoDup_app. split; [|split].
    + by apply (glob_NoDup fs folder_path ".csv" entries).
    + intros path (n1 & Hn1 & Hs1 & ->)%(elem_of_glob _ _ _ entries)
                  (n2 & Hn2 & Hs2 & Heq)%(elem_of_glob _ _ _ entries); try done.
      apply joinpath_inj in Heq as ->. by apply (suffixes_disjoint n2).
    + by apply (glob_NoDup fs folder_path ".csv.gz" entries).
  - intros path. rewrite sorted_is_permutation, elem_of_app.
    rewrite !(elem_of_glob fs folder_path _ entries) by done.
    split.
    + intros [(n & Hn & Hs & ->)|(n & Hn & Hs & ->)]; exists n; auto.
    + intros (n & Hn & -> & [Hs|Hs]); [left|right]; by exists n.
Qed.

Lemma get_csv_files_lists_each_file_once_witness :
  exists csv_files,
    get_csv_files example_folder "data" = Ok csv_files /\
    NoDup csv_files /\
    forall path,
      path ∈ csv_files <->
      exists name, name ∈ ["b.csv"; "a.csv.gz"; "c.csv"] /\
                   path = joinpath "data" name /\
                   (Py.endswith name ".csv" = true \/
                    Py.endswith name ".csv.gz" = true).
Proof.
  apply (get_csv_files_lists_each_file_once example_folder "data"
           ["b.csv"; "a.csv.gz"; "c.csv"]).
  - reflexivity.
  - apply (bool_decide_unpack _). by vm_compute.
Defined.

(** X5. The list [get_csv_files] returns does not depend on the order in
    which the folder yields its entries: two folders with the same
    entries give the same run order. *)
Theorem get_csv_files_ignores_listing_order (fs fs' : FileSystem)
    (folder_path : string) (entries entries' : list string) :
  fs !! folder_path = Some (Directory entries) ->
  fs' !! folder_path = Some (Directory entries') ->
  entries ≡ₚ entries' ->
  get_csv_files fs folder_path = get_csv_files fs' folder_path.
Proof.
  intros H1 H2 Hp. unfold get_csv_files. rewrite H1, H2. f_equal. cbn [app].
  apply sorted_unique; [apply sorted_is_sorted|].
  rewrite sorted_is_permutation.
  by rewrite (glob_Permutation fs fs' folder_path ".csv" entries entries'),
             (glob_Permutation fs fs' folder_path ".csv.gz" entries entries').
Qed.

Lemma get_csv_files_ignores_listing_order_witness :
  get_csv_files example_folder "data" =
  get_csv_files {[ "data" := Directory ["c.csv"; "b.csv"; "a.csv.gz"] ]} "data".
Proof.
  apply (get_csv_files_ignores_listing_order example_folder
           {[ "data" := Directory ["c.csv"; "b.csv"; "a.csv.gz"] ]} "data"
           ["b.csv"; "a.csv.gz"; "c.csv"] ["c.csv"; "b.csv"; "a.csv.gz"]).
  - reflexivity.
  - reflexivity.
  - symmetry. apply (Permutation_cons_append ["b.csv"; "a.csv.gz"] "c.csv").
Defined.

(** ** Whole numbers through [float] *)

Section Rounding.

Lemma digits2_pos_size (p : positive) : digits2_pos p = Pos.size p.
Proof. induction p as [p IH|p IH|]; cbn; by rewrite ?IH. Qed.

Lemma digits2_pos_bound (p : positive) :
  Zpos p < 2 ^ 53 -> Zpos (digits2_pos p) <= 53.
Proof.
  intros Hp. rewrite digits2_pos_size.
  pose proof (Pos.size_le p) as Hle.
  apply Pos2Z.pos_le_pos in Hle. rewrite Pos2Z.inj_pow in Hle.
  rewrite (Pos2Z.inj_xO p) in Hle.
  destruct (Z.le_gt_cases (Zpos (Pos.size p)) 53) as [|Hgt]; [done|].
  assert (2 ^ 54 <= 2 ^ Zpos (Pos.size p)) by (apply Z.pow_le_mono_r; lia).
  change (2 ^ 54) with 18014398509481984 in *.
  change (2 ^ 53) with 9007199254740992 in *.
  change (Z.pos 2) with 2 in *.
  lia.
Qed.

Lemma iter_xO_value (p k : positive) :
  Zpos (Pos.iter xO p k) = Zpos p * 2 ^ Zpos k.
Proof.
  induction k as [|k IH] using Pos.peano_ind.
  - cbn. lia.
  - rewrite Pos.iter_succ, Pos2Z.inj_xO, IH, Pos2Z.inj_succ, Z.pow_succ_r by lia.
    lia.
Qed.

Lemma iter_xO_digits (p k : positive) :
  digits2_pos (Pos.iter xO p k) = (digits2_pos p + k)%positive.
Proof.
  induction k as [|k IH] using Pos.peano_ind.
  - cbn. lia.
  - rewrite Pos.iter_succ. cbn [digits2_pos]. rewrite IH. lia.
Qed.

(** A mantissa of 53 bits with an exponent in range is a float as it
    stands: rounding leaves it. *)
Lemma binary_round_aux_canonical (s : bool) (m : positive) (e : Z) :
  Zpos (digits2_pos m) = 53 -> -1074 <= e <= 971 ->
  binary_round_aux Py.prec Py.emax s (Zpos m) e loc_Exact = S754_finite s m e.
Proof.
  intros Hd He. unfold binary_round_aux, shr_fexp, Zdigits2, fexp, emin.
  unfold Py.prec, Py.emax. rewrite Hd.
  assert (Z.sub (Z.max (Z.sub (Z.add 53 e) 53) (Z.sub (Z.sub 3 1024) 53)) e = 0)
    as -> by lia.
  cbn [shr shr_record_of_loc shr_m loc_of_shr_record round_nearest_even Zdigits2].
  rewrite Hd.
  assert (Z.sub (Z.max (Z.sub (Z.add 53 e) 53) (Z.sub (Z.sub 3 1024) 53)) e = 0)
    as -> by lia.
  cbn [shr shr_record_of_loc shr_m].
  assert (Z.leb e (Z.sub 1024 53) = true) as -> by (apply Z.leb_le; lia).
  done.
Qed.

(** A whole number of at most 53 bits is a float: its bits, shifted to
    the left end of the mantissa. *)
Lemma binary_round_exact (s : bool) (p : positive) :
  Zpos (digits2_pos p) <= 53 ->
  exists m e,
    binary_round Py.prec Py.emax s p 0 = S754_finite s m e /\
    -52 <= e <= 0 /\ Zpos m = Zpos p * 2 ^ (- e).
Proof.
  intros Hd. unfold binary_round.
  set (f := fexp Py.prec Py.emax (Z.add (Zpos (digits2_pos p)) 0)).
  assert (f = Zpos (digits2_pos p) - 53) as Hf
    by (unfold f, fexp, emin, Py.prec, Py.emax; lia).
  clearbody f. subst f. unfold shl_align.
  destruct (Z.eq_dec (Zpos (digits2_pos p)) 53) as [Heq|Hne].
  - rewrite Heq. cbn [Z.sub Z.add Z.opp Z.pos_sub Pos.compare Pos.compare_cont].
    exists p, 0. split; [by apply binary_round_aux_canonical|].
    split; [lia|]. cbn. lia.
  - assert (Z.sub (Zpos (digits2_pos p) - 53) 0 = Zneg (53 - digits2_pos p)) as ->.
    { rewrite Z.sub_0_r. rewrite <- Pos2Z.opp_pos, Pos2Z.inj_sub; lia. }
    exists (Pos.iter xO p (53 - digits2_pos p)), (Zpos (digits2_pos p) - 53).
    split; [|split; [lia|]].
    + apply binary_round_aux_canonical; [|lia].
      rewrite iter_xO_digits. rewrite Pos2Z.inj_add, Pos2Z.inj_sub; lia.
    + rewrite iter_xO_value. do 2 f_equal. rewrite Pos2Z.inj_sub; lia.
Qed.

(** A whole number below 2^53 is a float, and truncating that float
    gives the number back. *)
Lemma of_decimal_exact (neg : bool) (p : positive) :
  Zpos p < 2 ^ 53 ->
  Py.int (Py.of_decimal neg (Zpos p) 0) = Ok (if neg then - Zpos p else Zpos p).
Proof.
  intros Hp. pose proof (digits2_pos_bound p Hp) as Hd.
  unfold Py.of_decimal. cbn [Z.leb Z.compare Z.pow Z.to_pos].
  rewrite Pos.mul_1_r.
  destruct (binary_round_exact neg p Hd) as (m & e & -> & He & Hm).
  unfold Py.int.
  destruct (Z.leb_spec 0 e) as [H0|H0].
  - assert (e = 0) as -> by lia. rewrite Z.shiftl_0_r, Hm. cbn [Z.opp Z.pow].
    by rewrite Z.mul_1_r.
  - rewrite Z.shiftr_div_pow2 by lia. rewrite Hm.
    rewrite Z.div_mul by (apply Z.pow_nonzero; lia). done.
Qed.

End Rounding.

Section Texts.

Local Abbreviation digit := (fun c => Py.is_digit c = true).

Lemma digit_code (c : ascii) :
  Py.is_digit c = true -> (48 <= N_of_ascii c <= 57)%N.
Proof.
  unfold Py.is_digit. intros [H1 H2]%andb_true_iff.
  apply N.leb_le in H1, H2. lia.
Qed.

Lemma digit_differs (c x : ascii) :
  Py.is_digit c = true -> Py.is_digit x = false -> Ascii.eqb c x = false.
Proof.
  intros Hc Hx. destruct (Ascii.eqb_spec c x) as [->|]; [congruence|done].
Qed.

Lemma digit_not_space (c : ascii) : Py.is_digit c = true -> Py.is_space c = false.
Proof.
  intros Hc%digit_code. unfold Py.is_space.
  apply orb_false_iff. split; apply andb_false_iff.
  - right. apply N.leb_gt. lia.
  - right. apply N.leb_gt. lia.
Qed.

Lemma digit_lower (c : ascii) : Py.is_digit c = true -> Py.ascii_lower c = c.
Proof.
  intros Hc%digit_code. unfold Py.ascii_lower, Py.is_upper.
  assert ((65 <=? N_of_ascii c)%N = false) as -> by (apply N.leb_gt; lia).
  done.
Qed.

Lemma drop_underscores_plain (prev : option ascii) (l : list ascii) :
  Forall (fun c => Ascii.eqb c "_" = false) l ->
  Py.drop_underscores prev l = Some l.
Proof.
  intros Hl. revert prev. induction Hl as [|c l Hc Hl IH]; intros prev; [done|].
  cbn. rewrite Hc. by rewrite IH.
Qed.

Lemma lstrip_plain (c : ascii) (l : list ascii) :
  Py.is_space c = false -> Py.lstrip (c :: l) = c :: l.
Proof. intros Hc. cbn. by rewrite Hc. Qed.

Lemma strip_plain (l : list ascii) (first last : ascii) (middle : list ascii) :
  l = first :: middle -> (exists front, l = front ++ [last]) ->
  Py.is_space first = false -> Py.is_space last = false ->
  Py.strip l = l.
Proof.
  intros Hfirst [front Hlast] Hf Hl. unfold Py.strip.
  rewrite Hfirst at 1. rewrite (lstrip_plain _ _ Hf), <- Hfirst.
  rewrite Hlast at 1. rewrite rev_app_distr. cbn [rev app].
  rewrite (lstrip_plain _ _ Hl).
  change (last :: rev front) with (rev [last] ++ rev front).
  by rewrite <- rev_app_distr, rev_involutive, <- Hlast.
Qed.

Lemma span_digits_all (ds : list ascii) :
  Forall digit ds -> Py.span_digits ds = (ds, []).
Proof.
  intros Hds. induction Hds as [|d ds Hd Hds IH]; [done|].
  cbn. by rewrite Hd, IH.
Qed.

Lemma digits_value_nonneg (ds : list ascii) :
  Forall digit ds -> 0 <= Py.digits_value ds.
Proof.
  unfold Py.digits_value. intros Hds.
  assert (forall acc, 0 <= acc ->
            0 <= fold_left (fun acc c => 10 * acc + Py.digit_value c) ds acc) as H.
  { induction Hds as [|d ds Hd Hds IH]; intros acc Hacc; [done|].
    cbn. apply IH. apply digit_code in Hd. unfold Py.digit_value. lia. }
  by apply H.
Qed.

(** [float] on the text of a whole number. *)
Lemma float_of_integer_text (neg : bool) (ds : list ascii) :
  ds <> [] -> Forall digit ds ->
  Py.float (integer_text neg ds) =
    Some (Py.of_decimal neg (Py.digits_value ds) 0).
Proof.
  intros Hne Hds. unfold Py.float, integer_text.
  rewrite list_ascii_of_string_of_list_ascii.
  assert (Forall (fun c => Ascii.eqb c "_" = false) ds) as Hplain.
  { eapply Forall_impl; [exact Hds|]. intros c Hc. by apply digit_differs. }
  rewrite drop_underscores_plain
    by (destruct neg; [by constructor|done]).
  destruct ds as [|d ds]; [done|].
  pose proof (Forall_inv Hds) as Hd. cbn beta in Hd.
  destruct (exists_last (l := d :: ds)) as (front & lastd & Hlast); [done|].
  assert (Py.is_digit lastd = true) as Hld.
  { rewrite Forall_forall in Hds. apply Hds. rewrite Hlast.
    apply elem_of_app. right. by apply list_elem_of_singleton. }
  assert (Py.strip ((if neg then ["-"%char] else []) ++ d :: ds) =
          (if neg then ["-"%char] else []) ++ d :: ds) as ->.
  { destruct neg.
    - apply (strip_plain _ "-"%char lastd (d :: ds)); [done| |done|].
      + exists ("-"%char :: front). cbn. by rewrite Hlast.
      + by apply digit_not_space.
    - apply (strip_plain _ d lastd ds); [done| |by apply digit_not_space..].
      by exists front. }
  assert (Py.take_sign ((if neg then ["-"%char] else []) ++ d :: ds) =
          (neg, d :: ds)) as ->.
  { destruct neg; [done|]. cbn.
    by rewrite !(digit_differs d) by done. }
  assert (Py.lower (string_of_list_ascii (d :: ds)) =
          String d (Py.lower (string_of_list_ascii ds))) as ->
    by (cbn; by rewrite digit_lower).
  assert (forall w, String.eqb (String d w) "inf" = false /\
                    String.eqb (String d w) "infinity" = false /\
                    String.eqb (String d w) "nan" = false) as Hword.
  { intros w. cbn. by rewrite !(digit_differs d) by done. }
  destruct (Hword (Py.lower (string_of_list_ascii ds))) as (-> & -> & ->).
  cbn [orb]. rewrite (span_digits_all _ Hds). rewrite app_nil_r.
  cbn [Py.parse_exponent]. unfold Py.len. cbn [length Z.of_nat Z.sub Z.opp].
  done.
Qed.

Lemma integer_text_plain (neg : bool) (ds : list ascii) :
  ds <> [] -> Forall digit ds ->
  String.eqb (integer_text neg ds) "" = false /\
  clean_value (Some (integer_text neg ds)) = Some (integer_text neg ds).
Proof.
  intros Hne Hds. unfold integer_text, clean_value.
  destruct ds as [|d ds]; [done|]. pose proof (Forall_inv Hds) as Hd. cbn beta in Hd.
  destruct neg; cbn.
  - done.
  - by rewrite (digit_differs d "\") by done.
Qed.

(** [parse_integer] on the text of a whole number below 2^53. *)
Lemma parse_integer_exact (neg : bool) (ds : list ascii) :
  ds <> [] -> Forall digit ds -> Py.digits_value ds < 2 ^ 53 ->
  parse_integer (Some (integer_text neg ds)) = Ok (Some (integer_value neg ds)).
Proof.
  intros Hne Hds Hlt. unfold parse_integer.
  destruct (integer_text_plain neg ds Hne Hds) as (-> & _).
  rewrite (float_of_integer_text neg ds Hne Hds). unfold integer_value.
  pose proof (digits_value_nonneg ds Hds) as H0.
  destruct (Py.digits_value ds) as [|p|p] eqn:Hv; [|by rewrite of_decimal_exact|lia].
  cbn. by destruct neg.
Qed.

End Texts.

(** X6. The text of a whole number of up to fifteen digits, or of any
    number below 2^53, with or without a minus sign, is read exactly by
    [parse_integer] and by an INTEGER column: the detour through [float]
    loses nothing there.  Above that bound it can: 9007199254740993 is
    read as 9007199254740992. *)
Theorem integer_text_is_read_exactly (neg : bool) (ds : list ascii) :
  ds <> [] -> Forall (fun c => Py.is_digit c = true) ds ->
  Py.digits_value ds < 2 ^ 53 ->
  parse_integer (Some (integer_text neg ds)) = Ok (Some (integer_value neg ds)) /\
  Csv.coerce "INTEGER" (Some (integer_text neg ds)) =
    Ok (PyInt (integer_value neg ds)) /\
  Per.coerce "INTEGER" (Some (integer_text neg ds)) =
    Ok (PyInt (integer_value neg ds)) /\
  RawFeed.coerce "INTEGER" (Some (integer_text neg ds)) =
    Ok (PyInt (integer_value neg ds)) /\
  parse_integer (Some "9007199254740993") = Ok (Some 9007199254740992).
Proof.
  intros Hne Hds Hlt.
  pose proof (parse_integer_exact neg ds Hne Hds Hlt) as Hp.
  destruct (integer_text_plain neg ds Hne Hds) as (_ & Hclean).
  unfold Csv.coerce, Per.coerce, RawFeed.coerce. rewrite Hclean, Hp. cbn.
  repeat split.
Qed.

Lemma integer_text_is_read_exactly_witness :
  parse_integer (Some "-9007199254740991") = Ok (Some (-9007199254740991)) /\
  Csv.coerce "INTEGER" (Some "-9007199254740991") = Ok (PyInt (-9007199254740991)).
Proof.
  destruct (integer_text_is_read_exactly true
              (list_ascii_of_string "9007199254740991"))
    as (H1 & H2 & _).
  - done.
  - repeat constructor.
  - by vm_compute.
  - split; [exact H1 | exact H2].
Defined.

(** ** Runs over several files *)

Section Runs.

Variable schema : list (string * string).
Variable process_row : RawRecord -> Result TypedRow.

(** What one call of [import_csv_data] does to the connection. *)
Lemma import_csv_data_effect (fs : FileSystem) (cursor : DB)
    (csv_file_path : string) (batch_size : Z) :
  let outcome := Loader.import_csv_data schema process_row fs cursor
                                        csv_file_path batch_size in
  durable outcome.2 = durable cursor /\
  accepts outcome.2 = accepts cursor /\
  columns <$> working outcome.2 = columns <$> working cursor /\
  exists added,
    table_rows (working outcome.2) = table_rows (working cursor) ++ added /\
    forall n, outcome.1 = Ok n ->
      n = Py.len added /\ added = file_rows process_row fs csv_file_path /\
      sound fs csv_file_path /\
      (aborted cursor = false -> aborted outcome.2 = false) /\
      (aborted outcome.2 = true -> added = []).
Proof.
  cbv zeta.
  assert (forall n,
            (Loader.import_csv_data schema process_row fs cursor csv_file_path
                                    batch_size).1 = Ok n ->
            aborted cursor = false ->
            aborted (Loader.import_csv_data schema process_row fs cursor
                                            csv_file_path batch_size).2 = false)
    as Hhealthy.
  { intros n.
    destruct (Loader.import_csv_data schema process_row fs cursor csv_file_path
                                     batch_size) as [r c] eqn:Himp.
    cbn [fst snd]. intros ->.
    apply (import_csv_data_healthy schema process_row fs cursor csv_file_path
             batch_size n c Himp). }
  destruct (import_csv_data_trace schema process_row fs cursor csv_file_path
              batch_size) as [(e & Hopen & ->) | (cf & delta & st' & Hopen & Hdb & Htr & Hres)].
  - cbn. repeat split; try done. exists []. split; [by rewrite app_nil_r|done].
  - destruct Htr as [Hh Hd Ha Ht Hc Hr Hb Hch Htb Hq].
    cbn [Loader.db Loader.batch Loader.total_rows] in *.
    rewrite <- Hdb. repeat split; try done.
    exists (concat (completed delta)). split; [done|].
    intros n Hn. rewrite Hn in Hres. destruct Hres as (Hfail & -> & Hbatch).
    split; [by rewrite Ht, sizes_concat|].
    split; [|split; [by exists cf|split]].
    + unfold file_rows. rewrite Hopen.
      rewrite Hbatch, app_nil_r in Hb. exact Hb.
    + rewrite Hdb. exact (Hhealthy _ Hn).
    + intros Hab. by destruct (Hq Hab Hbatch) as (-> & _).
Qed.

Lemma logged_rows_app (l1 l2 : list LogRecord) :
  logged_rows (l1 ++ l2) = logged_rows l1 + logged_rows l2.
Proof.
  unfold logged_rows.
  induction l1 as [|[f|f n|f e] l1 IH]; cbn [app fold_right]; rewrite ?IH; lia.
Qed.

(** One file keeps the invariant, from any connection with the tables of
    the run's own. *)
Lemma after_import_invariant (before : DB) (files : list string)
    (run : Loader.Run) (fs : FileSystem) (cursor : DB) (csv_file : string)
    (batch_size : Z) :
  run_invariant before files run ->
  durable cursor = durable (Loader.run_cursor run) ->
  working cursor = working (Loader.run_cursor run) ->
  run_invariant before (files ++ [csv_file])
    (after_import run csv_file
       (Loader.import_csv_data schema process_row fs cursor csv_file batch_size)).
Proof.
  intros [Hf Ht Hc Hk Hp Hw Hn] Hd0 Hw0.
  destruct (import_csv_data_effect fs cursor csv_file batch_size)
    as (Hd & _ & Hcol & added & Hrows & Hok).
  cbv zeta in *.
  destruct (Loader.import_csv_data schema process_row fs cursor csv_file batch_size)
    as [[n|e] c] eqn:Himp; cbn [fst snd] in *; unfold after_import.
  - destruct (Hok n eq_refl) as (-> & _ & _ & _ & Hquiet).
    split; cbn [Loader.run_total Loader.run_log Loader.run_cursor].
    + by rewrite map_app, Hf.
    + rewrite logged_rows_app. cbn. lia.
    + unfold commit. destruct (aborted c); cbn; congruence.
    + unfold commit. destruct (aborted c); cbn.
      * congruence.
      * rewrite Hrows, Hw0. etrans; [exact Hk|]. etrans; [exact Hp|].
        by apply prefix_app_r.
    + unfold commit. by destruct (aborted c).
    + unfold commit. by destruct (aborted c).
    + unfold commit. destruct (aborted c) eqn:Hab; cbn.
      * rewrite (Hquiet eq_refl), Hd, Hd0. unfold Py.len in *. cbn [length]. lia.
      * rewrite Hrows, Hw0, len_app.
        apply prefix_length in Hp. unfold Py.len in *. lia.
  - split; cbn [Loader.run_total Loader.run_log Loader.run_cursor].
    + by rewrite map_app, Hf.
    + rewrite logged_rows_app. cbn. lia.
    + congruence.
    + congruence.
    + rewrite Hd, Hd0, Hrows, Hw0. etrans; [exact Hp|]. by apply prefix_app_r.
    + congruence.
    + rewrite Hd, Hd0. lia.
Qed.

Lemma run_invariant_start (cursor : DB) :
  working cursor = durable cursor ->
  run_invariant cursor [] (Loader.mkRun 0 [] cursor).
Proof. intros Hw. split; cbn; rewrite ?Hw; done. Qed.

End Runs.

Section Loops.

Variable schema : list (string * string).
Variable fs : FileSystem.
Variable batch_size : Z.

Lemma csv_import_file_after (run : Loader.Run) (csv_file : string) :
  Csv.import_file schema fs batch_size run csv_file =
  after_import run csv_file
    (Csv.import_csv_data schema fs (Loader.run_cursor run) csv_file batch_size).
Proof. reflexivity. Qed.

Lemma raw_import_file_after (run : Loader.Run) (csv_file : string) :
  RawFeed.import_file schema fs batch_size run csv_file =
  after_import run csv_file
    (RawFeed.import_csv_data schema fs (Loader.run_cursor run) csv_file batch_size).
Proof. reflexivity. Qed.

Lemma per_import_file_after (run : Loader.Run) (csv_file : string) :
  let probed := Per.is_csv_file_imported schema fs (Loader.run_cursor run) csv_file in
  Per.import_file schema fs batch_size run csv_file =
  if probed.1
  then Loader.mkRun (Loader.run_total run)
                    (Loader.run_log run ++ [Skipping csv_file]) probed.2
  else after_import run csv_file
         (Per.import_csv_data schema fs probed.2 csv_file batch_size).
Proof.
  cbv zeta. unfold Per.import_file.
  by destruct (Per.is_csv_file_imported _ _ _ _) as [[] c].
Qed.

Lemma csv_import_file_invariant (before : DB) (files : list string)
    (run : Loader.Run) (csv_file : string) :
  run_invariant before files run ->
  run_invariant before (files ++ [csv_file])
                (Csv.import_file schema fs batch_size run csv_file).
Proof.
  intros Hinv. rewrite csv_import_file_after.
  by apply after_import_invariant.
Qed.

Lemma raw_import_file_invariant (before : DB) (files : list string)
    (run : Loader.Run) (csv_file : string) :
  run_invariant before files run ->
  run_invariant before (files ++ [csv_file])
                (RawFeed.import_file schema fs batch_size run csv_file).
Proof.
  intros Hinv. rewrite raw_import_file_after.
  by apply after_import_invariant.
Qed.

Lemma per_import_file_invariant (before : DB) (files : list string)
    (run : Loader.Run) (csv_file : string) :
  run_invariant before files run ->
  run_invariant before (files ++ [csv_file])
                (Per.import_file schema fs batch_size run csv_file).
Proof.
  intros Hinv. rewrite per_import_file_after.
  destruct (guard_cursor schema fs (Loader.run_cursor run) csv_file)
    as (Hd & Hw & _ & _).
  cbv zeta in *.
  destruct (Per.is_csv_file_imported schema fs (Loader.run_cursor run) csv_file)
    as [[] c]; cbn [fst snd] in *.
  - destruct Hinv as [Hf Ht Hc Hk Hp Hwk Hn].
    split; cbn [Loader.run_total Loader.run_log Loader.run_cursor];
      rewrite ?Hd, ?Hw; try done.
    + by rewrite map_app, Hf.
    + rewrite logged_rows_app. cbn. lia.
  - by apply after_import_invariant.
Qed.

Lemma fold_invariant (import_file : Loader.Run -> string -> Loader.Run)
    (before : DB) :
  (forall files run csv_file,
     run_invariant before files run ->
     run_invariant before (files ++ [csv_file]) (import_file run csv_file)) ->
  forall csv_files files run,
    run_invariant before files run ->
    run_invariant before (files ++ csv_files) (fold_left import_file csv_files run).
Proof.
  intros Hstep csv_files. induction csv_files as [|f csv_files IH]; intros files run Hinv.
  - by rewrite app_nil_r.
  - cbn. rewrite (app_cons_middle f files csv_files). apply IH. by apply Hstep.
Qed.

(** The three loops keep the invariant from a connection without pending
    work. *)
Lemma import_multiple_invariant (cursor : DB) (csv_files : list string) :
  working cursor = durable cursor ->
  run_invariant cursor csv_files
    (Csv.import_multiple_csv_files schema fs cursor csv_files batch_size) /\
  run_invariant cursor csv_files
    (Per.import_multiple_files schema fs cursor csv_files batch_size) /\
  run_invariant cursor csv_files
    (RawFeed.import_multiple_files schema fs cursor csv_files batch_size).
Proof.
  intros Hw. pose proof (run_invariant_start cursor Hw) as H0.
  split; [|split].
  - apply (fold_invariant (Csv.import_file schema fs batch_size) cursor
             (fun files run f => csv_import_file_invariant cursor files run f)
             csv_files [] _ H0).
  - apply (fold_invariant (Per.import_file schema fs batch_size) cursor
             (fun files run f => per_import_file_invariant cursor files run f)
             csv_files [] _ H0).
  - apply (fold_invariant (RawFeed.import_file schema fs batch_size) cursor
             (fun files run f => raw_import_file_invariant cursor files run f)
             csv_files [] _ H0).
Qed.

End Loops.

(** X7. When [import_csv_data] returns, the file was read to its end and
    every record that [process_row] accepted is in the table of the open
    transaction, after the rows that were there, in file order and once;
    the count returned is their number.  Nothing is committed yet. *)
Theorem returned_import_stored_every_row
    (schema : list (string * string))
    (process_row : RawRecord -> Result TypedRow)
    (fs : FileSystem) (cursor : DB) (csv_file_path : string) (batch_size n : Z)
    (after : DB) :
  Loader.import_csv_data schema process_row fs cursor csv_file_path batch_size
    = (Ok n, after) ->
  sound fs csv_file_path /\
  n = Py.len (file_rows process_row fs csv_file_path) /\
  table_rows (working after) =
    table_rows (working cursor) ++ file_rows process_row fs csv_file_path /\
  durable after = durable cursor.
Proof.
  intros Himp.
  destruct (import_csv_data_effect schema process_row fs cursor csv_file_path
              batch_size) as (Hd & _ & _ & added & Hrows & Hok).
  cbv zeta in *. rewrite Himp in *. cbn [fst snd] in *.
  destruct (Hok n eq_refl) as (-> & -> & Hsound & _).
  done.
Qed.

Lemma returned_import_stored_every_row_witness :
  let run := Per.import_csv_data Per.COLUMN_DEFINITIONS five_people
               (empty_table Per.COLUMN_DEFINITIONS) "per/five.csv" 2 in
  sound five_people "per/five.csv" /\
  5 = Py.len (file_rows (Per.process_row Per.COLUMN_DEFINITIONS) five_people
                        "per/five.csv") /\
  table_rows (working run.2) =
    table_rows (working (empty_table Per.COLUMN_DEFINITIONS)) ++
    file_rows (Per.process_row Per.COLUMN_DEFINITIONS) five_people "per/five.csv" /\
  durable run.2 = durable (empty_table Per.COLUMN_DEFINITIONS).
Proof.
  cbv zeta.
  apply (returned_import_stored_every_row Per.COLUMN_DEFINITIONS
           (Per.process_row Per.COLUMN_DEFINITIONS) five_people
           (empty_table Per.COLUMN_DEFINITIONS) "per/five.csv" 2 5).
  vm_compute. reflexivity.
Defined.

(** X8. The import loops only append: from a connection without pending
    work, whatever the files hold and whatever fails, the committed table
    keeps its columns and every row it had, in place; rows are added
    after them. *)
Theorem import_only_appends (schema : list (string * string)) (fs : FileSystem)
    (cursor : DB) (csv_files : list string) (batch_size : Z) (run : Loader.Run) :
  working cursor = durable cursor ->
  run = Csv.import_multiple_csv_files schema fs cursor csv_files batch_size \/
  run = Per.import_multiple_files schema fs cursor csv_files batch_size \/
  run = RawFeed.import_multiple_files schema fs cursor csv_files batch_size ->
  columns <$> durable (Loader.run_cursor run) = columns <$> durable cursor /\
  table_rows (durable cursor)
    `prefix_of` table_rows (durable (Loader.run_cursor run)).
Proof.
  intros Hw Hrun.
  destruct (import_multiple_invariant schema fs batch_size cursor csv_files Hw)
    as (H1 & H2 & H3).
  destruct Hrun as [-> | [-> | ->]].
  - by destruct H1.
  - by destruct H2.
  - by destruct H3.
Qed.

Lemma import_only_appends_witness :
  let cursor := holds_ann in
  let run := Per.import_multiple_files Per.COLUMN_DEFINITIONS broken_then_sound
               cursor ["per/a.csv"; "per/b.csv"] 2 in
  columns <$> durable (Loader.run_cursor run) = columns <$> durable cursor /\
  table_rows (durable cursor)
    `prefix_of` table_rows (durable (Loader.run_cursor run)).
Proof.
  cbv zeta.
  apply (import_only_appends Per.COLUMN_DEFINITIONS broken_then_sound holds_ann
           ["per/a.csv"; "per/b.csv"] 2).
  - reflexivity.
  - right. left. reflexivity.
Defined.

(** X9. The total an import loop returns is the sum of the counts it
    logged for the files it imported, one line of log per file in run
    order, and it never exceeds the number of rows the run has committed;
    it can be less, since rows of a file that failed may be committed
    with the next file. *)
Theorem reported_rows_are_committed (schema : list (string * string))
    (fs : FileSystem) (cursor : DB) (csv_files : list string) (batch_size : Z)
    (run : Loader.Run) :
  working cursor = durable cursor ->
  run = Csv.import_multiple_csv_files schema fs cursor csv_files batch_size \/
  run = Per.import_multiple_files schema fs cursor csv_files batch_size \/
  run = RawFeed.import_multiple_files schema fs cursor csv_files batch_size ->
  map file_of (Loader.run_log run) = csv_files /\
  Loader.run_total run = logged_rows (Loader.run_log run) /\
  Loader.run_total run <=
    Py.len (table_rows (durable (Loader.run_cursor run)))
    - Py.len (table_rows (durable cursor)).
Proof.
  intros Hw Hrun.
  destruct (import_multiple_invariant schema fs batch_size cursor csv_files Hw)
    as (H1 & H2 & H3).
  assert (run_invariant cursor csv_files run) as [Hf Ht _ _ _ _ Hn]
    by (by destruct Hrun as [-> | [-> | ->]]).
  split; [done|]. split; [done|]. lia.
Qed.

Lemma reported_rows_are_committed_witness :
  let cursor := empty_table Csv.COLUMN_DEFINITIONS in
  let run := Csv.import_multiple_csv_files Csv.COLUMN_DEFINITIONS
               broken_then_sound cursor ["per/a.csv"; "per/b.csv"] 2 in
  map file_of (Loader.run_log run) = ["per/a.csv"; "per/b.csv"] /\
  Loader.run_total run = logged_rows (Loader.run_log run) /\
  Loader.run_total run <=
    Py.len (table_rows (durable (Loader.run_cursor run)))
    - Py.len (table_rows (durable cursor)).
Proof.
  cbv zeta.
  apply (reported_rows_are_committed Csv.COLUMN_DEFINITIONS broken_then_sound
           (empty_table Csv.COLUMN_DEFINITIONS) ["per/a.csv"; "per/b.csv"] 2).
  - reflexivity.
  - left. reflexivity.
Defined.

(** ** The [main] functions *)

Section Mains.

Lemma org_main_with :
  Org.main = main_with Csv.create_table Csv.import_multiple_csv_files.
Proof. reflexivity. Qed.

Lemma per_main_with :
  Per.main = main_with Per.create_table Per.import_multiple_files.
Proof. reflexivity. Qed.

Lemma raw_main_with :
  RawFeed.main = main_with Csv.create_table RawFeed.import_multiple_files.
Proof. reflexivity. Qed.

Lemma csv_main_with (schema indexes : list (string * string)) (fs : FileSystem)
    (folder : string) (server : DB) :
  Csv.main schema indexes fs None folder server =
  main_with Csv.create_table Csv.import_multiple_csv_files schema indexes fs
            folder server.
Proof.
  unfold Csv.main, main_with. cbv zeta.
  destruct (Csv.create_table schema (connect server)) as [[u|e] c]; [|done].
  destruct (get_csv_files fs folder) as [[|f files]|e]; try done.
Qed.

(** DROP, then CREATE: the table is there and empty, whatever was. *)
Lemma drop_create_table (schema : list (string * string)) (c : DB) :
  schema <> [] -> NoDup (column_names schema) -> aborted c = false ->
  exists c',
    Csv.create_table schema c = (Ok tt, c') /\
    durable c' = durable c /\ accepts c' = accepts c /\ aborted c' = false /\
    working c' = Some (mkTable (column_names schema) []).
Proof.
  intros Hne Hnd Hab. unfold Csv.create_table, execute. rewrite Hab. cbn.
  destruct schema as [|col schema]; [done|]. cbn.
  unfold column_names in Hnd. rewrite (bool_decide_eq_true_2 _ Hnd). cbn.
  eexists. split; [reflexivity|]. done.
Qed.

(** CREATE alone: the same when there is no table. *)
Lemma create_absent_table (schema : list (string * string)) (c : DB) :
  schema <> [] -> NoDup (column_names schema) -> aborted c = false ->
  working c = None ->
  exists c',
    Per.create_table schema c = (Ok tt, c') /\
    durable c' = durable c /\ accepts c' = accepts c /\ aborted c' = false /\
    working c' = Some (mkTable (column_names schema) []).
Proof.
  intros Hne Hnd Hab Hw. unfold Per.create_table, execute. rewrite Hab.
  destruct schema as [|col schema]; [done|]. cbn. rewrite Hw.
  unfold column_names in Hnd. rewrite (bool_decide_eq_true_2 _ Hnd). cbn.
  eexists. split; [reflexivity|]. done.
Qed.

Lemma execute_index_frame (c : DB) (idx_name col_name : string) :
  let c' := (execute c (CREATE_INDEX_IF_NOT_EXISTS idx_name col_name)).2 in
  durable c' = durable c /\ working c' = working c /\ accepts c' = accepts c.
Proof.
  cbv zeta. unfold execute.
  destruct (aborted c); [done|]. cbn.
  destruct (working c) as [t|] eqn:Hw; [|by rewrite ?Hw].
  by destruct (bool_decide (col_name ∈ columns t)).
Qed.

(** [create_indexes] leaves the tables as they are, whatever fails. *)
Lemma create_indexes_frame (indexes : list (string * string)) (c : DB) :
  let c' := Csv.create_indexes indexes c in
  durable c' = durable c /\ working c' = working c /\ accepts c' = accepts c.
Proof.
  cbv zeta. unfold Csv.create_indexes. revert c.
  induction indexes as [|[idx col] indexes IH]; intros c; [done|].
  cbn [fold_left]. destruct (IH (execute c (CREATE_INDEX_IF_NOT_EXISTS idx col)).2)
    as (Hd & Hw & Ha).
  destruct (execute_index_frame c idx col) as (Hd' & Hw' & Ha').
  cbv zeta in *. cbn [snd] in *. rewrite Hd, Hw, Ha. done.
Qed.

(** On a healthy connection whose table has the indexed columns, every
    index statement returns. *)
Lemma create_indexes_healthy (indexes : list (string * string)) (c : DB)
    (t : Table) :
  Forall (fun index => index.2 ∈ columns t) indexes ->
  aborted c = false -> working c = Some t ->
  aborted (Csv.create_indexes indexes c) = false /\
  history (Csv.create_indexes indexes c) = history c ++ map indexed indexes.
Proof.
  unfold Csv.create_indexes. revert c.
  induction indexes as [|[idx col] indexes IH]; intros c Hall Hab Hw.
  - cbn. by rewrite app_nil_r.
  - apply Forall_cons in Hall as [Hcol Hall]. cbn [fold_left].
    assert (execute c (CREATE_INDEX_IF_NOT_EXISTS idx col) =
            (Ok tt, mkDB (durable c) (Some t) false (accepts c) []
                         (history c ++ [indexed (idx, col)]))) as ->.
    { unfold execute. rewrite Hab. cbn. rewrite Hw.
      cbn in Hcol. by rewrite (bool_decide_eq_true_2 _ Hcol). }
    cbn [snd].
    destruct (IH (mkDB (durable c) (Some t) false (accepts c) []
                       (history c ++ [indexed (idx, col)])) Hall eq_refl eq_refl)
      as (Hab' & Hh').
    split; [done|]. rewrite Hh'. cbn [history map]. by rewrite <- app_assoc.
Qed.

(** On a healthy connection with the table, the statistics are read. *)
Lemma final_statistics_ok (c : DB) (t : Table) :
  aborted c = false -> working c = Some t ->
  exists c',
    Csv.final_statistics c = (Ok tt, c') /\
    durable c' = durable c /\ working c' = working c.
Proof.
  intros Hab Hw. unfold Csv.final_statistics, execute, fetchone.
  rewrite Hab. cbn. rewrite Hw. cbn. eexists. split; [reflexivity|]. done.
Qed.

(** A missing table makes them fail. *)
Lemma final_statistics_no_table (c : DB) :
  aborted c = false -> working c = None ->
  raises (Csv.final_statistics c).1 = true.
Proof.
  intros Hab Hw. unfold Csv.final_statistics, execute. rewrite Hab. cbn.
  by rewrite Hw.
Qed.

Lemma commit_facts (c : DB) :
  aborted (commit c) = false /\ working (commit c) = durable (commit c) /\
  accepts (commit c) = accepts c /\
  durable (commit c) = if aborted c then durable c else working c.
Proof. unfold commit. by destruct (aborted c). Qed.

(** The end of [main]: indexes, commit, statistics, close. *)
Lemma main_tail (indexes : list (string * string)) (log : list LogRecord)
    (c : DB) (t : Table) :
  (if aborted (Csv.create_indexes indexes c) then durable c else working c)
    = Some t ->
  exists server',
    match Csv.final_statistics (commit (Csv.create_indexes indexes c)) with
    | (Raise _, connection) => (1, log, close (rollback connection))
    | (Ok _, connection) => (0, log, close connection)
    end = (0, log, server') /\
    durable server' = Some t.
Proof.
  intros Ht.
  destruct (create_indexes_frame indexes c) as (Hd & Hw & Ha). cbv zeta in *.
  destruct (commit_facts (Csv.create_indexes indexes c)) as (Hab & Hwd & _ & Hdur).
  rewrite Hd, Hw, Ht in Hdur.
  destruct (final_statistics_ok (commit (Csv.create_indexes indexes c)) t)
    as (c' & -> & Hd' & _); [done|congruence|].
  eexists. split; [reflexivity|]. cbn. congruence.
Qed.

End Mains.

Section Status.

Variable create_table : list (string * string) -> DB -> Result unit * DB.
Variable import_multiple_files :
  list (string * string) -> FileSystem -> DB -> list string -> Z -> Loader.Run.
Variable schema indexes : list (string * string).
Variable fs : FileSystem.
Variable folder : string.
Variable server : DB.

Hypothesis loop_invariant : forall c files,
  working c = durable c ->
  run_invariant c files (import_multiple_files schema fs c files 1000).

Lemma main_with_status :
  (forall u c1, create_table schema (connect server) = (Ok u, c1) ->
                exists t, working c1 = Some t /\ aborted c1 = false) ->
  (main_with create_table import_multiple_files schema indexes fs folder server).1.1
  = if raises (create_table schema (connect server)).1 then 1
    else if lists_files fs folder then 0 else 1.
Proof.
  intros Hcreate. unfold main_with, lists_files. cbv zeta.
  destruct (create_table schema (connect server)) as [[u|e] c1] eqn:Hc; [|done].
  destruct (Hcreate u c1 eq_refl) as (t & Hw1 & Hab1). cbn [fst raises].
  destruct (get_csv_files fs folder) as [[|f files]|e]; try done.
  destruct (commit_facts c1) as (Hab & Hwd & _ & Hdur).
  rewrite Hab1, Hw1 in Hdur.
  destruct (loop_invariant (commit c1) (f :: files)) as [_ _ Hcol _ _ Hwk _];
    [done|].
  set (run := import_multiple_files schema fs (commit c1) (f :: files) 1000) in *.
  rewrite Hdur in Hcol. rewrite Hcol in Hwk.
  destruct (durable (Loader.run_cursor run)) as [td|] eqn:Htd;
    [|cbn in Hcol; congruence].
  destruct (working (Loader.run_cursor run)) as [tw|] eqn:Htw;
    [|cbn in Hwk; congruence].
  destruct (main_tail indexes (Loader.run_log run) (Loader.run_cursor run)
              (if aborted (Csv.create_indexes indexes (Loader.run_cursor run))
               then td else tw)) as (server' & Htail & _).
  { rewrite Htd, Htw.
    by destruct (aborted (Csv.create_indexes indexes (Loader.run_cursor run))). }
  by rewrite Htail.
Qed.

End Status.

(** X10. The exit status of [main] tells whether the table could be set up
    and the folder listed a file, and nothing else: with a schema the
    server takes, the scripts that drop their table exit with 0 exactly
    when [get_csv_files] finds a file, and the person loader when
    moreover its table did not exist.  Files that fail, rows that are
    rejected and indexes that cannot be created do not change it. *)
Theorem main_exit_status (schema indexes : list (string * string))
    (fs : FileSystem) (folder : string) (server : DB) :
  schema <> [] -> NoDup (column_names schema) ->
  (Org.main schema indexes fs folder server).1.1 =
    (if lists_files fs folder then 0 else 1) /\
  (RawFeed.main schema indexes fs folder server).1.1 =
    (if lists_files fs folder then 0 else 1) /\
  (Csv.main schema indexes fs None folder server).1.1 =
    (if lists_files fs folder then 0 else 1) /\
  (Per.main schema indexes fs folder server).1.1 =
    (if lists_files fs folder && bool_decide (durable server = None)
     then 0 else 1).
Proof.
  intros Hne Hnd.
  destruct (drop_create_table schema (connect server) Hne Hnd eq_refl)
    as (c1 & Hc1 & _ & _ & Hab1 & Hw1).
  assert (forall loop,
    (forall c files, working c = durable c ->
                     run_invariant c files (loop schema fs c files 1000)) ->
    (main_with Csv.create_table loop schema indexes fs folder server).1.1 =
      (if lists_files fs folder then 0 else 1)) as Hdrop.
  { intros loop Hloop.
    rewrite (main_with_status Csv.create_table loop schema indexes fs folder
               server Hloop).
    - by rewrite Hc1.
    - intros u c Hc. rewrite Hc1 in Hc. injection Hc as _ <-. eauto. }
  split; [|split; [|split]].
  - rewrite org_main_with. apply Hdrop. intros c files Hw.
    apply (import_multiple_invariant schema fs 1000 c files Hw).
  - rewrite raw_main_with. apply Hdrop. intros c files Hw.
    apply (import_multiple_invariant schema fs 1000 c files Hw).
  - rewrite csv_main_with. apply Hdrop. intros c files Hw.
    apply (import_multiple_invariant schema fs 1000 c files Hw).
  - rewrite per_main_with.
    rewrite (main_with_status Per.create_table Per.import_multiple_files).
    + destruct (durable server) as [t|] eqn:Hd.
      * rewrite (per_create_table_existing schema (connect server) t Hne eq_refl Hd).
        cbn. by rewrite andb_false_r.
      * destruct (create_absent_table schema (connect server) Hne Hnd eq_refl Hd)
          as (c2 & -> & _). cbn. by rewrite andb_true_r.
    + intros c files Hw. apply (import_multiple_invariant schema fs 1000 c files Hw).
    + intros u c Hc. destruct (durable server) as [t|] eqn:Hd.
      * by rewrite (per_create_table_existing schema (connect server) t Hne
                      eq_refl Hd) in Hc.
      * destruct (create_absent_table schema (connect server) Hne Hnd eq_refl Hd)
          as (c2 & Hc2 & _ & _ & Hab2 & Hw2).
        rewrite Hc2 in Hc. injection Hc as _ <-. eauto.
Qed.

Lemma main_exit_status_witness :
  (Org.main Org.COLUMN_DEFINITIONS Org.indexes broken_then_sound "per" no_table).1.1
    = 1 /\
  (Per.main Per.COLUMN_DEFINITIONS Per.indexes first_delivery "per" no_table).1.1
    = 0.
Proof.
  destruct (main_exit_status Org.COLUMN_DEFINITIONS Org.indexes broken_then_sound
              "per" no_table) as (H1 & _).
  { done. }
  { apply (bool_decide_unpack _). by vm_compute. }
  destruct (main_exit_status Per.COLUMN_DEFINITIONS Per.indexes first_delivery
              "per" no_table) as (_ & _ & _ & H4).
  { done. }
  { apply (bool_decide_unpack _). by vm_compute. }
  split; [exact H1 | exact H4].
Defined.

(** ** Folders of sound files *)

Section Sound.

Variable schema : list (string * string).
Variable process_row : RawRecord -> Result TypedRow.
Variable fs : FileSystem.
Variable batch_size : Z.
Hypothesis batch_size_positive : 0 < batch_size.

Local Abbreviation rows_of := (file_rows process_row fs).

(** A sound file on a connection that takes its rows is imported whole. *)
Lemma sound_file_imported (c : DB) (csv_file : string) (rest : list TypedRow) :
  sound fs csv_file ->
  takes schema c (rows_of csv_file ++ rest) ->
  exists c' t,
    Loader.import_csv_data schema process_row fs c csv_file batch_size =
      (Ok (Py.len (rows_of csv_file)), c') /\
    durable c' = durable c /\
    working c = Some t /\
    working c' = Some (mkTable (columns t) (rows t ++ rows_of csv_file)) /\
    takes schema c' rest.
Proof.
  intros (cf & Hopen & Hfail) Htakes.
  assert (rows_of csv_file = processed process_row (records cf)) as Hrows
    by (unfold file_rows; by rewrite Hopen).
  destruct Htakes as (Hab & (t & Hw & Hcols) & Hnd & Hne & Hacc).
  rewrite forallb_app, andb_true_iff in Hacc. destruct Hacc as [Hacc1 Hacc2].
  destruct (import_rows_chunks schema process_row batch_size (records cf)
              (Loader.mkFrame 0 [] c)) as [Hres _]; [done|by unfold Py.len; cbn; lia| |].
  { cbn [Loader.db Loader.batch app]. rewrite <- Hrows.
    split; [done|]. split; [by exists t|]. done. }
  cbn [Loader.total_rows Loader.batch app] in Hres.
  destruct (import_csv_data_effect schema process_row fs c csv_file batch_size)
    as (Hd & Ha & Hcol & added & Hadd & Hok).
  cbv zeta in *.
  assert (Loader.import_csv_data schema process_row fs c csv_file batch_size =
          Loader.insert_remaining_rows schema
            (Loader.import_rows schema process_row batch_size
               (Loader.mkFrame 0 [] c) (records cf))) as Himp
    by (unfold Loader.import_csv_data; by rewrite Hopen, Hfail).
  rewrite Himp in *.
  destruct (Loader.insert_remaining_rows _ _) as [r c'] eqn:Hrem.
  cbn [fst snd] in *. subst r.
  destruct (Hok _ eq_refl) as (_ & -> & _ & Hhealthy & _).
  exists c', t. rewrite <- Hrows, Z.add_0_l.
  split; [done|]. split; [done|]. split; [done|].
  rewrite Hw in Hcol, Hadd. cbn in Hcol, Hadd.
  destruct (working c') as [[cols' rows']|] eqn:Hw'; [|done].
  cbn in Hcol, Hadd. injection Hcol as ->. subst rows'.
  split; [done|].
  split; [by apply Hhealthy|]. split; [by exists (mkTable (columns t) (rows t ++ rows_of csv_file))|].
  split; [done|]. split; [done|]. by rewrite Ha.
Qed.

Variable import_file : Loader.Run -> string -> Loader.Run.
Hypothesis import_file_after : forall run csv_file,
  import_file run csv_file =
  after_import run csv_file
    (Loader.import_csv_data schema process_row fs (Loader.run_cursor run)
                            csv_file batch_size).

(** Sound files on a connection that takes their rows are imported one
    after the other, each committed. *)
Lemma sound_files_imported (csv_files : list string) (run : Loader.Run) :
  Forall (sound fs) csv_files ->
  takes schema (Loader.run_cursor run) (files_rows process_row fs csv_files) ->
  let run' := fold_left import_file csv_files run in
  Loader.run_log run' =
    Loader.run_log run ++ map (imported_whole process_row fs) csv_files /\
  Loader.run_total run' =
    Loader.run_total run + Py.len (files_rows process_row fs csv_files) /\
  aborted (Loader.run_cursor run') = false /\
  exists t,
    working (Loader.run_cursor run) = Some t /\
    working (Loader.run_cursor run') =
      Some (mkTable (columns t) (rows t ++ files_rows process_row fs csv_files)) /\
    (csv_files <> [] ->
     durable (Loader.run_cursor run') = working (Loader.run_cursor run')).
Proof.
  revert run. induction csv_files as [|f csv_files IH]; intros run Hsound Htakes.
  - cbn. rewrite !app_nil_r. unfold files_rows. cbn.
    destruct Htakes as (Hab & (t & Hw & _) & _).
    split; [done|]. split; [unfold Py.len; cbn; lia|]. split; [done|].
    exists t. rewrite app_nil_r. by destruct t.
  - apply Forall_cons in Hsound as [Hf Hsound].
    unfold files_rows in Htakes. cbn [map concat] in Htakes.
    destruct (sound_file_imported (Loader.run_cursor run) f _ Hf Htakes)
      as (c' & t & Himp & Hd & Hw & Hw' & Htakes').
    cbn [fold_left]. rewrite import_file_after, Himp. cbn [after_import].
    destruct Htakes' as (Hab' & (t' & Hwt' & Hcols') & Hnd & Hne & Hacc).
    assert (commit c' = mkDB (working c') (working c') false (accepts c')
                             (fetched c') (history c' ++ [(COMMIT, None)])) as Hcommit
      by (unfold commit; by rewrite Hab').
    destruct (IH (Loader.mkRun (Loader.run_total run + Py.len (rows_of f))
                               (Loader.run_log run ++ [imported_whole process_row fs f])
                               (commit c'))) as (Hlog & Htot & Hab & t2 & Hw2 & Hw2' & Hdur);
      [done| |].
    { cbn [Loader.run_cursor]. rewrite Hcommit. split; [done|]. cbn.
      split; [by exists t'|]. done. }
    cbv zeta in *. cbn [Loader.run_cursor Loader.run_log Loader.run_total] in *.
    unfold imported_whole in *.
    split; [by rewrite Hlog, <- app_assoc|].
    split; [rewrite Htot; unfold files_rows; cbn [map concat]; rewrite len_app; lia|].
    split; [done|].
    exists t. split; [done|].
    rewrite Hcommit in Hw2. cbn in Hw2. rewrite Hw' in Hw2. injection Hw2 as <-.
    cbn [columns rows] in Hw2'.
    split.
    + rewrite Hw2'. unfold files_rows. cbn [map concat]. by rewrite <- app_assoc.
    + intros _. destruct csv_files as [|g csv_files].
      * cbn. by rewrite Hcommit.
      * by apply Hdur.
Qed.

End Sound.

(** X11. Files that open and are read to their end, on a connection that
    takes their rows, are imported whole and in run order: the log has
    one line per file with the number of its rows, the total is their
    sum, and the table holds the rows it had followed by the rows of the
    files, file after file; after the last file nothing is pending. *)
Theorem sound_files_are_imported_in_order (schema : list (string * string))
    (fs : FileSystem) (cursor : DB) (csv_files : list string) (batch_size : Z)
    (process_row : RawRecord -> Result TypedRow) (run : Loader.Run) :
  (process_row = Csv.process_row schema /\
   run = Csv.import_multiple_csv_files schema fs cursor csv_files batch_size) \/
  (process_row = RawFeed.process_row schema /\
   run = RawFeed.import_multiple_files schema fs cursor csv_files batch_size) ->
  0 < batch_size ->
  Forall (sound fs) csv_files ->
  takes schema cursor (files_rows process_row fs csv_files) ->
  Loader.run_log run = map (imported_whole process_row fs) csv_files /\
  Loader.run_total run = Py.len (files_rows process_row fs csv_files) /\
  table_rows (working (Loader.run_cursor run)) =
    table_rows (working cursor) ++ files_rows process_row fs csv_files /\
  (csv_files <> [] ->
   durable (Loader.run_cursor run) = working (Loader.run_cursor run)).
Proof.
  intros Hrun Hbs Hsound Htakes.
  assert (exists import_file,
            run = fold_left import_file csv_files (Loader.mkRun 0 [] cursor) /\
            forall r f, import_file r f =
              after_import r f
                (Loader.import_csv_data schema process_row fs (Loader.run_cursor r)
                                        f batch_size)) as (import_file & -> & Hafter).
  { destruct Hrun as [[-> ->] | [-> ->]].
    - by exists (Csv.import_file schema fs batch_size).
    - by exists (RawFeed.import_file schema fs batch_size). }
  destruct (sound_files_imported schema process_row fs batch_size Hbs import_file
              Hafter csv_files (Loader.mkRun 0 [] cursor) Hsound Htakes)
    as (Hlog & Htot & _ & t & Hw & Hw' & Hdur).
  cbv zeta in *. cbn [Loader.run_cursor Loader.run_log Loader.run_total app] in *.
  split; [done|]. split; [by rewrite Htot|]. split; [|done].
  by rewrite Hw', Hw.
Qed.

Lemma sound_files_are_imported_in_order_witness :
  let process_row := RawFeed.process_row RawFeed.COLUMN_DEFINITIONS in
  let run := RawFeed.import_multiple_files RawFeed.COLUMN_DEFINITIONS
               broken_then_sound (empty_table RawFeed.COLUMN_DEFINITIONS)
               ["per/b.csv"; "per/b.csv"] 1000 in
  Loader.run_log run = [Imported "per/b.csv" 1; Imported "per/b.csv" 1] /\
  Loader.run_total run = 2 /\
  table_rows (durable (Loader.run_cursor run)) =
    file_rows process_row broken_then_sound "per/b.csv" ++
    file_rows process_row broken_then_sound "per/b.csv".
Proof.
  cbv zeta.
  destruct (sound_files_are_imported_in_order RawFeed.COLUMN_DEFINITIONS
              broken_then_sound (empty_table RawFeed.COLUMN_DEFINITIONS)
              ["per/b.csv"; "per/b.csv"] 1000
              (RawFeed.process_row RawFeed.COLUMN_DEFINITIONS)
              (RawFeed.import_multiple_files RawFeed.COLUMN_DEFINITIONS
                 broken_then_sound (empty_table RawFeed.COLUMN_DEFINITIONS)
                 ["per/b.csv"; "per/b.csv"] 1000))
    as (Hlog & Htot & Hrows & Hdur).
  - right. split; reflexivity.
  - reflexivity.
  - repeat constructor; eexists; split; reflexivity.
  - split; [reflexivity|]. split; [eexists; split; reflexivity|].
    split; [apply (bool_decide_unpack _); by vm_compute|].
    split; [done|]. by vm_compute.
  - split; [exact Hlog|]. split; [exact Htot|].
    rewrite Hdur by done. rewrite Hrows. unfold files_rows. cbn [map concat].
    by rewrite app_nil_r.
Defined.

(** X12. A run of a script that drops its table, over a folder whose files
    open and are read to their end, on a server that takes their rows:
    [main] exits with 0 and the committed table holds exactly the rows of
    the files of this run, in sorted file order, whatever the table held
    before. *)
Theorem main_loads_the_folder (schema indexes : list (string * string))
    (fs : FileSystem) (folder : string) (server : DB)
    (csv_file : string) (more : list string)
    (process_row : RawRecord -> Result TypedRow)
    (result : Z * list LogRecord * DB) :
  (process_row = Csv.process_row schema /\
   result = Org.main schema indexes fs folder server) \/
  (process_row = Csv.process_row schema /\
   result = Csv.main schema indexes fs None folder server) \/
  (process_row = RawFeed.process_row schema /\
   result = RawFeed.main schema indexes fs folder server) ->
  schema <> [] -> NoDup (column_names schema) ->
  get_csv_files fs folder = Ok (csv_file :: more) ->
  Forall (sound fs) (csv_file :: more) ->
  forallb (accepts server) (files_rows process_row fs (csv_file :: more)) = true ->
  result.1 = (0, map (imported_whole process_row fs) (csv_file :: more)) /\
  durable result.2 =
    Some (mkTable (column_names schema)
                  (files_rows process_row fs (csv_file :: more))).
Proof.
  intros Hres Hne Hnd Hfiles Hsound Hacc.
  assert (exists loop import_file,
            result = main_with Csv.create_table loop schema indexes fs folder server /\
            (forall c files,
               loop schema fs c files 1000 =
               fold_left import_file files (Loader.mkRun 0 [] c)) /\
            forall r f, import_file r f =
              after_import r f
                (Loader.import_csv_data schema process_row fs (Loader.run_cursor r)
                                        f 1000))
    as (loop & import_file & -> & Hloop & Hafter).
  { destruct Hres as [[-> ->] | [[-> ->] | [-> ->]]].
    - by exists Csv.import_multiple_csv_files, (Csv.import_file schema fs 1000).
    - exists Csv.import_multiple_csv_files, (Csv.import_file schema fs 1000).
      by rewrite csv_main_with.
    - by exists RawFeed.import_multiple_files, (RawFeed.import_file schema fs 1000). }
  destruct (drop_create_table schema (connect server) Hne Hnd eq_refl)
    as (c1 & Hc1 & _ & Ha1 & Hab1 & Hw1).
  unfold main_with. cbv zeta. rewrite Hc1, Hfiles, Hloop.
  assert (commit c1 = mkDB (working c1) (working c1) false (accepts c1)
                           (fetched c1) (history c1 ++ [(COMMIT, None)])) as Hcommit
    by (unfold commit; by rewrite Hab1).
  destruct (sound_files_imported schema process_row fs 1000 eq_refl import_file
              Hafter (csv_file :: more) (Loader.mkRun 0 [] (commit c1)) Hsound)
    as (Hlog & _ & Hab & t & Hw & Hw' & Hdur).
  { cbn [Loader.run_cursor]. rewrite Hcommit. split; [done|]. cbn.
    rewrite Hw1. split; [by eexists|]. split; [done|].
    split; [by destruct schema|]. by rewrite Ha1. }
  cbv zeta in *. cbn [Loader.run_cursor Loader.run_log app] in *.
  set (run := fold_left import_file (csv_file :: more) _) in *.
  rewrite Hcommit in Hw. cbn in Hw. rewrite Hw1 in Hw. injection Hw as <-.
  cbn [columns rows app] in Hw'.
  destruct (main_tail indexes (Loader.run_log run) (Loader.run_cursor run)
              (mkTable (column_names schema)
                       (files_rows process_row fs (csv_file :: more))))
    as (server' & Htail & Hd').
  { rewrite Hdur by done. rewrite Hw'.
    by destruct (aborted (Csv.create_indexes indexes (Loader.run_cursor run))). }
  rewrite Htail. cbn [fst snd]. by rewrite Hlog.
Qed.

Lemma main_loads_the_folder_witness :
  let process_row := Csv.process_row Org.COLUMN_DEFINITIONS in
  let result := Org.main Org.COLUMN_DEFINITIONS Org.indexes org_delivery "org"
                         holds_ann in
  result.1 = (0, [Imported "org/a.csv.gz" 1; Imported "org/b.csv" 2]) /\
  durable result.2 =
    Some (mkTable (column_names Org.COLUMN_DEFINITIONS)
                  (processed process_row
                     [company "Acme" "acme.example" "1999";
                      company "Bolt" "bolt.example" "2004.0";
                      company "Cask" "cask.example" "\N"])).
Proof.
  cbv zeta.
  apply (main_loads_the_folder Org.COLUMN_DEFINITIONS Org.indexes org_delivery
           "org" holds_ann "org/a.csv.gz" ["org/b.csv"]
           (Csv.process_row Org.COLUMN_DEFINITIONS)).
  - left. split; reflexivity.
  - done.
  - apply (bool_decide_unpack _). by vm_compute.
  - by vm_compute.
  - repeat constructor; eexists; split; reflexivity.
  - by vm_compute.
Defined.

(** ** Rows the server rejects *)

Section Failed.

Variable schema : list (string * string).
Variable process_row : RawRecord -> Result TypedRow.
Variable fs : FileSystem.
Variable batch_size : Z.

Local Abbreviation import_row := (Loader.import_row schema process_row batch_size).
Local Abbreviation import_rows := (Loader.import_rows schema process_row batch_size).
Local Abbreviation rows_of := (file_rows process_row fs).

Lemma execute_batch_aborted (c : DB) (b : list TypedRow) :
  aborted c = true ->
  execute_batch c (column_names schema) b =
    (Raise InFailedSqlTransaction,
     mkDB (durable c) (working c) true (accepts c) []
          (history c ++ [(INSERT (column_names schema) b, Some InFailedSqlTransaction)])).
Proof. intros Hab. unfold execute_batch, execute. by rewrite Hab. Qed.

Lemma execute_batch_rejects (c : DB) (b : list TypedRow) :
  rejects c b ->
  exists e c', execute_batch c (column_names schema) b = (Raise e, c') /\
               aborted c' = true /\ durable c' = durable c /\
               working c' = working c /\ accepts c' = accepts c.
Proof.
  intros (r & Hin & Hr).
  destruct (execute_batch c (column_names schema) b) as [[u|e] c'] eqn:Hex.
  - apply execute_batch_ok in Hex as (_ & t & _ & _ & _ & _ & Hacc & _).
    rewrite forallb_forall in Hacc.
    rewrite (Hacc r) in Hr; [done|]. by apply list_elem_of_In.
  - exists e, c'. split; [done|]. by apply execute_batch_raise in Hex as ->.
Qed.



Lemma rejects_app_l (c : DB) (l1 l2 : list TypedRow) :
  rejects c l1 -> rejects c (l1 ++ l2).
Proof. intros (r & Hin & Hr). exists r. split; [|done]. apply elem_of_app. by left. Qed.

(** Once the batch is stuck it stays so. *)
Lemma stuck_row (st : Loader.Frame) (row : RawRecord) :
  stuck st ->
  stuck (import_row st row) /\
  accepts (Loader.db (import_row st row)) = accepts (Loader.db st) /\
  durable (Loader.db (import_row st row)) = durable (Loader.db st).
Proof.
  intros Hst. unfold Loader.import_row.
  destruct (process_row row) as [p|e]; [|done].
  destruct (Py.len (Loader.batch st ++ [p]) >=? batch_size).
  - destruct Hst as [Hrej | [Hab Hne]].
    + destruct (execute_batch_rejects (Loader.db st) (Loader.batch st ++ [p]))
        as (e & c' & -> & Hab' & Hd' & _ & Ha'); [by apply rejects_app_l|].
      split; [|done]. right. cbn. split; [done|]. by destruct (Loader.batch st).
    + rewrite (execute_batch_aborted _ _ Hab). split; [|done].
      right. cbn. split; [done|]. by destruct (Loader.batch st).
  - split; [|done]. destruct Hst as [Hrej | [Hab Hne]].
    + left. cbn. by apply rejects_app_l.
    + right. cbn. split; [done|]. by destruct (Loader.batch st).
Qed.

(** A row the server rejects makes the batch stuck. *)
Lemma rejected_row_sticks (st : Loader.Frame) (row : RawRecord) (p : TypedRow) :
  process_row row = Ok p -> accepts (Loader.db st) p = false ->
  stuck (import_row st row) /\
  accepts (Loader.db (import_row st row)) = accepts (Loader.db st) /\
  durable (Loader.db (import_row st row)) = durable (Loader.db st).
Proof.
  intros Hp Hacc. unfold Loader.import_row. rewrite Hp.
  assert (rejects (Loader.db st) (Loader.batch st ++ [p])) as Hrej.
  { exists p. split; [|done]. apply elem_of_app. right. by apply list_elem_of_singleton. }
  destruct (Py.len (Loader.batch st ++ [p]) >=? batch_size).
  - destruct (execute_batch_rejects (Loader.db st) (Loader.batch st ++ [p]) Hrej)
      as (e & c' & -> & Hab' & Hd' & _ & Ha').
    split; [|done]. right. cbn. split; [done|]. by destruct (Loader.batch st).
  - split; [|done]. by left.
Qed.

Lemma import_row_frame (st : Loader.Frame) (row : RawRecord) :
  accepts (Loader.db (import_row st row)) = accepts (Loader.db st) /\
  durable (Loader.db (import_row st row)) = durable (Loader.db st).
Proof.
  unfold Loader.import_row.
  destruct (process_row row) as [p|e]; [|done].
  destruct (Py.len (Loader.batch st ++ [p]) >=? batch_size); [|done].
  destruct (execute_batch _ _ _) as [[u|e] c'] eqn:Hex.
  - by apply execute_batch_ok in Hex as (_ & t & _ & _ & _ & _ & _ & ->).
  - by apply execute_batch_raise in Hex as ->.
Qed.

Lemma stuck_rows (reader : list RawRecord) (st : Loader.Frame) :
  stuck st \/ rejects (Loader.db st) (processed process_row reader) ->
  stuck (import_rows st reader) /\
  durable (Loader.db (import_rows st reader)) = durable (Loader.db st).
Proof.
  revert st. induction reader as [|row reader IH]; intros st Hst.
  - destruct Hst as [Hst | (r & Hin & _)]; [done|]. by apply elem_of_nil in Hin.
  - unfold Loader.import_rows. cbn [fold_left].
    fold (import_rows (import_row st row) reader).
    destruct Hst as [Hst | Hrej].
    + destruct (stuck_row st row Hst) as (Hst' & Ha & Hd).
      destruct (IH (import_row st row)) as (H1 & H2); [by left|].
      split; [done|congruence].
    + destruct (process_row row) as [p|e] eqn:Hp.
      * rewrite (processed_cons_ok process_row row reader p Hp) in Hrej.
        destruct Hrej as (r & Hin & Hr).
        apply elem_of_cons in Hin as [->|Hin].
        -- destruct (rejected_row_sticks st row p Hp Hr) as (Hst' & Ha & Hd).
           destruct (IH (import_row st row)) as (H1 & H2); [by left|].
           split; [done|congruence].
        -- destruct (import_row_frame st row) as (Ha & Hd).
           destruct (IH (import_row st row)) as (H1 & H2).
           { right. exists r. split; [done|]. by rewrite Ha. }
           split; [done|congruence].
      * rewrite (processed_cons_raise process_row row reader e Hp) in Hrej.
        assert (import_row st row = st) as ->
          by (unfold Loader.import_row; by rewrite Hp).
        apply IH. by right.
Qed.

Lemma stuck_remaining (st : Loader.Frame) :
  stuck st ->
  exists e c', Loader.insert_remaining_rows schema st = (Raise e, c') /\
               aborted c' = true /\ durable c' = durable (Loader.db st).
Proof.
  intros Hst. unfold Loader.insert_remaining_rows.
  destruct (Loader.batch st) as [|r b] eqn:Hb.
  - destruct Hst as [(x & Hin & _) | [_ Hne]]; [|done].
    rewrite Hb in Hin. by apply elem_of_nil in Hin.
  - destruct Hst as [Hrej | [Hab _]].
    + rewrite Hb in Hrej.
      destruct (execute_batch_rejects (Loader.db st) (r :: b) Hrej)
        as (e & c' & -> & Hab' & Hd' & _). by exists e, c'.
    + rewrite (execute_batch_aborted _ _ Hab). by eexists _, _.
Qed.

(** A file that is read to its end and holds a row the server rejects
    fails, and leaves the transaction failed. *)
Lemma import_csv_data_rejected (c : DB) (csv_file : string) :
  sound fs csv_file -> rejects c (rows_of csv_file) ->
  exists e c',
    Loader.import_csv_data schema process_row fs c csv_file batch_size
      = (Raise e, c') /\
    aborted c' = true /\ durable c' = durable c.
Proof.
  intros (cf & Hopen & Hfail) Hrej. unfold file_rows in Hrej.
  unfold Loader.import_csv_data. rewrite Hopen in *. rewrite Hfail.
  destruct (stuck_rows (records cf) (Loader.mkFrame 0 [] c)) as (Hst & Hd);
    [by right|].
  destruct (stuck_remaining _ Hst) as (e & c' & -> & Hab & Hd').
  exists e, c'. split; [done|]. split; [done|]. by rewrite Hd', Hd.
Qed.

Variable import_file : Loader.Run -> string -> Loader.Run.
Hypothesis import_file_aborted : forall run csv_file,
  aborted (Loader.run_cursor run) = true ->
  exists c,
    aborted c = true /\
    durable c = durable (Loader.run_cursor run) /\
    working c = working (Loader.run_cursor run) /\
    import_file run csv_file =
    after_import run csv_file
      (Loader.import_csv_data schema process_row fs c csv_file batch_size).


End Failed.

Section Poisoned.






End Poisoned.

(** X13. A file that is read to its end and holds a row the server rejects
    is not imported at all: [import_csv_data] raises, whatever the batch
    size and wherever the row stands, nothing of the file is committed,
    and the transaction is left failed. *)
Theorem rejected_row_fails_its_file (schema : list (string * string))
    (process_row : RawRecord -> Result TypedRow) (fs : FileSystem)
    (cursor : DB) (csv_file_path : string) (batch_size : Z) :
  sound fs csv_file_path ->
  rejects cursor (file_rows process_row fs csv_file_path) ->
  let outcome := Loader.import_csv_data schema process_row fs cursor
                                        csv_file_path batch_size in
  raises outcome.1 = true /\ aborted outcome.2 = true /\
  durable outcome.2 = durable cursor.
Proof.
  intros Hsound Hrej. cbv zeta.
  destruct (import_csv_data_rejected schema process_row fs batch_size cursor
              csv_file_path Hsound Hrej) as (e & c' & -> & Hab & Hd).
  done.
Qed.

Lemma rejected_row_fails_its_file_witness :
  let outcome := Per.import_csv_data Per.COLUMN_DEFINITIONS three_people
                   (rejects_bob Per.COLUMN_DEFINITIONS) "per/people.csv" 2 in
  raises outcome.1 = true /\ aborted outcome.2 = true /\
  durable outcome.2 = durable (rejects_bob Per.COLUMN_DEFINITIONS).
Proof.
  apply (rejected_row_fails_its_file Per.COLUMN_DEFINITIONS
           (Per.process_row Per.COLUMN_DEFINITIONS) three_people
           (rejects_bob Per.COLUMN_DEFINITIONS) "per/people.csv" 2).
  - eexists. split; reflexivity.
  - exists (default []
              (file_rows (Per.process_row Per.COLUMN_DEFINITIONS) three_people
                         "per/people.csv" !! 1%nat)).
    split; [|by vm_compute].
    apply (list_elem_of_lookup_2 _ 1). by vm_compute.
Defined.



Section Lost.

Variable schema : list (string * string).
Variable process_row : RawRecord -> Result TypedRow.
Variable fs : FileSystem.
Variable batch_size : Z.
Hypothesis batch_size_positive : 0 < batch_size.
Variable import_file : Loader.Run -> string -> Loader.Run.
Hypothesis import_file_after : forall run csv_file,
  import_file run csv_file =
  after_import run csv_file
    (Loader.import_csv_data schema process_row fs (Loader.run_cursor run)
                            csv_file batch_size).




End Lost.



(** X16. The single-file mode of [import_csv_to_postgres.py] is all or
    nothing: when the import of the file returns, [main] exits with 0 and
    the committed table holds exactly the rows of the file; when it
    raises, [main] rolls back and exits with 1, and the table is left
    empty.  Either way what the table held before is gone. *)
Theorem single_file_mode_is_all_or_nothing
    (schema indexes : list (string * string)) (fs : FileSystem)
    (CSV_FILE_PATH folder : string) (server : DB) :
  schema <> [] -> NoDup (column_names schema) -> CSV_FILE_PATH <> "" ->
  let result := Csv.main schema indexes fs (Some CSV_FILE_PATH) folder server in
  (result.1 = (0, []) /\ sound fs CSV_FILE_PATH /\
   durable result.2 =
     Some (mkTable (column_names schema)
                   (file_rows (Csv.process_row schema) fs CSV_FILE_PATH))) \/
  (result.1 = (1, []) /\
   durable result.2 = Some (mkTable (column_names schema) [])).
Proof.
  intros Hne Hnd Hpath. cbv zeta. unfold Csv.main. cbv zeta.
  destruct (drop_create_table schema (connect server) Hne Hnd eq_refl)
    as (c1 & -> & _ & Ha1 & Hab1 & Hw1).
  destruct CSV_FILE_PATH as [|a path]; [done|].
  assert (commit c1 = mkDB (working c1) (working c1) false (accepts c1)
                           (fetched c1) (history c1 ++ [(COMMIT, None)])) as Hcommit
    by (unfold commit; by rewrite Hab1).
  destruct (import_csv_data_effect schema (Csv.process_row schema) fs (commit c1)
              (String a path) 1000) as (Hd & _ & Hcol & added & Hrows & Hok).
  cbv zeta in *. unfold Csv.import_csv_data.
  destruct (Loader.import_csv_data schema (Csv.process_row schema) fs (commit c1)
              (String a path) 1000) as [[n|e] c'] eqn:Himp; cbn [fst snd] in *.
  - left. destruct (Hok n eq_refl) as (_ & -> & Hsound & Hhealthy & _).
    rewrite Hcommit in Hcol, Hrows, Hhealthy. cbn in Hcol, Hrows, Hhealthy.
    rewrite Hw1 in Hcol, Hrows. cbn in Hcol, Hrows.
    destruct (working c') as [[cols' rows']|] eqn:Hw'; [|done].
    cbn in Hcol, Hrows. injection Hcol as ->. subst rows'.
    destruct (main_tail indexes [] (commit c')
                (mkTable (column_names schema)
                         (file_rows (Csv.process_row schema) fs (String a path))))
      as (server' & Htail & Hd').
    { destruct (commit_facts c') as (_ & Hwd & _ & Hdur).
      rewrite Hhealthy in Hdur by done. rewrite Hwd, Hdur, Hw'.
      by destruct (aborted (Csv.create_indexes indexes (commit c'))). }
    rewrite Htail. done.
  - right. cbn. split; [done|]. rewrite Hd, Hcommit. cbn. by rewrite Hw1.
Qed.

Lemma single_file_mode_is_all_or_nothing_witness :
  let result := Csv.main Csv.COLUMN_DEFINITIONS Csv.indexes org_delivery
                         (Some "org/b.csv") "org" holds_ann in
  (result.1 = (0, []) /\ sound org_delivery "org/b.csv" /\
   durable result.2 =
     Some (mkTable (column_names Csv.COLUMN_DEFINITIONS)
                   (file_rows (Csv.process_row Csv.COLUMN_DEFINITIONS) org_delivery
                              "org/b.csv"))) \/
  (result.1 = (1, []) /\
   durable result.2 = Some (mkTable (column_names Csv.COLUMN_DEFINITIONS) [])).
Proof.
  apply (single_file_mode_is_all_or_nothing Csv.COLUMN_DEFINITIONS Csv.indexes
           org_delivery "org/b.csv" "org" holds_ann).
  - done.
  - apply (bool_decide_unpack _). by vm_compute.
  - done.
Defined.

(** X17. No index statement of a script can fail on the script's own
    table: every index is on a column of the schema, so on a healthy
    connection [create_indexes] sends one statement per index, each
    returns, and the table and its rows stay as they are. *)
Theorem create_indexes_on_own_table (schema indexes : list (string * string))
    (cursor : DB) (t : Table) :
  (schema, indexes) ∈ loaders ->
  aborted cursor = false -> working cursor = Some t ->
  columns t = column_names schema ->
  let after := Csv.create_indexes indexes cursor in
  since cursor after = map indexed indexes /\
  aborted after = false /\
  working after = Some t /\ durable after = durable cursor.
Proof.
  intros Hin Hab Hw Hcols. cbv zeta.
  assert (Forall (fun index => index.2 ∈ columns t) indexes) as Hall.
  { rewrite Hcols. apply Forall_forall. intros index Hindex.
    unfold loaders in Hin.
    repeat (apply elem_of_cons in Hin as [[= -> ->]|Hin]);
      [| | | |by apply elem_of_nil in Hin].
    all: repeat (apply elem_of_cons in Hindex as [->|Hindex];
                 [apply (bool_decide_unpack _); by vm_compute|]).
    all: by apply elem_of_nil in Hindex. }
  destruct (create_indexes_healthy indexes cursor t Hall Hab Hw) as (Hab' & Hh).
  destruct (create_indexes_frame indexes cursor) as (Hd & Hw' & _).
  cbv zeta in *. split; [by apply since_app|]. split; [done|].
  split; [by rewrite Hw'|done].
Qed.

Lemma create_indexes_on_own_table_witness :
  let after := Csv.create_indexes Per.indexes holds_ann in
  since holds_ann after = map indexed Per.indexes /\
  aborted after = false /\
  working after = working holds_ann /\ durable after = durable holds_ann.
Proof.
  apply (create_indexes_on_own_table Per.COLUMN_DEFINITIONS Per.indexes holds_ann
           (mkTable (column_names Per.COLUMN_DEFINITIONS) [ann_row])).
  - apply (bool_decide_unpack _). by vm_compute.
  - reflexivity.
  - reflexivity.
  - reflexivity.
Defined.

(** ** The probe of the duplicate guard *)

Section Exact.

Lemma field_lookup (t : Table) (stored : TypedRow) (i : nat) (col : string) :
  NoDup (columns t) -> columns t !! i = Some col ->
  field t stored col = default PyNone (stored !! i).
Proof.
  intros Hnd Hc. unfold field. by rewrite (list_find_NoDup _ i col).
Qed.

Lemma holds_piece_inv (t : Table) (stored : TypedRow) (i : nat) (col : string)
    (value x : PyValue) :
  NoDup (columns t) -> columns t !! i = Some col -> stored !! i = Some x ->
  holds t stored (piece col value) = true -> x = value.
Proof.
  intros Hnd Hc Hx. unfold piece, holds.
  destruct value; rewrite (field_lookup t stored i col Hnd Hc), Hx; cbn.
  - by intros ->%bool_decide_eq_true.
  - by intros [_ ->%bool_decide_eq_true]%andb_true_iff.
  - by intros [_ ->%bool_decide_eq_true]%andb_true_iff.
  - by intros [_ ->%bool_decide_eq_true]%andb_true_iff.
  - by intros [_ ->%bool_decide_eq_true]%andb_true_iff.
Qed.

(** The probe of a row is satisfied by that row only. *)
Lemma probe_exact (t : Table) (r stored : TypedRow) :
  NoDup (columns t) ->
  length r = length (columns t) -> length stored = length (columns t) ->
  satisfies t (probe (columns t) r) stored = true -> stored = r.
Proof.
  intros Hnd Hr Hs Hsat. unfold satisfies, probe in Hsat.
  rewrite forallb_forall in Hsat.
  apply list_eq_same_length with (length r); [done|congruence|].
  intros i x y Hi Hx Hy.
  destruct (lookup_lt_is_Some_2 (columns t) i) as [col Hc]; [lia|].
  apply (holds_piece_inv t stored i col y x Hnd Hc Hx).
  apply Hsat. apply list_elem_of_In. apply (list_elem_of_lookup_2 _ i).
  apply lookup_zip_with_Some. by exists col, y.
Qed.

(** On the table of the schema the probe finds a row exactly when the
    coerced record is stored. *)
Lemma probe_finds_stored (schema : list (string * string)) (cursor : DB)
    (t : Table) (row : RawRecord) (r : TypedRow) :
  on_table schema cursor t -> Per.process_row schema row = Ok r ->
  probe_finds cursor (probe (column_names schema) r) <-> r ∈ rows t.
Proof.
  intros (Hab & Hw & Hcols & Hnd & Hne & Hlen) Hr. split.
  - intros (_ & t' & Hw' & _ & _ & stored & Hin & Hsat).
    rewrite Hw in Hw'. injection Hw' as <-.
    rewrite Forall_forall in Hlen.
    apply process_row_length in Hr. rewrite <- Hcols in Hr, Hsat, Hnd.
    assert (stored = r) as <-; [|done].
    apply (probe_exact t r stored Hnd Hr); [|done].
    rewrite Hcols. by apply Hlen.
  - intros Hin. by apply (stored_row_found schema cursor t row r).
Qed.

Lemma guard_first_row (schema : list (string * string)) (fs : FileSystem)
    (cursor : DB) (t : Table) (csv_file_path : string) :
  on_table schema cursor t ->
  (Per.is_csv_file_imported schema fs cursor csv_file_path).1 = true <->
  exists r, first_row (Per.process_row schema) fs csv_file_path = Some r /\
            r ∈ rows t.
Proof.
  intros Hon. rewrite guard_answer. unfold first_row. split.
  - intros (cf & row & rest & r & -> & -> & Hr & Hfinds). rewrite Hr.
    exists r. split; [done|]. by apply (probe_finds_stored schema cursor t row r).
  - intros (r & Hfirst & Hin).
    destruct (open_csv_file fs csv_file_path) as [cf|e]; [|done].
    destruct (records cf) as [|row rest] eqn:Hrec; [done|].
    destruct (Per.process_row schema row) as [r'|e] eqn:Hr; [|done].
    injection Hfirst as ->.
    exists cf, row, rest, r. split; [done|]. split; [done|]. split; [done|].
    by apply (probe_finds_stored schema cursor t row r).
Qed.

(** The probe itself leaves such a connection as it is, up to what was
    fetched and the history. *)
Lemma guard_on_table (schema : list (string * string)) (fs : FileSystem)
    (cursor : DB) (t : Table) (csv_file_path : string) :
  on_table schema cursor t ->
  on_table schema (Per.is_csv_file_imported schema fs cursor csv_file_path).2 t /\
  accepts (Per.is_csv_file_imported schema fs cursor csv_file_path).2 =
    accepts cursor /\
  durable (Per.is_csv_file_imported schema fs cursor csv_file_path).2 =
    durable cursor.
Proof.
  intros Hon.
  destruct (guard_cursor schema fs cursor csv_file_path) as (Hd & Hw & Ha & _).
  cbv zeta in *. split; [|done].
  destruct Hon as (Hab & Hwt & Hcols & Hnd & Hne & Hlen).
  split; [|by rewrite Hw].
  unfold Per.is_csv_file_imported.
  destruct (open_csv_file fs csv_file_path) as [cf|e]; [|done].
  destruct (records cf) as [|row rest]; [by destruct (failure cf)|].
  destruct (Per.process_row schema row) as [r|e] eqn:Hr; [|done].
  rewrite (where_clause_of_processed schema row r Hr).
  unfold execute. rewrite Hab. cbn. rewrite Hwt.
  pose proof (process_row_length schema row r Hr) as Hlenr.
  destruct (probe (column_names schema) r) as [|p ps] eqn:Hprobe.
  { by destruct (probe_nonempty (column_names schema) r Hne Hlenr). }
  rewrite <- Hprobe.
  assert (forallb (fun p => bool_decide (column_of p ∈ columns t))
                  (probe (column_names schema) r) = true) as ->.
  { apply forallb_forall. intros q Hq%list_elem_of_In.
    apply bool_decide_eq_true_2. rewrite Hcols. by apply (probe_columns _ r). }
  rewrite Hprobe. cbn. unfold fetchone. cbn.
  by destruct (take 1 _).
Qed.

End Exact.

(** X18. On the table of the schema, the guard answers True exactly when
    the coerced first record of the file is a row of the table, equal to
    it in every column, NULLs included; it does not look at any other
    record, so a file that shares its first record with the table is
    taken for imported. *)
Theorem guard_finds_exactly_the_first_row (schema : list (string * string))
    (fs : FileSystem) (cursor : DB) (t : Table) (csv_file_path : string) :
  on_table schema cursor t ->
  (Per.is_csv_file_imported schema fs cursor csv_file_path).1 = true <->
  exists r, first_row (Per.process_row schema) fs csv_file_path = Some r /\
            r ∈ rows t.
Proof. apply guard_first_row. Qed.

Lemma guard_finds_exactly_the_first_row_witness :
  (Per.is_csv_file_imported Per.COLUMN_DEFINITIONS three_people holds_ann
                            "per/people.csv").1 = true <->
  exists r, first_row (Per.process_row Per.COLUMN_DEFINITIONS) three_people
                      "per/people.csv" = Some r /\
            r ∈ [ann_row].
Proof.
  apply (guard_finds_exactly_the_first_row Per.COLUMN_DEFINITIONS three_people
           holds_ann (mkTable (column_names Per.COLUMN_DEFINITIONS) [ann_row])).
  split; [reflexivity|]. split; [reflexivity|]. split; [reflexivity|].
  split; [apply (bool_decide_unpack _); by vm_compute|].
  split; [done|]. repeat constructor.
Defined.

(** ** The first run of the person loader *)

Section FirstRun.

Variable schema : list (string * string).
Variable fs : FileSystem.
Variable batch_size : Z.
Hypothesis batch_size_positive : 0 < batch_size.

Local Abbreviation P := (Per.process_row schema).

Lemma file_rows_length (csv_file : string) :
  Forall (fun r => length r = length (column_names schema))
         (file_rows P fs csv_file).
Proof.
  unfold file_rows. destruct (open_csv_file fs csv_file) as [cf|e]; [|constructor].
  unfold processed. apply Forall_forall. intros r Hin.
  apply list_elem_of_omap in Hin as (row & _ & Hrow).
  destruct (P row) as [r'|e] eqn:Hr; [|done]. injection Hrow as ->.
  by apply (process_row_length schema row).
Qed.

Lemma per_sound_files_imported (csv_files : list string) (run : Loader.Run)
    (t0 : Table) :
  Forall (sound fs) csv_files ->
  on_table schema (Loader.run_cursor run) t0 ->
  forallb (accepts (Loader.run_cursor run)) (files_rows P fs csv_files) = true ->
  starts_fresh P fs (rows t0) csv_files = true ->
  let run' := fold_left (Per.import_file schema fs batch_size) csv_files run in
  Loader.run_log run' = Loader.run_log run ++ map (imported_whole P fs) csv_files /\
  Loader.run_total run' = Loader.run_total run + Py.len (files_rows P fs csv_files) /\
  working (Loader.run_cursor run') =
    Some (mkTable (columns t0) (rows t0 ++ files_rows P fs csv_files)) /\
  aborted (Loader.run_cursor run') = false /\
  (csv_files <> [] ->
   durable (Loader.run_cursor run') = working (Loader.run_cursor run')).
Proof.
  revert run t0.
  induction csv_files as [|f csv_files IH]; intros run t0 Hsound Hon Hacc Hfresh.
  - cbn. rewrite !app_nil_r. unfold files_rows. cbn. rewrite ?app_nil_r.
    destruct Hon as (Hab & Hw & _).
    split; [done|]. split; [unfold Py.len; cbn; lia|].
    split; [by destruct t0|]. done.
  - apply Forall_cons in Hsound as [Hf Hsound].
    cbn [starts_fresh] in Hfresh. apply andb_true_iff in Hfresh as [Hfirst Hfresh].
    unfold files_rows in Hacc. cbn [map concat] in Hacc.
    cbn [fold_left]. rewrite per_import_file_after. cbv zeta.
    destruct (guard_on_table schema fs (Loader.run_cursor run) t0 f Hon)
      as (Hon' & Ha' & Hd').
    assert ((Per.is_csv_file_imported schema fs (Loader.run_cursor run) f).1 = false)
      as ->.
    { destruct (Per.is_csv_file_imported schema fs (Loader.run_cursor run) f).1
        eqn:Hg; [|done].
      apply (guard_first_row schema fs _ t0 f Hon) in Hg as (r & Hr & Hin).
      rewrite Hr in Hfirst. by rewrite (bool_decide_eq_true_2 _ Hin) in Hfirst. }
    set (cg := (Per.is_csv_file_imported schema fs (Loader.run_cursor run) f).2) in *.
    destruct Hon' as (Hab & Hw & Hcols & Hnd & Hne & Hlen).
    destruct (sound_file_imported schema P fs batch_size batch_size_positive cg f
                (files_rows P fs csv_files) Hf)
      as (c' & t & Himp & Hdc & Hwt & Hwc' & Htakes').
    { split; [done|]. split; [by exists t0|]. split; [done|]. split; [done|].
      by rewrite Ha'. }
    rewrite Hw in Hwt. injection Hwt as <-.
    unfold Per.import_csv_data. rewrite Himp. cbn [after_import].
    destruct Htakes' as (Hab' & _ & _ & _ & Hacc').
    assert (commit c' = mkDB (working c') (working c') false (accepts c')
                             (fetched c') (history c' ++ [(COMMIT, None)])) as Hcommit
      by (unfold commit; by rewrite Hab').
    destruct (IH (Loader.mkRun (Loader.run_total run + Py.len (file_rows P fs f))
                               (Loader.run_log run ++ [imported_whole P fs f])
                               (commit c'))
                 (mkTable (columns t0) (rows t0 ++ file_rows P fs f)))
      as (Hlog & Htot & Hwk & Habk & Hdur); [done| | |done|].
    { cbn [Loader.run_cursor]. rewrite Hcommit. split; [done|]. cbn.
      split; [done|]. split; [done|]. split; [done|]. split; [done|].
      apply Forall_app. split; [done|]. apply file_rows_length. }
    { cbn [Loader.run_cursor]. by rewrite Hcommit. }
    cbv zeta in *. cbn [Loader.run_cursor Loader.run_log Loader.run_total
                        columns rows] in *.
    unfold imported_whole in *.
    split; [by rewrite Hlog, <- app_assoc|].
    split; [rewrite Htot; unfold files_rows; cbn [map concat]; rewrite len_app; lia|].
    split; [rewrite Hwk; unfold files_rows; cbn [map concat]; by rewrite <- app_assoc|].
    split; [done|].
    intros _. destruct csv_files as [|g csv_files].
    + cbn. by rewrite Hcommit.
    + by apply Hdur.
Qed.

End FirstRun.

(** X19. The first run of the person loader: on a server without the
    table, over a folder whose files are read to their end, whose rows
    the server takes and none of which starts with a record an earlier
    file holds, [main] exits with 0 and the committed table holds the
    rows of all the files in sorted file order; no file is skipped. *)
Theorem first_run_of_the_person_loader (schema indexes : list (string * string))
    (fs : FileSystem) (folder : string) (server : DB)
    (csv_file : string) (more : list string) :
  schema <> [] -> NoDup (column_names schema) ->
  durable server = None ->
  get_csv_files fs folder = Ok (csv_file :: more) ->
  Forall (sound fs) (csv_file :: more) ->
  forallb (accepts server)
          (files_rows (Per.process_row schema) fs (csv_file :: more)) = true ->
  starts_fresh (Per.process_row schema) fs [] (csv_file :: more) = true ->
  let result := Per.main schema indexes fs folder server in
  result.1 = (0, map (imported_whole (Per.process_row schema) fs)
                     (csv_file :: more)) /\
  durable result.2 =
    Some (mkTable (column_names schema)
                  (files_rows (Per.process_row schema) fs (csv_file :: more))).
Proof.
  intros Hne Hnd Hdur Hfiles Hsound Hacc Hfresh. cbv zeta.
  rewrite per_main_with. unfold main_with. cbv zeta.
  destruct (create_absent_table schema (connect server) Hne Hnd eq_refl Hdur)
    as (c1 & -> & _ & Ha1 & Hab1 & Hw1).
  rewrite Hfiles. unfold Per.import_multiple_files.
  assert (commit c1 = mkDB (working c1) (working c1) false (accepts c1)
                           (fetched c1) (history c1 ++ [(COMMIT, None)])) as Hcommit
    by (unfold commit; by rewrite Hab1).
  destruct (per_sound_files_imported schema fs 1000 eq_refl (csv_file :: more)
              (Loader.mkRun 0 [] (commit c1))
              (mkTable (column_names schema) []))
    as (Hlog & _ & Hwk & Habk & Hd); [done| | |done|].
  { cbn [Loader.run_cursor]. rewrite Hcommit. split; [done|]. cbn.
    split; [done|]. split; [done|]. split; [done|].
    split; [by destruct schema|constructor]. }
  { cbn [Loader.run_cursor]. rewrite Hcommit. cbn. by rewrite Ha1. }
  cbv zeta in *. cbn [Loader.run_cursor Loader.run_log columns rows app] in *.
  set (run := fold_left _ (csv_file :: more) _) in *.
  destruct (main_tail indexes (Loader.run_log run) (Loader.run_cursor run)
              (mkTable (column_names schema)
                       (files_rows (Per.process_row schema) fs (csv_file :: more))))
    as (server' & Htail & Hd').
  { rewrite Hd by done. rewrite Hwk.
    by destruct (aborted (Csv.create_indexes indexes (Loader.run_cursor run))). }
  unfold Per.create_indexes, Per.final_statistics.
  rewrite Htail. cbn [fst snd]. by rewrite Hlog.
Qed.

Lemma first_run_of_the_person_loader_witness :
  let process_row := Per.process_row Per.COLUMN_DEFINITIONS in
  let result := Per.main Per.COLUMN_DEFINITIONS Per.indexes per_delivery "per"
                         no_table in
  result.1 = (0, [Imported "per/one.csv" 2; Imported "per/two.csv" 2]) /\
  durable result.2 =
    Some (mkTable (column_names Per.COLUMN_DEFINITIONS)
                  (processed process_row
                     [person "u/ann" "Ann" "1"; person "u/bob" "Bob" "2";
                      person "u/cy" "Cy" "3"; person "u/ann" "Ann" "1"])).
Proof.
  cbv zeta.
  apply (first_run_of_the_person_loader Per.COLUMN_DEFINITIONS Per.indexes
           per_delivery "per" no_table "per/one.csv" ["per/two.csv"]).
  - done.
  - apply (bool_decide_unpack _). by vm_compute.
  - reflexivity.
  - by vm_compute.
  - repeat constructor; eexists; split; reflexivity.
  - by vm_compute.
  - by vm_compute.
Defined.

(** ** Folders and runs without files *)

Section Folders.

Lemma append_same (a b : string) : (a ++ b)%string = b -> a = "".
Proof.
  intros H. apply (f_equal String.length) in H. rewrite length_append in H.
  destruct a; [done|]. cbn in H. lia.
Qed.

Lemma join_returns_second (a b : string) :
  String.prefix "/" b = false -> Os.join (Some a) b = Ok b -> a = "".
Proof.
  intros Hb. unfold Os.join. rewrite Hb.
  destruct (String.eqb a "" || Py.endswith a "/").
  - intros [= H]. by apply append_same in H.
  - intros [= H]. apply (f_equal String.length) in H.
    rewrite !length_append in H. cbn in H. lia.
Qed.

End Folders.

(** X20. The folder each script reads, by the one variable they share.
    Without CSV_FOLDER_PATH the organisation and the person loader end
    while they are loaded, with status 1 and before any connection, and
    only the raw feed loader reads the folder the orchestrator
    announces.  With it, the raw feed loader reads the folder of the
    variable itself, not the one below it: when the organisation loader
    reads the folder announced for it, the raw feed loader reads the
    empty path. *)
Theorem folders_by_environment (environ : gmap string string)
    (fs : FileSystem) (server : DB) :
  (environ !! "CSV_FOLDER_PATH" = None ->
   Org_script environ fs server = (1, [], server) /\
   Per_script environ fs server = (1, [], server) /\
   RawFeed_CSV_FOLDER_PATH environ = Some "20250922/raw_feed_per") /\
  (forall base, environ !! "CSV_FOLDER_PATH" = Some base ->
   RawFeed_CSV_FOLDER_PATH environ = Some base /\
   RawFeed_script environ fs server =
     RawFeed.main RawFeed.COLUMN_DEFINITIONS RawFeed.indexes fs base server) /\
  (Org_CSV_FOLDER_PATH environ = Ok "20250922/org/csv" ->
   RawFeed_CSV_FOLDER_PATH environ = Some "").
Proof.
  unfold Org_script, Per_script, RawFeed_script, Org_CSV_FOLDER_PATH,
    Per_CSV_FOLDER_PATH, RawFeed_CSV_FOLDER_PATH, Os.getenv.
  split; [|split].
  - by intros ->.
  - by intros base ->.
  - destruct (environ !! "CSV_FOLDER_PATH") as [base|]; [|done].
    intros H. by rewrite (join_returns_second base "20250922/org/csv" eq_refl H).
Qed.

Lemma folders_by_environment_witness :
  Org_script ∅ first_delivery no_table = (1, [], no_table) /\
  RawFeed_CSV_FOLDER_PATH {[ "CSV_FOLDER_PATH" := "" ]} = Some "".
Proof.
  split.
  - apply (folders_by_environment ∅ first_delivery no_table). reflexivity.
  - apply (folders_by_environment {[ "CSV_FOLDER_PATH" := "" ]} first_delivery
             no_table).
    reflexivity.
Defined.

(** X21. A run of a script that drops its table and then finds no file -
    the folder is missing, is no directory, or holds no entry ending in
    .csv or .csv.gz - exits with 1 and leaves the table empty: the rows
    it held are gone, since the table is dropped, created and committed
    before the folder is looked at. *)
Theorem run_without_files_empties_the_table
    (schema indexes : list (string * string)) (fs : FileSystem) (folder : string)
    (server : DB) (result : Z * list LogRecord * DB) :
  result = Org.main schema indexes fs folder server \/
  result = Csv.main schema indexes fs None folder server \/
  result = RawFeed.main schema indexes fs folder server ->
  schema <> [] -> NoDup (column_names schema) ->
  lists_files fs folder = false ->
  result.1 = (1, []) /\
  durable result.2 = Some (mkTable (column_names schema) []).
Proof.
  intros Hres Hne Hnd Hno.
  assert (exists loop,
            result = main_with Csv.create_table loop schema indexes fs folder server)
    as (loop & ->).
  { destruct Hres as [-> | [-> | ->]].
    - by exists Csv.import_multiple_csv_files.
    - exists Csv.import_multiple_csv_files. by rewrite csv_main_with.
    - by exists RawFeed.import_multiple_files. }
  destruct (drop_create_table schema (connect server) Hne Hnd eq_refl)
    as (c1 & Hc1 & _ & _ & Hab1 & Hw1).
  unfold main_with. cbv zeta. rewrite Hc1. unfold lists_files in Hno.
  destruct (commit_facts c1) as (_ & _ & _ & Hdur). rewrite Hab1, Hw1 in Hdur.
  destruct (get_csv_files fs folder) as [[|f files]|e]; [|done|]; cbn; by rewrite Hdur.
Qed.

Lemma run_without_files_empties_the_table_witness :
  let result := Org.main Org.COLUMN_DEFINITIONS Org.indexes first_delivery "org"
                         holds_ann in
  result.1 = (1, []) /\
  durable result.2 = Some (mkTable (column_names Org.COLUMN_DEFINITIONS) []).
Proof.
  apply (run_without_files_empties_the_table Org.COLUMN_DEFINITIONS Org.indexes
           first_delivery "org" holds_ann).
  - left. reflexivity.
  - done.
  - apply (bool_decide_unpack _). by vm_compute.
  - reflexivity.
Defined.

(** ** The orchestrator *)

Section Orchestrator.

Variable w : All.World.
Hypothesis w_ordinary : ordinary w.

Lemma run_import_script_ordinary (job : All.Job) :
  All.run_import_script (All.child w (All.script job))
                        (All.elapsed w (All.script job)) =
  Ok (All.success (result_of w job), All.elapsed w (All.script job)).
Proof.
  destruct w_ordinary as [_ Hel]. specialize (Hel (All.script job)).
  unfold All.run_import_script, result_of. cbn [All.success].
  destruct (All.format_duration (All.elapsed w (All.script job))); [|done].
  destruct (All.child w (All.script job)) as [[|p|p]|]; done.
Qed.

(** One turn of the loop. *)
Lemma run_jobs_cons (job : All.Job) (jobs : list All.Job) (stdin : list string)
    (results : list All.JobResult) :
  All.run_jobs w (job :: jobs) stdin results =
    if All.success (result_of w job)
    then All.run_jobs w jobs stdin (results ++ [result_of w job])
    else match stdin with
         | [] => (results ++ [result_of w job], [], Some ReadError)
         | response :: stdin' =>
             if All.declined response
             then (results ++ [result_of w job], stdin', None)
             else All.run_jobs w jobs stdin' (results ++ [result_of w job])
         end.
Proof.
  cbn [All.run_jobs]. rewrite run_import_script_ordinary.
  by destruct stdin.
Qed.

Lemma success_result_of (job : All.Job) :
  All.success (result_of w job) =
  bool_decide (All.child w (All.script job) = All.Exited 0).
Proof. reflexivity. Qed.

(** The loop, while every script succeeds. *)
Lemma run_jobs_succeed (jobs : list All.Job) (stdin : list string)
    (results : list All.JobResult) :
  Forall (fun job => All.child w (All.script job) = All.Exited 0) jobs ->
  All.run_jobs w jobs stdin results =
    (results ++ map (result_of w) jobs, stdin, None).
Proof.
  revert results. induction jobs as [|job jobs IH]; intros results Hall.
  - cbn. by rewrite app_nil_r.
  - apply Forall_cons in Hall as [Hjob Hall]. rewrite run_jobs_cons.
    rewrite success_result_of, (bool_decide_eq_true_2 _ Hjob).
    rewrite (IH _ Hall). cbn [map]. by rewrite <- app_assoc.
Qed.

(** The loop up to a script that fails and an answer that declines. *)
Lemma run_jobs_declined (good later : list All.Job) (bad : All.Job)
    (response : string) (stdin : list string) (results : list All.JobResult) :
  Forall (fun job => All.child w (All.script job) = All.Exited 0) good ->
  All.child w (All.script bad) <> All.Exited 0 ->
  All.declined response = true ->
  All.run_jobs w (good ++ bad :: later) (response :: stdin) results =
    (results ++ map (result_of w) (good ++ [bad]), stdin, None).
Proof.
  revert results. induction good as [|job good IH]; intros results Hall Hbad Hno.
  - cbn [app map]. rewrite run_jobs_cons.
    by rewrite success_result_of, (bool_decide_eq_false_2 _ Hbad), Hno.
  - apply Forall_cons in Hall as [Hjob Hall]. cbn [app]. rewrite run_jobs_cons.
    rewrite success_result_of, (bool_decide_eq_true_2 _ Hjob).
    rewrite (IH _ Hall Hbad Hno). cbn [map]. by rewrite <- app_assoc.
Qed.

(** What the loop leaves, whatever the scripts and the answers do: no
    exception, every result is the one of its job, and they all
    succeeded exactly when every script exited with 0. *)
Lemma run_jobs_results (jobs : list All.Job) (stdin : list string)
    (results : list All.JobResult) :
  exists ran stdin' exn,
    All.run_jobs w jobs stdin results =
      (results ++ map (result_of w) ran, stdin', exn) /\
    ran `prefix_of` jobs /\
    (exn = None -> forallb All.success (map (result_of w) ran) = true ->
     ran = jobs) /\
    (exn <> None ->
     forallb All.success (map (result_of w) ran) = false).
Proof.
  revert stdin results. induction jobs as [|job jobs IH]; intros stdin results.
  - exists [], stdin, None. cbn. by rewrite app_nil_r.
  - rewrite run_jobs_cons.
    destruct (All.success (result_of w job)) eqn:Hs.
    + destruct (IH stdin (results ++ [result_of w job]))
        as (ran & stdin' & exn & -> & Hpre & Hall & Hexn).
      exists (job :: ran), stdin', exn. cbn [map forallb]. rewrite Hs.
      rewrite <- app_assoc. split; [done|]. split; [by apply prefix_cons|].
      split; [|done]. intros He Hok. by rewrite (Hall He Hok).
    + destruct stdin as [|response stdin].
      * exists [job], [], (Some ReadError). cbn [map forallb]. rewrite Hs.
        split; [done|]. split; [apply prefix_cons, prefix_nil|]. done.
      * destruct (All.declined response).
        -- exists [job], stdin, None. cbn [map forallb]. rewrite Hs.
           split; [done|]. split; [apply prefix_cons, prefix_nil|]. done.
        -- destruct (IH stdin (results ++ [result_of w job]))
             as (ran & stdin' & exn & -> & Hpre & Hall & Hexn).
           exists (job :: ran), stdin', exn. cbn [map forallb]. rewrite Hs.
           rewrite <- app_assoc. split; [done|]. split; [by apply prefix_cons|].
           done.
Qed.

Lemma results_table_ordinary (ran : list All.Job) :
  raises (All.results_table (map (result_of w) ran)) = false.
Proof.
  destruct w_ordinary as [_ Hel].
  induction ran as [|job ran IH]; [done|]. cbn [map All.results_table].
  cbn [result_of All.duration]. specialize (Hel (All.script job)).
  destruct (All.format_duration (All.elapsed w (All.script job))); [|done].
  by destruct (All.results_table (map (result_of w) ran)).
Qed.

Lemma summary_ordinary (ran : list All.Job) :
  All.summary w (map (result_of w) ran) =
  Ok (if forallb All.success (map (result_of w) ran) then 0 else 1).
Proof.
  destruct w_ordinary as [Htot _]. unfold All.summary.
  destruct (All.format_duration (All.total_elapsed w)); [|done].
  pose proof (results_table_ordinary ran) as Htab.
  destruct (All.results_table (map (result_of w) ran)); [|done].
  f_equal. generalize (map (result_of w) ran). intros results.
  assert (Py.len (filter (fun r => Is_true (All.success r)) results) <= Py.len results
          /\ (Py.len results - Py.len (filter (fun r => Is_true (All.success r)) results) = 0
              <-> forallb All.success results = true)) as [Hle Hiff].
  { unfold Py.len. induction results as [|r results [IHle IHiff]]; [done|].
    cbn [forallb]. rewrite filter_cons. destruct (All.success r) eqn:Hs.
    - rewrite decide_True by done. cbn [length andb]. split; [lia|].
      rewrite <- IHiff. lia.
    - rewrite decide_False by (by intros []). cbn [length andb]. split; [lia|].
      split; [lia|done]. }
  destruct (forallb All.success results).
  - by rewrite (proj2 Hiff eq_refl).
  - destruct (Z.eqb_spec (Py.len results -
                Py.len (filter (fun r => Is_true (All.success r)) results)) 0)
      as [Heq|_]; [|done].
    by apply Hiff in Heq.
Qed.

End Orchestrator.

(** X22. The exit status of the orchestrator: with clock readings that can
    be formatted, it is 0 exactly when the operator declined the first
    prompt, or confirmed it and all three scripts exited with 0; in every
    other case, the end of the input included, it is 1.  An answer
    confirms only if it is y or Y. *)
Theorem orchestrator_exit_status (w : All.World) :
  ordinary w ->
  ((All.main w).1.1 = 0 \/ (All.main w).1.1 = 1) /\
  ((All.main w).1.1 = 0 <->
   exists response stdin,
     All.stdin w = response :: stdin /\
     (All.declined response = true \/
      Forall (fun job => All.child w (All.script job) = All.Exited 0)
             All.import_jobs)) /\
  (forall response, All.declined response = false <-> response = "y" \/ response = "Y").
Proof.
  intros Hw. split; [|split].
  - unfold All.main. destruct (All.stdin w) as [|response stdin]; [by right|].
    destruct (All.declined response); [by left|].
    destruct (run_jobs_results w Hw All.import_jobs stdin [])
      as (ran & stdin' & exn & -> & _).
    destruct exn; [by right|]. cbn [app].
    rewrite (summary_ordinary w Hw). by destruct (forallb _ _); [left|right].
  - unfold All.main. destruct (All.stdin w) as [|response stdin].
    { split; [done|]. by intros (? & ? & ? & _). }
    destruct (All.declined response) eqn:Hno.
    { split; [|done]. intros _. exists response, stdin. auto. }
    split.
    + destruct (run_jobs_results w Hw All.import_jobs stdin [])
        as (ran & stdin' & exn & Hrun & Hpre & Hall & Hexn).
      rewrite Hrun. cbn [app] in *.
      intros Hst. exists response, stdin. split; [done|]. right.
      destruct exn; [done|]. rewrite (summary_ordinary w Hw) in Hst. cbn in Hst.
      destruct (forallb All.success (map (result_of w) ran)) eqn:Hok; [|done].
      rewrite (Hall eq_refl eq_refl) in Hok.
      apply Forall_forall. intros job Hin.
      rewrite forallb_forall in Hok.
      assert (In (result_of w job) (map (result_of w) All.import_jobs)) as Hjob
        by (apply in_map; by apply list_elem_of_In).
      apply Hok in Hjob. rewrite success_result_of in Hjob.
      by apply bool_decide_eq_true_1 in Hjob.
    + intros (response' & stdin0 & [= <- <-] & [Hyes|Hall']); [congruence|].
      rewrite (run_jobs_succeed w Hw All.import_jobs stdin [] Hall').
      cbn [app]. rewrite (summary_ordinary w Hw).
      assert (forallb All.success (map (result_of w) All.import_jobs) = true) as ->;
        [|done].
      apply forallb_forall. intros r Hin%list_elem_of_In.
      apply list_elem_of_fmap in Hin as (job & -> & Hjob).
      rewrite success_result_of.
      apply bool_decide_eq_true_2. rewrite Forall_forall in Hall'. by apply Hall'.
  - intros response. unfold All.declined. rewrite negb_false_iff, String.eqb_eq.
    split.
    + destruct response as [|c [|c' rest]]; cbn; try done.
      intros [= Hc]. unfold Py.ascii_lower in Hc.
      destruct (Py.is_upper c) eqn:Hu.
      * right. f_equal. apply (f_equal N_of_ascii) in Hc.
        unfold Py.is_upper in Hu. apply andb_true_iff in Hu as [_ Hu].
        apply N.leb_le in Hu.
        rewrite N_ascii_embedding in Hc by lia.
        assert (N_of_ascii c = 89%N) as Hn by (cbn in Hc; lia).
        rewrite <- (ascii_N_embedding c), Hn. reflexivity.
      * left. by f_equal.
    + by intros [-> | ->].
Qed.

Lemma orchestrator_exit_status_witness :
  (All.main per_fails).1.1 = 1.
Proof.
  destruct (orchestrator_exit_status per_fails) as ([H0 | H1] & Hiff & _).
  - split; [reflexivity|]. intros script_name. reflexivity.
  - apply Hiff in H0 as (response & stdin & [= <- <-] & [Hno | Hall]).
    + by vm_compute in Hno.
    + apply Forall_cons in Hall as [_ Hall]. apply Forall_cons in Hall as [Hper _].
      by vm_compute in Hper.
  - exact H1.
Defined.

(** X23. After a script that fails and an answer that declines, no later
    script is started: the results hold the scripts up to the failed one,
    in the order of the plan, and the exit status is 1.  The scripts
    before the failed one have run and are not undone. *)
Theorem orchestrator_stops_when_declined (w : All.World)
    (good later : list All.Job) (bad : All.Job)
    (confirm response : string) (stdin : list string) :
  ordinary w ->
  All.import_jobs = good ++ bad :: later ->
  All.stdin w = confirm :: response :: stdin ->
  All.declined confirm = false -> All.declined response = true ->
  Forall (fun job => All.child w (All.script job) = All.Exited 0) good ->
  All.child w (All.script bad) <> All.Exited 0 ->
  All.main w = (1, map (result_of w) (good ++ [bad]), stdin).
Proof.
  intros Hw Hjobs Hin Hyes Hno Hgood Hbad. unfold All.main.
  rewrite Hin, Hyes, Hjobs.
  rewrite (run_jobs_declined w Hw good later bad response stdin [] Hgood Hbad Hno).
  cbn [app]. rewrite (summary_ordinary w Hw).
  assert (forallb All.success (map (result_of w) (good ++ [bad])) = false) as ->;
    [|done].
  rewrite map_app, forallb_app. cbn.
  rewrite (bool_decide_eq_false_2 _ Hbad). by rewrite andb_false_r.
Qed.

Lemma orchestrator_stops_when_declined_witness :
  All.main per_fails =
    (1, [All.mkJobResult "ORGANIZATION (ORG)" "releases_org_export" true
                         (S754_zero false);
         All.mkJobResult "PERSON (PER)" "releases_per_export" false
                         (S754_zero false)],
     ["left"]).
Proof.
  apply (orchestrator_stops_when_declined per_fails
           [All.mkJob "import_org_to_postgres.py" "ORGANIZATION (ORG)"
                      "releases_org_export" "20250922/org/csv"]
           [All.mkJob "import_raw_feed_per_to_postgres.py" "RAW FEED PERSON"
                      "releases_raw_feed_per_export" "20250922/raw_feed_per"]
           (All.mkJob "import_per_to_postgres.py" "PERSON (PER)"
                      "releases_per_export" "20250922/per/csv")
           "Y" "n" ["left"]).
  - split; [reflexivity|]. intros script_name. reflexivity.
  - reflexivity.
  - reflexivity.
  - reflexivity.
  - reflexivity.
  - repeat constructor.
  - by vm_compute.
Defined.

(** ** Durations *)

Section Durations.

Lemma format_duration_text (x : spec_float) (k : Z) :
  Py.int x = Ok k ->
  All.format_duration x =
    if 999999999 <? Z.abs (k / 86400) then Raise OverflowError
    else Ok (duration_text (k / 86400) (k mod 86400 / 3600)
                           ((k mod 86400) mod 3600 / 60)
                           ((k mod 86400) mod 3600 mod 60)).
Proof.
  intros Hk. unfold All.format_duration, All.timedelta_of_seconds. rewrite Hk.
  destruct (999999999 <? Z.abs (k / 86400)); [done|].
  cbn [All.seconds All.days All.divmod]. unfold duration_text.
  by repeat case_match.
Qed.

Lemma pretty_N_char_digit (x : N) : Py.is_digit (pretty_N_char x) = true.
Proof. unfold pretty_N_char. by repeat case_match. Qed.

Lemma pretty_N_go_digits (x : N) (s : string) :
  Forall (fun c => Py.is_digit c = true) (list_ascii_of_string s) ->
  Forall (fun c => Py.is_digit c = true) (list_ascii_of_string (pretty_N_go x s)).
Proof.
  revert s. induction (N.lt_wf_0 x) as [x _ IH]; intros s Hs.
  destruct (decide (x = 0)%N) as [->|Hx].
  - by rewrite pretty_N_go_0.
  - rewrite pretty_N_go_step by lia. apply IH.
    + apply N.div_lt; lia.
    + cbn. constructor; [apply pretty_N_char_digit|done].
Qed.

Lemma str_digits (n : Z) :
  0 <= n ->
  Forall (fun c => Py.is_digit c = true) (list_ascii_of_string (All.str n)).
Proof.
  intros Hn. unfold All.str, pretty, pretty_Z.
  destruct n as [|p|p]; [by repeat constructor| |lia].
  unfold pretty, pretty_positive, pretty, pretty_N.
  destruct (decide (N.pos p = 0)%N); [done|].
  apply pretty_N_go_digits. constructor.
Qed.

Lemma str_inj (n m : Z) : All.str n = All.str m -> n = m.
Proof. unfold All.str. apply (inj pretty). Qed.

Lemma list_ascii_of_string_app (a b : string) :
  list_ascii_of_string (a ++ b) = list_ascii_of_string a ++ list_ascii_of_string b.
Proof.
  induction a as [|c a IH]; [done|].
  rewrite append_cons. cbn. by rewrite IH.
Qed.

Lemma list_ascii_of_string_inj (a b : string) :
  list_ascii_of_string a = list_ascii_of_string b -> a = b.
Proof.
  intros H. apply (f_equal string_of_list_ascii) in H.
  by rewrite !string_of_list_ascii_of_string in H.
Qed.

Lemma span_digits_app (ds rest : list ascii) (c : ascii) :
  Forall (fun c => Py.is_digit c = true) ds -> Py.is_digit c = false ->
  Py.span_digits (ds ++ c :: rest) = (ds, c :: rest).
Proof.
  intros Hds Hc. induction Hds as [|d ds Hd Hds IH]; cbn.
  - by rewrite Hc.
  - by rewrite Hd, IH.
Qed.

(** A number, then a character that is no digit: the text tells the
    number, the character and what follows. *)
Lemma number_then_unit (n m : Z) (c c' : ascii) (r r' : string) :
  0 <= n -> 0 <= m -> Py.is_digit c = false -> Py.is_digit c' = false ->
  (All.str n ++ String c r)%string = (All.str m ++ String c' r')%string ->
  n = m /\ c = c' /\ r = r'.
Proof.
  intros Hn Hm Hc Hc' Heq.
  apply (f_equal list_ascii_of_string) in Heq.
  rewrite !list_ascii_of_string_app in Heq. cbn [list_ascii_of_string] in Heq.
  apply (f_equal Py.span_digits) in Heq.
  rewrite !span_digits_app in Heq by (done || by apply str_digits).
  injection Heq as H1 H2 H3.
  split; [by apply str_inj, list_ascii_of_string_inj|].
  split; [done|]. by apply list_ascii_of_string_inj.
Qed.

Lemma unit_append (c : ascii) (r : string) :
  (String c (String " " EmptyString) ++ r)%string = String c (String " " r).
Proof. reflexivity. Qed.

Lemma string_cons_inj (c c' : ascii) (r r' : string) :
  String c r = String c' r' -> c = c' /\ r = r'.
Proof. by intros [= -> ->]. Qed.

(** The text tells the fields, for fields that are not negative and
    shown from the first one that is not zero. *)
Lemma duration_text_inj (d h m s d' h' m' s' : Z) :
  0 <= d -> 0 <= h -> 0 <= m -> 0 <= s ->
  0 <= d' -> 0 <= h' -> 0 <= m' -> 0 <= s' ->
  duration_text d h m s = duration_text d' h' m' s' ->
  s = s' /\
  ((0 < d /\ d = d' /\ h = h' /\ m = m') \/
   (d = 0 /\ d' = 0 /\ 0 < h /\ h = h' /\ m = m') \/
   (d = 0 /\ d' = 0 /\ h = 0 /\ h' = 0 /\ m = m')).
Proof.
  intros Hd Hh Hm Hs Hd' Hh' Hm' Hs'. unfold duration_text.
  rewrite !unit_append.
  destruct (Z.gtb_spec d 0) as [Hd0|Hd0], (Z.gtb_spec d' 0) as [Hd0'|Hd0'],
           (Z.gtb_spec h 0) as [Hh0|Hh0], (Z.gtb_spec h' 0) as [Hh0'|Hh0'],
           (Z.gtb_spec m 0) as [Hm0|Hm0], (Z.gtb_spec m' 0) as [Hm0'|Hm0'];
    intros Heq;
    repeat match goal with
    | H : (All.str _ ++ String _ _)%string = (All.str _ ++ String _ _)%string |- _ =>
        apply number_then_unit in H as (? & ? & ?); [|done..]
    | H : String _ _ = String _ _ |- _ => apply string_cons_inj in H as (? & ?)
    end;
    try discriminate; subst; try (split; [done|]).
  all: try (left; repeat split; (done || lia)).
  all: try (right; left; repeat split; (done || lia)).
  all: try (right; right; repeat split; (done || lia)).
Qed.

End Durations.

(** X24. [format_duration] tells apart any two durations that are not
    negative and differ in their whole seconds: equal texts come from
    equal numbers of seconds.  The fraction of a second is dropped. *)
Theorem format_duration_tells_the_seconds (x y : spec_float) (a b : Z)
    (text : string) :
  Py.int x = Ok a -> Py.int y = Ok b -> 0 <= a -> 0 <= b ->
  All.format_duration x = Ok text -> All.format_duration y = Ok text ->
  a = b.
Proof.
  intros Hx Hy Ha Hb.
  rewrite (format_duration_text x a Hx), (format_duration_text y b Hy).
  destruct (999999999 <? Z.abs (a / 86400)); [done|].
  destruct (999999999 <? Z.abs (b / 86400)); [done|].
  intros [= <-] [= Heq]. symmetry in Heq.
  pose proof (Z.div_mod a 86400 ltac:(lia)) as Ea.
  pose proof (Z.div_mod b 86400 ltac:(lia)) as Eb.
  pose proof (Z.mod_pos_bound a 86400 ltac:(lia)) as Ba.
  pose proof (Z.mod_pos_bound b 86400 ltac:(lia)) as Bb.
  pose proof (Z.div_pos a 86400 Ha ltac:(lia)) as Da.
  pose proof (Z.div_pos b 86400 Hb ltac:(lia)) as Db.
  set (ra := a mod 86400) in *. set (rb := b mod 86400) in *.
  pose proof (Z.div_mod ra 3600 ltac:(lia)) as Era.
  pose proof (Z.div_mod rb 3600 ltac:(lia)) as Erb.
  pose proof (Z.mod_pos_bound ra 3600 ltac:(lia)) as Bra.
  pose proof (Z.mod_pos_bound rb 3600 ltac:(lia)) as Brb.
  pose proof (Z.div_pos ra 3600 ltac:(lia) ltac:(lia)) as Dra.
  pose proof (Z.div_pos rb 3600 ltac:(lia) ltac:(lia)) as Drb.
  set (qa := ra mod 3600) in *. set (qb := rb mod 3600) in *.
  pose proof (Z.div_mod qa 60 ltac:(lia)) as Eqa.
  pose proof (Z.div_mod qb 60 ltac:(lia)) as Eqb.
  pose proof (Z.mod_pos_bound qa 60 ltac:(lia)) as Bqa.
  pose proof (Z.mod_pos_bound qb 60 ltac:(lia)) as Bqb.
  pose proof (Z.div_pos qa 60 ltac:(lia) ltac:(lia)) as Dqa.
  pose proof (Z.div_pos qb 60 ltac:(lia) ltac:(lia)) as Dqb.
  apply duration_text_inj in Heq; try lia.
Qed.

Lemma format_duration_tells_the_seconds_witness :
  All.format_duration (float_of "3725.25") = Ok "1h 2m 5s" /\
  All.format_duration (float_of "3725.9") = Ok "1h 2m 5s" /\
  3725 = 3725.
Proof.
  split; [by vm_compute|]. split; [by vm_compute|].
  apply (format_duration_tells_the_seconds (float_of "3725.25") (float_of "3725.9")
           3725 3725 "1h 2m 5s").
  - by vm_compute.
  - by vm_compute.
  - lia.
  - lia.
  - by vm_compute.
  - by vm_compute.
Defined.

(** X25. [format_duration] raises on a NaN (ValueError), on an infinity
    and on a duration of more than 999999999 days either way
    (OverflowError); on every other duration it returns a text. *)
Theorem format_duration_raises (x : spec_float) (k : Z) :
  All.format_duration S754_nan = Raise ValueError /\
  (forall s, All.format_duration (S754_infinity s) = Raise OverflowError) /\
  (Py.int x = Ok k ->
   (k < -86399999913600 \/ 86400000000000 <= k ->
    All.format_duration x = Raise OverflowError) /\
   (-86399999913600 <= k < 86400000000000 ->
    raises (All.format_duration x) = false)).
Proof.
  split; [done|]. split; [done|]. intros Hk.
  rewrite (format_duration_text x k Hk).
  pose proof (Z.div_mod k 86400 ltac:(lia)) as E.
  pose proof (Z.mod_pos_bound k 86400 ltac:(lia)) as B.
  destruct (Z.ltb_spec 999999999 (Z.abs (k / 86400))) as [Hbig|Hok].
  - split; [done|lia].
  - split; [lia|done].
Qed.

Lemma format_duration_raises_witness :
  All.format_duration (float_of "1e16") = Raise OverflowError /\
  raises (All.format_duration (float_of "86399999999999.5")) = false.
Proof.
  split.
  - apply (format_duration_raises (float_of "1e16") 10000000000000000).
    + by vm_compute.
    + lia.
  - apply (format_duration_raises (float_of "86399999999999.5") 86399999999999).
    + by vm_compute.
    + lia.
Defined.

(** X26. A negative duration is printed as a time of day: the negative day
    count is dropped, so minus one second reads 23h 59m 59s. *)
Theorem format_duration_of_negative (x y : spec_float) (k : Z) :
  Py.int x = Ok k -> Py.int y = Ok (k mod 86400) ->
  -86399999913600 <= k < 0 ->
  raises (All.format_duration x) = false /\
  All.format_duration x = All.format_duration y.
Proof.
  intros Hx Hy Hk.
  rewrite (format_duration_text x k Hx), (format_duration_text y _ Hy).
  pose proof (Z.div_mod k 86400 ltac:(lia)) as E.
  pose proof (Z.mod_pos_bound k 86400 ltac:(lia)) as B.
  rewrite Z.mod_mod by lia.
  rewrite (Z.div_small (k mod 86400) 86400) by lia.
  assert ((999999999 <? Z.abs (k / 86400)) = false) as -> by (apply Z.ltb_ge; lia).
  cbn [Z.abs Z.ltb Z.compare]. split; [done|]. f_equal.
  unfold duration_text.
  assert ((k / 86400 >? 0) = false) as -> by lia.
  reflexivity.
Qed.

Lemma format_duration_of_negative_witness :
  raises (All.format_duration (float_of "-1")) = false /\
  All.format_duration (float_of "-1") = All.format_duration (float_of "86399").
Proof.
  apply (format_duration_of_negative (float_of "-1") (float_of "86399") (-1)).
  - by vm_compute.
  - by vm_compute.
  - lia.
Defined.
